(** * The authentication subsystem of youGo, embedded in Rocq

    The development follows the packages of the repository:
    - [internal/auth] (jwt.go, password.go, auth_service.go): token
      issuance and validation, password hashing, the login service;
    - [internal/api/middleware] (auth_middleware.go): the [JWTAuth] gate;
    - [internal/domain] (error.go, user.go): sentinel errors,
      [ValidationError], [User], [UserRepository];
    - [internal/service] (user_service.go): the user service;
    - [internal/api/handler] (auth_handler.go) and [internal/api/response]
      (response.go): the signup handler and the response helpers.

    Go values are modelled as the code has them: a [string] is a byte
    string, [[]byte] a list of bytes, [time.Time] and [time.Duration] count
    nanoseconds, [uuid.UUID] is an array of sixteen bytes, an [error] is a
    tree of wrapped values that [errors.Is] walks.  Effects (the wall
    clock, the entropy source, the zap logger, the call of the downstream
    handler) are threaded through a state monad [M] over a [World]; a Go
    panic is an outcome of its own. *)

From Stdlib Require Import ZArith List String Ascii Bool Lia.
From stdpp Require Import base tactics option list gmap strings vector.

Set Default Proof Using "Type".

(* ===================================================================== *)
(** * Part I: the embedding                                              *)
(* ===================================================================== *)

(** ** Bytes *)

Definition byte : Type := ascii.

#[global] Instance ascii_inhabited : Inhabited ascii := populate zero.
#[global] Instance byte_inhabited : Inhabited byte := populate zero.

Definition byteVal (b : byte) : Z := Z.of_N (N_of_ascii b).
Definition byteOf (z : Z) : byte := ascii_of_N (Z.to_N (z mod 256)).

(** [[]byte(s)] and [string(b)]. *)
Definition bytesOf (s : string) : list byte := list_ascii_of_string s.
Definition stringOf (b : list byte) : string := string_of_list_ascii b.

(** ** Errors

    A Go [error] is compared by identity.  The values that the code tests
    with [errors.Is] are package-level variables ([ErrVar]); every other
    error is allocated where it is raised and is identical to no
    variable. *)

Inductive ErrVar : Type :=
  (* internal/domain/error.go *)
  | domain_ErrNotFound
  | domain_ErrDuplicateEntry
  | domain_ErrPermissionDenied
  | domain_ErrInsufficientStock
  | domain_ErrOptimisticLock
  (* internal/auth/auth_service.go *)
  | auth_ErrInvalidCredentials
  (* github.com/golang-jwt/jwt/v5, errors.go *)
  | jwt_ErrInvalidKey
  | jwt_ErrInvalidKeyType
  | jwt_ErrHashUnavailable
  | jwt_ErrTokenMalformed
  | jwt_ErrTokenUnverifiable
  | jwt_ErrTokenSignatureInvalid
  | jwt_ErrTokenRequiredClaimMissing
  | jwt_ErrTokenInvalidAudience
  | jwt_ErrTokenExpired
  | jwt_ErrTokenUsedBeforeIssued
  | jwt_ErrTokenInvalidIssuer
  | jwt_ErrTokenInvalidSubject
  | jwt_ErrTokenNotValidYet
  | jwt_ErrTokenInvalidId
  | jwt_ErrTokenInvalidClaims
  | jwt_ErrInvalidType
  (* golang.org/x/crypto/bcrypt *)
  | bcrypt_ErrMismatchedHashAndPassword
  | bcrypt_ErrHashTooShort
  | bcrypt_ErrPasswordTooLong
  (* a variable of a package outside this model (a driver, the ORM, ...) *)
  | foreign_Err (name : string).

#[global] Instance ErrVar_eq_dec : EqDecision ErrVar.
Proof. solve_decision. Defined.

Inductive error : Type :=
  | errVar (v : ErrVar)
      (* a package-level variable *)
  | errNew (text : string)
      (* errors.New, or fmt.Errorf without %w, at the place it is raised *)
  | wrapError (pre : string) (err : error) (post : string)
      (* fmt.Errorf with one %w: pre ++ err.Error() ++ post *)
  | wrapErrors (e1 : error) (mid : string) (e2 : error)
      (* fmt.Errorf with two %w *)
  | HTTPError (Code : Z) (Message : string).
      (* *echo.HTTPError, as echo.NewHTTPError builds it *)

Module errors.

(** [errors.Is(err, target)] for a package-level [target]: [err] itself,
    or anything it wraps, is that variable. *)
Fixpoint Is (err : error) (target : ErrVar) : bool :=
  match err with
  | errVar v => bool_decide (v = target)
  | errNew _ => false
  | wrapError _ e _ => Is e target
  | wrapErrors e1 _ e2 => Is e1 target || Is e2 target
  | HTTPError _ _ => false
  end.

End errors.

(** ** uuid.UUID *)

Definition UUID : Type := vec byte 16.

#[global] Instance UUID_eq_dec : EqDecision UUID.
Proof. unfold UUID, byte. apply _. Defined.

Module uuid.

Definition Nil : UUID := vreplicate 16 zero.

Definition hexDigit (n : N) : byte :=
  ascii_of_N (if (n <? 10)%N then 48 + n else 87 + n)%N.

Definition hexByte (b : byte) : list byte :=
  let n := N_of_ascii b in [hexDigit (n / 16)%N; hexDigit (n mod 16)%N].

Definition hex (bs : list byte) : list byte := concat (map hexByte bs).

(** [UUID.String]: xxxxxxxx-xxxx-xxxx-xxxx-xxxxxxxxxxxx. *)
Definition String (u : UUID) : string :=
  let b := vec_to_list u in
  let dash := ["-"%char] in
  stringOf (hex (take 4 b) ++ dash ++ hex (take 2 (drop 4 b)) ++ dash ++
            hex (take 2 (drop 6 b)) ++ dash ++ hex (take 2 (drop 8 b)) ++ dash ++
            hex (drop 10 b)).

End uuid.

(** ** time *)

Definition Time : Type := Z.      (* nanoseconds since the Unix epoch *)
Definition Duration : Type := Z.  (* nanoseconds, an int64 *)

Module time.

Definition Nanosecond : Duration := 1%Z.
Definition Second : Duration := 1000000000%Z.
Definition Minute : Duration := (60 * Second)%Z.
Definition Hour : Duration := (60 * Minute)%Z.

Definition Add (t : Time) (d : Duration) : Time := (t + d)%Z.

(** [t.Truncate(d)]: [t] rounded down to a multiple of [d]; [t] itself
    when [d <= 0].  The zero time is a whole number of seconds before the
    Unix epoch, so for the whole-second [d] used here multiples of [d]
    since either origin coincide. *)
Definition Truncate (t : Time) (d : Duration) : Time :=
  if (d <=? 0)%Z then t else (t - t mod d)%Z.

Definition Before (t u : Time) : bool := (t <? u)%Z.
Definition After (t u : Time) : bool := (u <? t)%Z.

End time.

(** ** net/http and echo *)

Module http.

Definition StatusUnauthorized : Z := 401%Z.

(** [Header.Get]: the first value stored under the key, or the empty
    string.  The key used by this repository, [Authorization], is its own
    canonical form. *)
Definition Header_Get (h : gmap string (list string)) (key : string) : string :=
  match h !! key with
  | Some (v :: _) => v
  | _ => ""
  end.

Record Request : Type := { Header : gmap string (list string) }.

End http.

(** Values held by an [interface{}] in the request-scoped store. *)
Inductive any : Type :=
  | anyUUID (u : UUID)
  | anyString (s : string)
  | anyOther (repr : string).   (* a value of any other dynamic type *)

Module echo.

Record Context : Type := {
  Request : http.Request;
  store : gmap string any
}.

Definition Context_Set (c : Context) (key : string) (val : any) : Context :=
  {| Request := Request c; store := <[key := val]> (store c) |}.

Definition Context_Get (c : Context) (key : string) : option any := store c !! key.

Definition NewHTTPError (code : Z) (message : string) : error := HTTPError code message.

End echo.

(** ** The world: clock, entropy, log and handler calls *)

Inductive Level : Type := DebugLevel | InfoLevel | WarnLevel | ErrorLevel.

Inductive Field : Type :=
  | zap_String (key val : string)
  | zap_Error (err : error).

Inductive Event : Type :=
  | Logged (lvl : Level) (msg : string) (fields : list Field)
      (* an entry written through the zap logger *)
  | Served (c : echo.Context).
      (* the downstream handler was entered with this context *)

Record World : Type := {
  wall : nat -> Time;               (* the k-th reading of the wall clock *)
  ticks : nat;                      (* readings taken so far *)
  entropy : nat -> error + byte;    (* crypto/rand.Reader, byte by byte *)
  drawn : nat;                      (* bytes drawn so far *)
  trace : list Event                (* what has been logged and served *)
}.

Inductive Res (A : Type) : Type :=
  | Ret (a : A)
  | Panic (v : string).
Arguments Ret {A} a.
Arguments Panic {A} v.

Definition M (A : Type) : Type := World -> Res A * World.

#[global] Instance M_ret : MRet M := fun A a w => (Ret a, w).
#[global] Instance M_bind : MBind M := fun A B k m w =>
  match m w with
  | (Ret a, w') => k a w'
  | (Panic v, w') => (Panic v, w')
  end.

Definition panic {A : Type} (v : string) : M A := fun w => (Panic v, w).

Definition emit (e : Event) : M unit := fun w =>
  (Ret tt, {| wall := wall w; ticks := ticks w; entropy := entropy w;
              drawn := drawn w; trace := trace w ++ [e] |}).

(** [time.Now()]: one more reading of the wall clock. *)
Definition time_Now : M Time := fun w =>
  (Ret (wall w (ticks w)),
   {| wall := wall w; ticks := S (ticks w); entropy := entropy w;
      drawn := drawn w; trace := trace w |}).

(** [io.ReadFull(rand.Reader, buf)] for a buffer of [n] bytes: the next
    [n] bytes of the source, or the first error met. *)
Fixpoint readFrom (src : nat -> error + byte) (pos n : nat) : error + list byte :=
  match n with
  | O => inr []
  | S n' =>
      match src pos with
      | inl e => inl e
      | inr b =>
          match readFrom src (S pos) n' with
          | inl e => inl e
          | inr bs => inr (b :: bs)
          end
      end
  end.

Definition rand_ReadFull (n : nat) : M (error + list byte) := fun w =>
  (Ret (readFrom (entropy w) (drawn w) n),
   {| wall := wall w; ticks := ticks w; entropy := entropy w;
      drawn := drawn w + n; trace := trace w |}).

Module zap.
Definition Debug (msg : string) (fields : list Field) : M unit := emit (Logged DebugLevel msg fields).
Definition Info (msg : string) (fields : list Field) : M unit := emit (Logged InfoLevel msg fields).
Definition Warn (msg : string) (fields : list Field) : M unit := emit (Logged WarnLevel msg fields).
Definition Error (msg : string) (fields : list Field) : M unit := emit (Logged ErrorLevel msg fields).
End zap.

(** ** strings *)

(** [strings.Map(unicode.ToLower, s)], taken only when [s] holds a byte
    outside ASCII; the Unicode case tables are not part of this model. *)
Class Unicode : Type := { MapToLower : string -> string }.

Module strings.

(** [strings.Split(s, sep)] for a separator of one byte, which is how the
    repository calls it: the pieces between the occurrences of [sep], one
    more than there are occurrences. *)
Fixpoint Split (s : string) (sep : ascii) : list string :=
  match s with
  | EmptyString => [EmptyString]
  | String c s' =>
      if Ascii.eqb c sep then EmptyString :: Split s' sep
      else match Split s' sep with
           | p :: ps => String c p :: ps
           | [] => [String c EmptyString]
           end
  end.

(** [strings.Join(elems, sep)] for a separator of one byte. *)
Fixpoint Join (elems : list string) (sep : ascii) : string :=
  match elems with
  | [] => ""
  | [e] => e
  | e :: rest => e +:+ String sep (Join rest sep)
  end.

Definition isASCII (s : string) : bool :=
  forallb (fun c => (N_of_ascii c <? 128)%N) (list_ascii_of_string s).

Definition isUpper (c : ascii) : bool :=
  ((65 <=? N_of_ascii c) && (N_of_ascii c <=? 90))%N.

Definition lowerByte (c : ascii) : ascii :=
  if isUpper c then ascii_of_N (N_of_ascii c + 32)%N else c.

Fixpoint lowerASCII (s : string) : string :=
  match s with
  | EmptyString => EmptyString
  | String c s' => String (lowerByte c) (lowerASCII s')
  end.

(** [strings.ToLower]: bytewise on ASCII-only input, through the Unicode
    tables otherwise. *)
Definition ToLower `{Unicode} (s : string) : string :=
  if isASCII s then lowerASCII s else MapToLower s.

End strings.

(** ** github.com/golang-jwt/jwt/v5, as internal/auth/jwt.go uses it

    The control flow of the parser, of the validator and of token signing
    is written out.  What they delegate to other packages is a parameter
    ([Codec]): the base64url segment encoding, encoding/json on the header
    and on the claims, and the keyed hash behind the HMAC methods. *)

Module jwt.

(** [TimePrecision] and [NewNumericDate] (types.go): a NumericDate holds
    the time truncated to whole seconds. *)
Definition TimePrecision : Duration := time.Second.

Definition NewNumericDate (t : Time) : Time := time.Truncate t TimePrecision.

Record RegisteredClaims : Type := {
  Issuer : string;
  Subject : string;
  Audience : list string;
  ExpiresAt : option Time;   (* *NumericDate *)
  NotBefore : option Time;
  IssuedAt : option Time;
  ID : string
}.

Inductive Hash : Type := SHA256 | SHA384 | SHA512.

(** The signing methods that the package registers. *)
Inductive SigningMethod : Type :=
  | SigningMethodHMAC (h : Hash)
  | SigningMethodRSA (h : Hash)
  | SigningMethodRSAPSS (h : Hash)
  | SigningMethodECDSA (h : Hash)
  | SigningMethodEd25519
  | signingMethodNone.

Definition SigningMethodHS256 : SigningMethod := SigningMethodHMAC SHA256.

Definition bits (h : Hash) : string :=
  match h with SHA256 => "256" | SHA384 => "384" | SHA512 => "512" end.

Definition Alg (m : SigningMethod) : string :=
  match m with
  | SigningMethodHMAC h => "HS" +:+ bits h
  | SigningMethodRSA h => "RS" +:+ bits h
  | SigningMethodRSAPSS h => "PS" +:+ bits h
  | SigningMethodECDSA h => "ES" +:+ bits h
  | SigningMethodEd25519 => "EdDSA"
  | signingMethodNone => "none"
  end.

Definition registered : list SigningMethod :=
  [SigningMethodHMAC SHA256; SigningMethodHMAC SHA384; SigningMethodHMAC SHA512;
   SigningMethodRSA SHA256; SigningMethodRSA SHA384; SigningMethodRSA SHA512;
   SigningMethodRSAPSS SHA256; SigningMethodRSAPSS SHA384; SigningMethodRSAPSS SHA512;
   SigningMethodECDSA SHA256; SigningMethodECDSA SHA384; SigningMethodECDSA SHA512;
   SigningMethodEd25519; signingMethodNone].

Definition GetSigningMethod (alg : string) : option SigningMethod :=
  find (fun m => String.eqb (Alg m) alg) registered.

(** [newError(message, err, more...)] (errors.go): one value that wraps
    [err] and, when given, [more]. *)
Definition newError (message : string) (err : error) (more : option error) : error :=
  let post := if String.eqb message "" then "" else ": " +:+ message in
  match more with
  | None => wrapError "" err post
  | Some e => wrapErrors err (post +:+ ": ") e
  end.

(** [joinErrors]: one value that wraps every element. *)
Fixpoint joinErrors (errs : list error) : option error :=
  match errs with
  | [] => None
  | e :: rest =>
      match joinErrors rest with
      | None => Some (wrapError "" e "")
      | Some r => Some (wrapErrors e ", " r)
      end
  end.

End jwt.

(** [CustomClaims] (jwt.go:19-24). *)
Record CustomClaims : Type := {
  UserID : UUID;
  Registered : jwt.RegisteredClaims
}.

Class Codec : Type := {
  EncodeSegment : list byte -> string;
  DecodeSegment : string -> error + list byte;
  json_MarshalHeader : gmap string any -> error + list byte;
  json_MarshalClaims : CustomClaims -> error + list byte;
  json_UnmarshalHeader : list byte -> error + gmap string any;
  json_UnmarshalClaims : list byte -> error + CustomClaims;
  hmac : jwt.Hash -> list byte -> list byte -> list byte
    (* hmac h key message *)
}.

Module jwt_token.
Import jwt.

Record Token : Type := {
  Raw : string;
  Method : option SigningMethod;
  Header : gmap string any;
  Claims : CustomClaims;
  Signature : list byte;
  Valid : bool
}.

(** A key is what the Keyfunc hands back; this repository only ever
    returns the [[]byte] secret. *)
Definition Keyfunc : Type := Token -> error + list byte.

Section WithCodec.
Context `{Codec}.

(** [SigningMethod.Sign] with a [[]byte] key. *)
Definition Sign (m : SigningMethod) (signingString : string) (key : list byte)
  : error + list byte :=
  match m with
  | SigningMethodHMAC h => inr (hmac h key (bytesOf signingString))
  | signingMethodNone => inl (errNew "'none' signature type is not allowed")
  | _ => inl (wrapError "" (errVar jwt_ErrInvalidKeyType) "")
  end.

(** [SigningMethod.Verify] with a [[]byte] key. *)
Definition Verify (m : SigningMethod) (signingString : string) (sig key : list byte)
  : option error :=
  match m with
  | SigningMethodHMAC h =>
      if bool_decide (sig = hmac h key (bytesOf signingString)) then None
      else Some (errVar jwt_ErrTokenSignatureInvalid)
  | signingMethodNone => Some (errNew "'none' signature type is not allowed")
  | _ => Some (wrapError "" (errVar jwt_ErrInvalidKeyType) "")
  end.

(** [NewWithClaims] (token.go). *)
Definition NewWithClaims (method : SigningMethod) (claims : CustomClaims) : Token :=
  {| Raw := "";
     Method := Some method;
     Header := <["typ" := anyString "JWT"]> (<["alg" := anyString (Alg method)]> ∅);
     Claims := claims;
     Signature := [];
     Valid := false |}.

Definition SigningString (t : Token) : error + string :=
  match json_MarshalHeader (Header t) with
  | inl e => inl e
  | inr h =>
      match json_MarshalClaims (Claims t) with
      | inl e => inl e
      | inr c => inr (EncodeSegment h +:+ "." +:+ EncodeSegment c)
      end
  end.

Definition SignedString (t : Token) (key : list byte) : M (error + string) :=
  match SigningString t with
  | inl e => mret (inl e)
  | inr sstr =>
      match Method t with
      | None => panic "invalid memory address or nil pointer dereference"
      | Some m =>
          match Sign m sstr key with
          | inl e => mret (inl e)
          | inr sig => mret (inr (sstr +:+ "." +:+ EncodeSegment sig))
          end
      end
  end.

(** [Parser.ParseUnverified] (parser.go): split, decode the header and
    the claims, look the declared algorithm up. *)
Definition ParseUnverified (tokenString : string)
  : option Token * list string * option error :=
  let parts := strings.Split tokenString "." in
  if negb (length parts =? 3)%nat then
    (None, parts,
     Some (newError "token contains an invalid number of segments"
                    (errVar jwt_ErrTokenMalformed) None))
  else
    let token := {| Raw := tokenString; Method := None; Header := ∅;
                    Claims := {| UserID := uuid.Nil;
                                 Registered := {| Issuer := ""; Subject := "";
                                   Audience := []; ExpiresAt := None;
                                   NotBefore := None; IssuedAt := None; ID := "" |} |};
                    Signature := []; Valid := false |} in
    match DecodeSegment (parts !!! 0%nat) with
    | inl e =>
        (Some token, parts,
         Some (newError "could not base64 decode header" (errVar jwt_ErrTokenMalformed) (Some e)))
    | inr headerBytes =>
        match json_UnmarshalHeader headerBytes with
        | inl e =>
            (Some token, parts,
             Some (newError "could not JSON decode header" (errVar jwt_ErrTokenMalformed) (Some e)))
        | inr header =>
            let token := {| Raw := tokenString; Method := None; Header := header;
                            Claims := Claims token; Signature := []; Valid := false |} in
            match DecodeSegment (parts !!! 1%nat) with
            | inl e =>
                (Some token, parts,
                 Some (newError "could not base64 decode claim" (errVar jwt_ErrTokenMalformed) (Some e)))
            | inr claimBytes =>
                match json_UnmarshalClaims claimBytes with
                | inl e =>
                    (Some token, parts,
                     Some (newError "could not JSON decode claim" (errVar jwt_ErrTokenMalformed) (Some e)))
                | inr claims =>
                    let token := {| Raw := tokenString; Method := None; Header := header;
                                    Claims := claims; Signature := []; Valid := false |} in
                    match header !! "alg" with
                    | Some (anyString method) =>
                        match GetSigningMethod method with
                        | None =>
                            (Some token, parts,
                             Some (newError "signing method (alg) is unavailable"
                                            (errVar jwt_ErrTokenUnverifiable) None))
                        | Some m =>
                            (Some {| Raw := tokenString; Method := Some m; Header := header;
                                     Claims := claims; Signature := []; Valid := false |},
                             parts, None)
                        end
                    | _ =>
                        (Some token, parts,
                         Some (newError "signing method (alg) is unspecified"
                                        (errVar jwt_ErrTokenUnverifiable) None))
                    end
                end
            end
        end
    end.

(** [Validator.Validate] (validator.go) with the default options: no
    leeway, [exp] and [nbf] checked when present, [iat] not checked. *)
Definition verifyExpiresAt (claims : CustomClaims) (cmp : Time) : option error :=
  match ExpiresAt (Registered claims) with
  | None => None
  | Some exp => if time.Before cmp exp then None else Some (errVar jwt_ErrTokenExpired)
  end.

Definition verifyNotBefore (claims : CustomClaims) (cmp : Time) : option error :=
  match NotBefore (Registered claims) with
  | None => None
  | Some nbf => if negb (time.Before cmp nbf) then None else Some (errVar jwt_ErrTokenNotValidYet)
  end.

Definition Validate (claims : CustomClaims) : M (option error) :=
  now ← time_Now;
  let errs := option_list (verifyExpiresAt claims now)
              ++ option_list (verifyNotBefore claims now) in
  mret (joinErrors errs).

(** [ParseWithClaims] (parser.go). *)
Definition ParseWithClaims (tokenString : string) (keyFunc : Keyfunc)
  : M (option Token * option error) :=
  match ParseUnverified tokenString with
  | (token, _, Some err) => mret (token, Some err)
  | (None, _, None) => panic "invalid memory address or nil pointer dereference"
  | (Some token, parts, None) =>
      match DecodeSegment (parts !!! 2%nat) with
      | inl e =>
          mret (Some token,
                Some (newError "could not base64 decode signature"
                               (errVar jwt_ErrTokenMalformed) (Some e)))
      | inr sig =>
          let token := {| Raw := Raw token; Method := Method token; Header := Header token;
                          Claims := Claims token; Signature := sig; Valid := false |} in
          let text := strings.Join (take 2 parts) "." in
          match keyFunc token with
          | inl e =>
              mret (Some token,
                    Some (newError "error while executing keyfunc"
                                   (errVar jwt_ErrTokenUnverifiable) (Some e)))
          | inr have =>
              match Method token with
              | None => panic "invalid memory address or nil pointer dereference"
              | Some m =>
                  match Verify m text sig have with
                  | Some e =>
                      mret (Some token,
                            Some (newError "" (errVar jwt_ErrTokenSignatureInvalid) (Some e)))
                  | None =>
                      verr ← Validate (Claims token);
                      match verr with
                      | Some e =>
                          mret (Some token,
                                Some (newError "" (errVar jwt_ErrTokenInvalidClaims) (Some e)))
                      | None =>
                          mret (Some {| Raw := Raw token; Method := Method token;
                                        Header := Header token; Claims := Claims token;
                                        Signature := sig; Valid := true |}, None)
                      end
                  end
              end
          end
      end
  end.

End WithCodec.

End jwt_token.

(** ** golang.org/x/crypto/blowfish and golang.org/x/crypto/bcrypt, as
    internal/auth/jwt.go (password.go) uses them

    The key schedule and the bcrypt functions are written out.  The
    initial P-array and S-boxes of Blowfish (the digits of pi in
    const.go) are a parameter ([Tables]). *)

Class Tables : Type := {
  init_p : list Z;    (* [18]uint32 *)
  init_s0 : list Z;   (* [256]uint32 *)
  init_s1 : list Z;
  init_s2 : list Z;
  init_s3 : list Z
}.

Module blowfish.

Definition u32 (z : Z) : Z := (z mod 4294967296)%Z.

Record Cipher : Type := {
  p : list Z;
  s0 : list Z;
  s1 : list Z;
  s2 : list Z;
  s3 : list Z
}.

Definition idx (x : Z) (shift : Z) : nat := Z.to_nat (Z.land (Z.shiftr x shift) 255).

(** The round function: ((s0[x>>24] + s1[x>>16]) ^ s2[x>>8]) + s3[x]. *)
Definition feistel (c : Cipher) (x : Z) : Z :=
  u32 (Z.lxor (u32 ((s0 c !!! idx x 24) + (s1 c !!! idx x 16))) (s2 c !!! idx x 8)
       + (s3 c !!! idx x 0)).

(** [encryptBlock] (block.go): sixteen rounds, the halves swapped at the end. *)
Definition encryptBlock (l r : Z) (c : Cipher) : Z * Z :=
  let xl := Z.lxor l (p c !!! 0%nat) in
  let '(xl, xr) :=
    fold_left (fun '(xl, xr) k =>
                 let xr := Z.lxor xr (Z.lxor (feistel c xl) (p c !!! (2 * k + 1)%nat)) in
                 let xl := Z.lxor xl (Z.lxor (feistel c xr) (p c !!! (2 * k + 2)%nat)) in
                 (xl, xr))
              (seq 0 8) (xl, r) in
  let xr := Z.lxor xr (p c !!! 17%nat) in
  (xr, xl).

(** [getNextWord(b, &pos)] (block.go): four bytes of [b], big-endian, read
    cyclically from [pos].  It is never called on an empty [b]. *)
Definition getNextWord (b : list byte) (pos : nat) : Z * nat :=
  fold_left (fun '(w, j) _ =>
               let w := Z.lor (Z.shiftl w 8) (byteVal (b !!! j)) in
               let j := S j in
               (u32 w, if (length b <=? j)%nat then 0%nat else j))
            (seq 0 4) (0%Z, pos).

(** The eighteen words that a key contributes to the P-array. *)
Definition keyWords (key : list byte) : list Z :=
  fst (fold_left (fun '(ws, j) _ => let '(w, j) := getNextWord key j in (ws ++ [w], j))
                 (seq 0 18) ([], 0%nat)).

Definition xorP (c : Cipher) (ws : list Z) : Cipher :=
  {| p := zip_with Z.lxor (p c) ws; s0 := s0 c; s1 := s1 c; s2 := s2 c; s3 := s3 c |}.

(** The cells of the cipher state in the order in which the key schedule
    rewrites them, two at a time. *)
Inductive Box : Type := BoxP | BoxS0 | BoxS1 | BoxS2 | BoxS3.

Definition store2 (c : Cipher) (b : Box) (i : nat) (l r : Z) : Cipher :=
  let put (a : list Z) := <[S i := r]> (<[i := l]> a) in
  match b with
  | BoxP => {| p := put (p c); s0 := s0 c; s1 := s1 c; s2 := s2 c; s3 := s3 c |}
  | BoxS0 => {| p := p c; s0 := put (s0 c); s1 := s1 c; s2 := s2 c; s3 := s3 c |}
  | BoxS1 => {| p := p c; s0 := s0 c; s1 := put (s1 c); s2 := s2 c; s3 := s3 c |}
  | BoxS2 => {| p := p c; s0 := s0 c; s1 := s1 c; s2 := put (s2 c); s3 := s3 c |}
  | BoxS3 => {| p := p c; s0 := s0 c; s1 := s1 c; s2 := s2 c; s3 := put (s3 c) |}
  end.

Definition cells : list (Box * nat) :=
  let evens (n : nat) := map (fun k => (2 * k)%nat) (seq 0 n) in
  map (pair BoxP) (evens 9) ++ map (pair BoxS0) (evens 128) ++ map (pair BoxS1) (evens 128)
  ++ map (pair BoxS2) (evens 128) ++ map (pair BoxS3) (evens 128).

(** [ExpandKey(key, c)] (block.go): the key words are xored into P, then the state
    is rewritten by encrypting the running block. *)
Definition ExpandKey (key : list byte) (c : Cipher) : Cipher :=
  let c := xorP c (keyWords key) in
  snd (fold_left (fun '((l, r), c) '(b, i) =>
                    let '(l, r) := encryptBlock l r c in
                    ((l, r), store2 c b i l r))
                 cells ((0%Z, 0%Z), c)).

(** [expandKeyWithSalt(key, salt, c)]: as [ExpandKey], the running block
    xored with the next two words of the salt before each encryption. *)
Definition expandKeyWithSalt (key salt : list byte) (c : Cipher) : Cipher :=
  let c := xorP c (keyWords key) in
  snd (fold_left (fun '((l, r), j, c) '(b, i) =>
                    let '(w1, j) := getNextWord salt j in
                    let '(w2, j) := getNextWord salt j in
                    let '(l, r) := encryptBlock (Z.lxor l w1) (Z.lxor r w2) c in
                    ((l, r), j, store2 c b i l r))
                 cells ((0%Z, 0%Z), 0%nat, c)).

Definition KeySizeError (k : nat) : error := errNew "crypto/blowfish: invalid key size".

Section WithTables.
Context `{Tables}.

Definition initCipher : Cipher :=
  {| p := init_p; s0 := init_s0; s1 := init_s1; s2 := init_s2; s3 := init_s3 |}.

Definition NewCipher (key : list byte) : error + Cipher :=
  let k := length key in
  if (k <? 1)%nat || (56 <? k)%nat then inl (KeySizeError k)
  else inr (ExpandKey key initCipher).

Definition NewSaltedCipher (key salt : list byte) : error + Cipher :=
  if (length salt =? 0)%nat then NewCipher key
  else
    let k := length key in
    if (k <? 1)%nat then inl (KeySizeError k)
    else inr (expandKeyWithSalt key salt initCipher).

End WithTables.

Definition be32 (b : list byte) : Z :=
  fold_left (fun w x => Z.lor (Z.shiftl w 8) (byteVal x)) b 0%Z.

Definition put32 (w : Z) : list byte :=
  [byteOf (Z.shiftr w 24); byteOf (Z.shiftr w 16); byteOf (Z.shiftr w 8); byteOf w].

(** [c.Encrypt(dst, src)] on one block of eight bytes. *)
Definition Encrypt (c : Cipher) (src : list byte) : list byte :=
  let '(l, r) := encryptBlock (be32 (take 4 src)) (be32 (take 4 (drop 4 src))) c in
  put32 l ++ put32 r.

End blowfish.

Module base64.

(** encoding/base64 with the padding character [=], for an alphabet given
    as a string of 64 bytes. *)

Definition digit (alphabet : string) (n : Z) : byte :=
  bytesOf alphabet !!! Z.to_nat (Z.land n 63).

Fixpoint Encode (alphabet : string) (src : list byte) : list byte :=
  match src with
  | [] => []
  | [b0] =>
      let v := Z.shiftl (byteVal b0) 16 in
      [digit alphabet (Z.shiftr v 18); digit alphabet (Z.shiftr v 12); "="%char; "="%char]
  | [b0; b1] =>
      let v := Z.lor (Z.shiftl (byteVal b0) 16) (Z.shiftl (byteVal b1) 8) in
      [digit alphabet (Z.shiftr v 18); digit alphabet (Z.shiftr v 12);
       digit alphabet (Z.shiftr v 6); "="%char]
  | b0 :: b1 :: b2 :: rest =>
      let v := Z.lor (Z.lor (Z.shiftl (byteVal b0) 16) (Z.shiftl (byteVal b1) 8)) (byteVal b2) in
      digit alphabet (Z.shiftr v 18) :: digit alphabet (Z.shiftr v 12)
      :: digit alphabet (Z.shiftr v 6) :: digit alphabet v :: Encode alphabet rest
  end.

(** The value of a digit: its first position in the alphabet. *)
Fixpoint indexOf (c : byte) (l : list byte) : option nat :=
  match l with
  | [] => None
  | x :: l' => if Ascii.eqb x c then Some 0%nat else S <$> indexOf c l'
  end.

Definition value (alphabet : string) (c : byte) : option Z :=
  if Ascii.eqb c "="%char then None
  else Z.of_nat <$> indexOf c (bytesOf alphabet).

Definition isNewline (c : byte) : bool :=
  Ascii.eqb c "010"%char || Ascii.eqb c "013"%char.

Definition CorruptInputError : error := errNew "illegal base64 data".

Definition quantum (ds : list Z) : list byte :=
  match ds with
  | [d0; d1] => [byteOf (Z.lor (Z.shiftl d0 2) (Z.shiftr d1 4))]
  | [d0; d1; d2] =>
      [byteOf (Z.lor (Z.shiftl d0 2) (Z.shiftr d1 4));
       byteOf (Z.lor (Z.shiftl d1 4) (Z.shiftr d2 2))]
  | [d0; d1; d2; d3] =>
      [byteOf (Z.lor (Z.shiftl d0 2) (Z.shiftr d1 4));
       byteOf (Z.lor (Z.shiftl d1 4) (Z.shiftr d2 2));
       byteOf (Z.lor (Z.shiftl d2 6) d3)]
  | _ => []
  end.

(** [Decode]: line breaks are skipped; four digits give three bytes; a
    quantum may end in padding after two or three digits, and nothing but
    line breaks may follow the padding; input that stops inside a quantum
    is corrupt.  [ds] holds the digits of the quantum being read. *)
Fixpoint decodeFrom (alphabet : string) (ds : list Z) (src : list byte) : error + list byte :=
  match src with
  | [] => if (length ds =? 0)%nat then inr [] else inl CorruptInputError
  | c :: rest =>
      if isNewline c then decodeFrom alphabet ds rest
      else
        match value alphabet c with
        | Some d =>
            let ds := ds ++ [d] in
            if (length ds =? 4)%nat then
              match decodeFrom alphabet [] rest with
              | inl e => inl e
              | inr out => inr (quantum ds ++ out)
              end
            else decodeFrom alphabet ds rest
        | None =>
            if negb (Ascii.eqb c "="%char) then inl CorruptInputError
            else
              let tail := filter (fun x => negb (isNewline x) = true) rest in
              match length ds, tail with
              | 2%nat, ["="%char] => inr (quantum ds)
              | 3%nat, [] => inr (quantum ds)
              | _, _ => inl CorruptInputError
              end
        end
  end.

Definition Decode (alphabet : string) (src : list byte) : error + list byte :=
  decodeFrom alphabet [] src.

End base64.

Module bcrypt.

Definition MinCost : Z := 4.
Definition MaxCost : Z := 31.
Definition DefaultCost : Z := 10.

Definition majorVersion : byte := "2"%char.
Definition minorVersion : byte := "a"%char.
Definition maxSaltSize : nat := 16.
Definition maxCryptedHashSize : nat := 23.
Definition encodedSaltSize : nat := 22.
Definition encodedHashSize : nat := 31.
Definition minHashSize : nat := 59.

Definition magicCipherData : list byte := bytesOf "OrpheanBeholderScryDoubt".

Definition alphabet : string :=
  "./ABCDEFGHIJKLMNOPQRSTUVWXYZabcdefghijklmnopqrstuvwxyz0123456789".

Record hashed : Type := {
  hash : list byte;
  salt : list byte;
  cost : Z;
  major : byte;
  minor : byte
}.

Definition InvalidCostError (c : Z) : error := errNew "crypto/bcrypt: cost outside allowed range".
Definition InvalidHashPrefixError (b : byte) : error :=
  errNew "crypto/bcrypt: bcrypt hashes must start with '$'".
Definition HashVersionTooNewError (b : byte) : error :=
  errNew "crypto/bcrypt: bcrypt algorithm version requested is newer than current version".

(** [base64Encode]: encode, then drop the padding. *)
Fixpoint dropPadding (rev : list byte) : list byte :=
  match rev with
  | c :: rest => if Ascii.eqb c "="%char then dropPadding rest else rev
  | [] => []
  end.

Definition base64Encode (src : list byte) : list byte :=
  reverse (dropPadding (reverse (base64.Encode alphabet src))).

(** [base64Decode]: put [4 - len % 4] padding bytes back, then decode. *)
Definition base64Decode (src : list byte) : error + list byte :=
  let numOfEquals := (4 - length src mod 4)%nat in
  base64.Decode alphabet (src ++ replicate numOfEquals "="%char).

Definition checkCost (c : Z) : option error :=
  if (c <? MinCost)%Z || (MaxCost <? c)%Z then Some (InvalidCostError c) else None.

Section WithTables.
Context `{Tables}.

(** [expensiveBlowfishSetup] (bcrypt.go): the key with its trailing NUL, the salted
    schedule, then [1 << cost] rounds of re-keying. *)
Definition expensiveBlowfishSetup (key : list byte) (cost : Z) (salt : list byte)
  : error + blowfish.Cipher :=
  match base64Decode salt with
  | inl e => inl e
  | inr csalt =>
      let ckey := key ++ [zero] in
      match blowfish.NewSaltedCipher ckey csalt with
      | inl e => inl e
      | inr c =>
          let rounds := Z.to_nat (Z.shiftl 1 cost) in
          inr (Nat.iter rounds
                 (fun c => blowfish.ExpandKey csalt (blowfish.ExpandKey ckey c)) c)
      end
  end.

(** [bcrypt(password, cost, salt)]: the magic text encrypted 64 times,
    block by block; 23 of its 24 bytes are encoded. *)
Definition bcrypt (password : list byte) (cost : Z) (salt : list byte)
  : error + list byte :=
  match expensiveBlowfishSetup password cost salt with
  | inl e => inl e
  | inr c =>
      let block (i : nat) :=
        Nat.iter 64 (blowfish.Encrypt c) (take 8 (drop i magicCipherData)) in
      let cipherData := block 0%nat ++ block 8%nat ++ block 16%nat in
      inr (base64Encode (take maxCryptedHashSize cipherData))
  end.

Definition newFromPassword (password : list byte) (cost : Z) : M (option hashed * option error) :=
  let cost := if (cost <? MinCost)%Z then DefaultCost else cost in
  match checkCost cost with
  | Some e => mret (None, Some e)
  | None =>
      r ← rand_ReadFull maxSaltSize;
      match r with
      | inl e => mret (None, Some e)
      | inr unencodedSalt =>
          let salt := base64Encode unencodedSalt in
          match bcrypt password cost salt with
          | inl e => mret (None, Some e)
          | inr hash =>
              mret (Some {| hash := hash; salt := salt; cost := cost;
                            major := majorVersion; minor := minorVersion |}, None)
          end
      end
  end.

End WithTables.

(** [fmt.Sprintf("%02d", cost)], for the costs that pass [checkCost]. *)
Definition fmt02d (n : Z) : list byte :=
  [ascii_of_N (48 + Z.to_N (n / 10)); ascii_of_N (48 + Z.to_N (n mod 10))].

(** Writing into a fixed array: [copy(arr[n:], src)]. *)
Fixpoint copyAt (arr : list byte) (n : nat) (src : list byte) : list byte :=
  match src with
  | [] => arr
  | b :: src' => copyAt (<[n := b]> arr) (S n) src'
  end.

(** The method [Hash] of [hashed]. *)
Definition Hash (h : hashed) : list byte :=
  let arr := replicate 60 zero in
  let arr := <[0%nat := "$"%char]> arr in
  let arr := <[1%nat := major h]> arr in
  let '(arr, n) :=
    if bool_decide (minor h ≠ zero) then (<[2%nat := minor h]> arr, 3%nat) else (arr, 2%nat) in
  let arr := <[n := "$"%char]> arr in
  let n := S n in
  let arr := copyAt arr n (fmt02d (cost h)) in
  let n := (n + 2)%nat in
  let arr := <[n := "$"%char]> arr in
  let n := S n in
  let arr := copyAt arr n (salt h) in
  let n := (n + encodedSaltSize)%nat in
  let arr := copyAt arr n (hash h) in
  let n := (n + encodedHashSize)%nat in
  take n arr.

(** [strconv.Atoi] on a string of two bytes. *)
Definition isDigit (c : byte) : bool := ((48 <=? N_of_ascii c) && (N_of_ascii c <=? 57))%N.
Definition digitVal (c : byte) : Z := Z.of_N (N_of_ascii c) - 48.

Definition Atoi2 (s : list byte) : error + Z :=
  match s with
  | [a; b] =>
      if isDigit a && isDigit b then inr (10 * digitVal a + digitVal b)%Z
      else if Ascii.eqb a "+"%char && isDigit b then inr (digitVal b)
      else if Ascii.eqb a "-"%char && isDigit b then inr (- digitVal b)%Z
      else inl (errNew "strconv.Atoi: invalid syntax")
  | _ => inl (errNew "strconv.Atoi: invalid syntax")
  end.

(** [decodeVersion]: the bytes read are there, [newFromHash] has checked
    the length. *)
Definition decodeVersion (sbytes : list byte) : error + (byte * byte * nat) :=
  if negb (Ascii.eqb (sbytes !!! 0%nat) "$"%char) then
    inl (InvalidHashPrefixError (sbytes !!! 0%nat))
  else if (N_of_ascii majorVersion <? N_of_ascii (sbytes !!! 1%nat))%N then
    inl (HashVersionTooNewError (sbytes !!! 1%nat))
  else if negb (Ascii.eqb (sbytes !!! 2%nat) "$"%char) then
    inr (sbytes !!! 1%nat, sbytes !!! 2%nat, 4%nat)
  else inr (sbytes !!! 1%nat, zero, 3%nat).

Definition decodeCost (sbytes : list byte) : error + (Z * nat) :=
  match Atoi2 (take 2 sbytes) with
  | inl e => inl e
  | inr cost =>
      match checkCost cost with
      | Some e => inl e
      | None => inr (cost, 3%nat)
      end
  end.

Definition newFromHash (hashedSecret : list byte) : error + hashed :=
  if (length hashedSecret <? minHashSize)%nat then inl (errVar bcrypt_ErrHashTooShort)
  else
    match decodeVersion hashedSecret with
    | inl e => inl e
    | inr (major, minor, n) =>
        let hashedSecret := drop n hashedSecret in
        match decodeCost hashedSecret with
        | inl e => inl e
        | inr (cost, n) =>
            let hashedSecret := drop n hashedSecret in
            inr {| hash := drop encodedSaltSize hashedSecret;
                   salt := take encodedSaltSize hashedSecret;
                   cost := cost; major := major; minor := minor |}
        end
    end.

Section WithTables.
Context `{Tables}.

(** [GenerateFromPassword] (bcrypt.go): a password of more than 72 bytes is
    refused before anything is drawn or computed. *)
Definition GenerateFromPassword (password : list byte) (cost : Z)
  : M (list byte * option error) :=
  if (72 <? length password)%nat then mret ([], Some (errVar bcrypt_ErrPasswordTooLong))
  else
    '(p, err) ← newFromPassword password cost;
    match err, p with
    | Some e, _ => mret ([], Some e)
    | None, Some p => mret (Hash p, None)
    | None, None => panic "invalid memory address or nil pointer dereference"
    end.

(** [CompareHashAndPassword] (bcrypt.go): the hash is recomputed from the
    salt and cost read off the stored digest, and the two are compared in
    their serialized form.  The length of the password is not tested here. *)
Definition CompareHashAndPassword (hashedPassword password : list byte) : option error :=
  match newFromHash hashedPassword with
  | inl e => Some e
  | inr p =>
      match bcrypt password (cost p) (salt p) with
      | inl e => Some e
      | inr otherHash =>
          let otherP := {| hash := otherHash; salt := salt p; cost := cost p;
                           major := major p; minor := minor p |} in
          if bool_decide (Hash p = Hash otherP) then None
          else Some (errVar bcrypt_ErrMismatchedHashAndPassword)
      end
  end.

End WithTables.

End bcrypt.

(** ** internal/auth: the Service interface (auth_service.go:30-34) *)

Module request.
Record LoginRequest : Type := { Email : string; Password : string }.
End request.

Module auth_iface.

Record Service : Type := {
  Login : request.LoginRequest -> M (string * string * option error);
  ValidateToken : string -> M (UUID * option error)
}.

End auth_iface.

(** ** internal/domain/user.go

    A [context.Context] argument carries no data that the modelled code
    reads and is left out of the signatures. *)

Module domain.

Record User : Type := {
  ID : UUID;
  Name : string;
  Email : string;
  PasswordHash : string;
  IsActive : bool;
  Role : string;
  CreatedAt : Time;
  UpdatedAt : Time
}.

(** [UserRepository]: a pointer result and an error, either of which may
    be nil. *)
Record UserRepository : Type := {
  FindByID : UUID -> M (option User * option error);
  FindByEmail : string -> M (option User * option error);
Create : User -> M (option error);
Update : User -> M (option error);
Delete : UUID -> M (option error)
}.

End domain.

(** ** internal/auth/jwt.go, password.go and auth_service.go *)

Module auth.
Import jwt jwt_token.

Definition ErrInvalidCredentials : error := errVar auth_ErrInvalidCredentials.

(** How [%v] prints a header entry. *)
Definition show (v : option any) : string :=
  match v with
  | None => "<nil>"
  | Some (anyString s) => s
  | Some (anyUUID u) => uuid.String u
  | Some (anyOther r) => r
  end.

Section WithLibraries.
Context `{Codec} `{Tables}.

(** The claims literal of [GenerateAccessToken] (jwt.go:29-40) and of
    [GenerateRefreshToken] (jwt.go:58-67).  Its fields are evaluated in
    the order written, each [time.Now()] reading the clock anew. *)
Definition newClaims (userID : UUID) (expiryDuration : Duration) : M CustomClaims :=
  tExp ← time_Now;
  tIat ← time_Now;
  tNbf ← time_Now;
  mret {| UserID := userID;
          Registered := {| Issuer := "";
                           Subject := uuid.String userID;
                           Audience := [];
                           ExpiresAt := Some (NewNumericDate (time.Add tExp expiryDuration));
                           NotBefore := Some (NewNumericDate tNbf);
                           IssuedAt := Some (NewNumericDate tIat);
                           ID := "" |} |}.

(** Lines 43-51: the claims are signed with HS256. *)
Definition signAccessToken (secret : list byte) (claims : CustomClaims)
  : M (string * option error) :=
  let token := NewWithClaims SigningMethodHS256 claims in
  r ← SignedString token secret;
  match r with
  | inl err => mret ("", Some (wrapError "failed to sign access token: " err ""))
  | inr signedToken => mret (signedToken, None)
  end.

(** [GenerateAccessToken] (jwt.go:27-52). *)
Definition GenerateAccessToken (userID : UUID) (secret : list byte)
    (expiryDuration : Duration) : M (string * option error) :=
  newClaims userID expiryDuration ≫= signAccessToken secret.

(** Lines 69-74. *)
Definition signRefreshToken (secret : list byte) (claims : CustomClaims)
  : M (string * option error) :=
  let token := NewWithClaims SigningMethodHS256 claims in
  r ← SignedString token secret;
  match r with
  | inl err => mret ("", Some (wrapError "failed to sign refresh token: " err ""))
  | inr signedToken => mret (signedToken, None)
  end.

(** [GenerateRefreshToken] (jwt.go:57-75). *)
Definition GenerateRefreshToken (userID : UUID) (secret : list byte)
    (expiryDuration : Duration) : M (string * option error) :=
  newClaims userID expiryDuration ≫= signRefreshToken secret.

(** The Keyfunc of [ValidateToken] (jwt.go:81-88). *)
Definition keyFunc (secret : list byte) : Keyfunc := fun token =>
  match Method token with
  | Some (SigningMethodHMAC _) => inr secret
  | _ => inl (errNew ("unexpected signing method: " +:+ show (Header token !! "alg")))
  end.

(** [ValidateToken] (jwt.go:80-112). *)
Definition ValidateToken (tokenString : string) (secret : list byte)
  : M (option CustomClaims * option error) :=
  '(token, err) ← ParseWithClaims tokenString (keyFunc secret);
  match err with
  | Some err =>
      if errors.Is err jwt_ErrTokenMalformed then
        mret (None, Some (wrapError "malformed token: " err ""))
      else if errors.Is err jwt_ErrTokenExpired then
        mret (None, Some (wrapError "token expired: " err ""))
      else if errors.Is err jwt_ErrTokenNotValidYet then
        mret (None, Some (wrapError "token not valid yet: " err ""))
      else if errors.Is err jwt_ErrTokenSignatureInvalid then
        mret (None, Some (wrapError "invalid token signature: " err ""))
      else
        mret (None, Some (wrapError "could not parse token: " err ""))
  | None =>
      match token with
      | None => panic "invalid memory address or nil pointer dereference"
      | Some token =>
          if Valid token then mret (Some (Claims token), None)
          else mret (None, Some (errNew "invalid token"))
      end
  end.

(** [HashPassword] (password.go, jwt.go:128-135). *)
Definition HashPassword (password : string) : M (string * option error) :=
  '(hashedBytes, err) ← bcrypt.GenerateFromPassword (bytesOf password) bcrypt.DefaultCost;
  match err with
  | Some err => mret ("", Some (wrapError "failed to hash password: " err ""))
  | None => mret (stringOf hashedBytes, None)
  end.

(** [CheckPasswordHash] (password.go, jwt.go:139-144). *)
Definition CheckPasswordHash (password hash : string) : bool :=
  match bcrypt.CompareHashAndPassword (bytesOf hash) (bytesOf password) with
  | None => true
  | Some _ => false
  end.

(** [authService] (auth_service.go:37-45). *)
Record authService : Type := {
  userRepo : domain.UserRepository;
  jwtSecret : list byte;
  accessTokenDuration : Duration;
  refreshTokenDuration : Duration
}.

(** [Login] (auth_service.go:71-105). *)
Definition Login (s : authService) (req : request.LoginRequest)
  : M (string * string * option error) :=
  '(user, err) ← domain.FindByEmail (userRepo s) (request.Email req);
  match err with
  | Some err =>
      if errors.Is err domain_ErrNotFound then mret ("", "", Some ErrInvalidCredentials)
      else mret ("", "", Some (wrapError "error finding user by email: " err ""))
  | None =>
      match user with
      | None => panic "invalid memory address or nil pointer dereference"
      | Some user =>
          if negb (CheckPasswordHash (request.Password req) (domain.PasswordHash user)) then
            mret ("", "", Some ErrInvalidCredentials)
          else
            '(accessToken, err) ←
              GenerateAccessToken (domain.ID user) (jwtSecret s) (accessTokenDuration s);
            match err with
            | Some err =>
                mret ("", "", Some (wrapError "failed to generate access token: " err ""))
            | None =>
                '(refreshToken, err) ←
                  GenerateRefreshToken (domain.ID user) (jwtSecret s) (refreshTokenDuration s);
                match err with
                | Some err =>
                    mret ("", "", Some (wrapError "failed to generate refresh token: " err ""))
                | None => mret (accessToken, refreshToken, None)
                end
            end
      end
  end.

(** The method [ValidateToken] of [authService] (auth_service.go:108-126).
    [userID] is the named result: it starts as the zero UUID and no
    statement of the body assigns it; the value read from the claims
    goes to the local [userIDStr]. *)
Definition authService_ValidateToken (s : authService) (tokenString : string)
  : M (UUID * option error) :=
  let userID := uuid.Nil in
  '(claims, err) ← ValidateToken tokenString (jwtSecret s);
  match err with
  | Some err => mret (uuid.Nil, Some (wrapError "token validation failed: " err ""))
  | None =>
      match claims with
      | None => panic "invalid memory address or nil pointer dereference"
      | Some claims =>
          let userIDStr := UserID claims in
          let userIDStr :=
            if bool_decide (userIDStr = uuid.Nil) then UserID claims else userIDStr in
          if bool_decide (userID = uuid.Nil) then
            mret (uuid.Nil,
                  Some (errNew "invalid token: missing user identifier in claims"))
          else mret (userID, None)
      end
  end.

(** [NewAuthService] (auth_service.go:49-65): the service behind the
    [Service] interface, or a panic on an empty secret. *)
Definition NewAuthService (repo : domain.UserRepository) (jwtSecret : list byte)
    (accessDuration refreshDuration : Duration) : M auth_iface.Service :=
  if (length jwtSecret =? 0)%nat then panic "JWT secret cannot be empty"
  else
    let s := {| userRepo := repo; jwtSecret := jwtSecret;
                accessTokenDuration := accessDuration;
                refreshTokenDuration := refreshDuration |} in
    mret {| auth_iface.Login := Login s;
            auth_iface.ValidateToken := authService_ValidateToken s |}.

End WithLibraries.

End auth.

(** ** internal/api/middleware/auth_middleware.go *)

Module middleware.

Definition HandlerFunc : Type := echo.Context -> M (option error).
Definition MiddlewareFunc : Type := HandlerFunc -> HandlerFunc.

Definition UserIDContextKey : string := "userID".

Definition unauthorizedHeader : error :=
  echo.NewHTTPError http.StatusUnauthorized "Missing or malformed authorization header".

Definition unauthorizedToken : error :=
  echo.NewHTTPError http.StatusUnauthorized "Invalid or expired token".

(** The call [next(c)] of the downstream handler; entering it is recorded
    in the trace. *)
Definition call (next : HandlerFunc) (c : echo.Context) : M (option error) :=
  emit (Served c) ≫= λ _, next c.

(** Lines 174-189: what the gate does with the answer of
    [authSvc.ValidateToken]. *)
Definition onValidated (next : HandlerFunc) (c : echo.Context)
    (r : UUID * option error) : M (option error) :=
  let '(userID, err) := r in
  match err with
  | Some e =>
      zap.Warn "AuthMiddleware: Token validation failed" [zap_Error e] ≫= λ _,
      mret (Some unauthorizedToken)
  | None =>
      zap.Debug "AuthMiddleware: Token validated successfully"
                [zap_String "userID" (uuid.String userID)] ≫= λ _,
      let c' := echo.Context_Set c UserIDContextKey (anyUUID userID) in
      call next c'
  end.

(** [JWTAuth(authSvc, log)], lines 149-192.  [parts[0]] and [parts[1]] are
    only read behind the test [len(parts) != 2]. *)
Definition JWTAuth `{Unicode} (authSvc : auth_iface.Service) : MiddlewareFunc :=
  fun next c =>
    let authHeader := http.Header_Get (http.Header (echo.Request c)) "Authorization" in
    if bool_decide (authHeader = "") then
      zap.Warn "AuthMiddleware: Missing authorization header" [] ≫= λ _,
      mret (Some unauthorizedHeader)
    else
      let parts := strings.Split authHeader " " in
      if negb (length parts =? 2)%nat
         || negb (String.eqb (strings.ToLower (parts !!! 0%nat)) "bearer") then
        zap.Warn "AuthMiddleware: Invalid Authorization header format"
                 [zap_String "header" authHeader] ≫= λ _,
        mret (Some unauthorizedHeader)
      else
        let tokenString := parts !!! 1%nat in
        if bool_decide (tokenString = "") then
          zap.Warn "AuthMiddleware: Empty token in authorization header" [] ≫= λ _,
          mret (Some unauthorizedHeader)
        else
          auth_iface.ValidateToken authSvc tokenString ≫= onValidated next c.

(** [GetUserIDFromContext], lines 196-209. *)
Definition GetUserIDFromContext (c : echo.Context) : UUID * bool :=
  match echo.Context_Get c UserIDContextKey with
  | None => (uuid.Nil, false)
  | Some (anyUUID userID) => (userID, true)
  | Some _ => (uuid.Nil, false)
  end.

End middleware.

(** ** Vocabulary of the statements *)

(** The value of the Authorization header of a request. *)
Definition authorization (c : echo.Context) : string :=
  http.Header_Get (http.Header (echo.Request c)) "Authorization".

Definition noSpace (t : string) : Prop := ¬ In " "%char (bytesOf t).

(** The header is the word Bearer, one space and a non-empty token: the
    space after the word is the only one. *)
Definition bearerShape (h : string) : Prop :=
  ∃ tok : string, tok ≠ "" ∧ noSpace tok ∧ h = "Bearer " +:+ tok.

(** The same with the scheme word compared as the gate compares it: the
    header is cut at its spaces, so neither part holds one. *)
Definition bearerShapeAnyCase `{Unicode} (h : string) : Prop :=
  ∃ scheme tok : string,
    strings.ToLower scheme = "bearer" ∧ noSpace scheme
    ∧ tok ≠ "" ∧ noSpace tok
    ∧ h = scheme +:+ " " +:+ tok.

(** [s] spells [word], a word in lower case, letter by letter in either case. *)
Fixpoint capitalizationOf (word s : string) : Prop :=
  match word, s with
  | EmptyString, EmptyString => True
  | String a word', String b s' =>
      (b = a ∨ N_of_ascii b = (N_of_ascii a - 32)%N) ∧ capitalizationOf word' s'
  | _, _ => False
  end.

(** How often the downstream handler was entered. *)
Definition isServed (e : Event) : bool :=
  match e with Served _ => true | Logged _ _ _ => false end.

Definition servedCount (w : World) : nat := length (List.filter isServed (trace w)).

(** [w'] is [w] with one more log entry and nothing else changed. *)
Definition loggedOnce (w w' : World) : Prop :=
  ∃ lvl msg fields, w' = snd (emit (Logged lvl msg fields) w).

(** The algorithm that the header of a token string declares: the [alg]
    entry of its decoded first segment, when that is a string. *)
Definition declaredAlg `{Codec} (tokenString : string) : option string :=
  match strings.Split tokenString "." with
  | header :: _ =>
      match DecodeSegment header with
      | inr headerBytes =>
          match json_UnmarshalHeader headerBytes with
          | inr h => match h !! "alg" with Some (anyString alg) => Some alg | _ => None end
          | inl _ => None
          end
      | inl _ => None
      end
  | [] => None
  end.

(** The names of the HMAC family. *)
Definition isHMACName (alg : string) : Prop :=
  alg = "HS256" ∨ alg = "HS384" ∨ alg = "HS512".

(** The world after sixteen bytes of entropy have been drawn. *)
Definition drew (w : World) : World := snd (rand_ReadFull 16 w).

(** The record that [newFromPassword] fills in at the default cost, for
    the drawn salt and the computed hash. *)
Definition hashedWith (salt16 h : list byte) : bcrypt.hashed :=
  {| bcrypt.hash := h; bcrypt.salt := bcrypt.base64Encode salt16; bcrypt.cost := 10;
     bcrypt.major := "2"%char; bcrypt.minor := "a"%char |}.

(** ** Values for examples *)

Module fixture.

(** A world whose clock stands still at [now] and whose entropy source
    counts up from zero. *)
Definition world (now : Time) : World :=
  {| wall := fun _ => now; ticks := 0; entropy := fun k => inr (ascii_of_nat k);
     drawn := 0; trace := [] |}.

(** A world whose clock shows [start] at its first reading and one
    nanosecond more at each further reading. *)
Definition running (start : Time) : World :=
  {| wall := fun k => (start + Z.of_nat k)%Z; ticks := 0;
     entropy := fun k => inr (ascii_of_nat k); drawn := 0; trace := [] |}.

#[local] Instance unicode : Unicode := {| MapToLower := fun s => s |}.

Definition user7 : UUID := vreplicate 16 "007"%char.

(** A service that takes every token for [user7]'s. *)
Definition acceptAll : auth_iface.Service :=
  {| auth_iface.Login := fun _ => mret ("", "", None);
     auth_iface.ValidateToken := fun _ => mret (user7, None) |}.

Definition handlerOK : middleware.HandlerFunc := fun _ => mret None.

Definition requestWith (authorizationHeader : string) : echo.Context :=
  {| echo.Request := {| http.Header := {["Authorization" := [authorizationHeader]]} |};
     echo.store := ∅ |}.

Definition requestWithout : echo.Context :=
  {| echo.Request := {| http.Header := ∅ |}; echo.store := ∅ |}.

(** A user store that knows nobody. *)
Definition emptyRepo : domain.UserRepository :=
  {| domain.FindByID := fun _ => mret (None, Some (errVar domain_ErrNotFound));
     domain.FindByEmail := fun _ => mret (None, Some (errVar domain_ErrNotFound));
     domain.Create := fun _ => mret None;
     domain.Update := fun _ => mret (Some (errVar domain_ErrNotFound));
     domain.Delete := fun _ => mret (Some (errVar domain_ErrNotFound)) |}.

(** A user store whose connection is down. *)
Definition brokenRepo : domain.UserRepository :=
  {| domain.FindByID := fun _ => mret (None, Some (errNew "connection refused"));
     domain.FindByEmail := fun _ => mret (None, Some (errNew "connection refused"));
     domain.Create := fun _ => mret (Some (errNew "connection refused"));
     domain.Update := fun _ => mret (Some (errNew "connection refused"));
     domain.Delete := fun _ => mret (Some (errNew "connection refused")) |}.

Definition service (repo : domain.UserRepository) : auth.authService :=
  {| auth.userRepo := repo; auth.jwtSecret := bytesOf "secret";
     auth.accessTokenDuration := time.Hour;
     auth.refreshTokenDuration := (24 * time.Hour)%Z |}.

Definition login : request.LoginRequest :=
  {| request.Email := "ada@example.com"; request.Password := "password123" |}.

(** A table of the few segments the examples decode: [headerNone] is the
    base64url text of the JSON object [headerNoneJSON], which sets [alg] to
    [none] and [typ] to [JWT]; [e30] is the text of the empty object. *)
Definition headerNone : string := "eyJhbGciOiJub25lIiwidHlwIjoiSldUIn0".

Definition quote : string := String "034"%char EmptyString.

Definition headerNoneJSON : string :=
  "{" +:+ quote +:+ "alg" +:+ quote +:+ ":" +:+ quote +:+ "none" +:+ quote +:+ ","
  +:+ quote +:+ "typ" +:+ quote +:+ ":" +:+ quote +:+ "JWT" +:+ quote +:+ "}".

Definition noClaims : CustomClaims :=
  {| UserID := uuid.Nil;
     Registered := {| jwt.Issuer := ""; jwt.Subject := ""; jwt.Audience := [];
                      jwt.ExpiresAt := None; jwt.NotBefore := None;
                      jwt.IssuedAt := None; jwt.ID := "" |} |}.

#[local] Instance codec : Codec :=
  {| EncodeSegment := fun _ => "";
     DecodeSegment := fun seg =>
       if String.eqb seg headerNone then inr (bytesOf headerNoneJSON)
       else if String.eqb seg "e30" then inr (bytesOf "{}")
       else if String.eqb seg "" then inr []
       else inl (errNew "illegal base64 data");
     json_MarshalHeader := fun _ => inl (errNew "json: unsupported value");
     json_MarshalClaims := fun _ => inl (errNew "json: unsupported value");
     json_UnmarshalHeader := fun b =>
       if bool_decide (b = bytesOf headerNoneJSON) then
         inr (<["typ" := anyString "JWT"]> (<["alg" := anyString "none"]> ∅))
       else inl (errNew "invalid character");
     json_UnmarshalClaims := fun b =>
       if bool_decide (b = bytesOf "{}") then inr noClaims
       else inl (errNew "invalid character");
     hmac := fun _ _ _ => [] |}.

(** Blowfish tables of the right sizes, all zero. *)
#[local] Instance tables : Tables :=
  {| init_p := replicate 18 0%Z; init_s0 := replicate 256 0%Z;
     init_s1 := replicate 256 0%Z; init_s2 := replicate 256 0%Z;
     init_s3 := replicate 256 0%Z |}.

(** Passwords of 72 and of 73 bytes. *)
Definition password72 : string :=
  "aaaaaaaaaaaaaaaaaaaaaaaaaaaaaaaaaaaaaaaaaaaaaaaaaaaaaaaaaaaaaaaaaaaaaaaa".

Definition password73 : string := password72 +:+ "a".

(** [world now] after sixteen bytes of entropy have been drawn. *)
Definition laterWorld (now : Time) : World :=
  {| wall := fun _ => now; ticks := 0; entropy := fun k => inr (ascii_of_nat k);
     drawn := 16; trace := [] |}.

(** A world whose entropy source yields the same byte for ever. *)
Definition stuckWorld : World :=
  {| wall := fun _ => 0%Z; ticks := 0; entropy := fun _ => inr zero;
     drawn := 0; trace := [] |}.

End fixture.

(** ** github.com/google/uuid, version4.go, as user_service.go uses it *)

Module uuid_version4.

(** [NewRandomFromReader(r)] with [r] the package's [rander], which is
    [crypto/rand.Reader]: sixteen bytes are read into the array, then the
    version and the variant bits are set. *)
Definition NewRandomFromReader : M (UUID * option error) :=
  r ← rand_ReadFull 16;
  match r with
  | inl err => mret (uuid.Nil, Some err)
  | inr bs =>
      let u : UUID := fun_to_vec (fun i : fin 16 => bs !!! fin_to_nat i) in
      let u := vinsert 6%fin (byteOf (Z.lor (Z.land (byteVal (u !!! 6%fin)) 15) 64)) u in
      let u := vinsert 8%fin (byteOf (Z.lor (Z.land (byteVal (u !!! 8%fin)) 63) 128)) u in
      mret (u, None)
  end.

(** [NewRandom]: the randomness pool is off unless [EnableRandPool] is
    called, which this repository never does. *)
Definition NewRandom : M (UUID * option error) := NewRandomFromReader.

End uuid_version4.

(** ** internal/api/request/user_request.go and
    internal/api/response/user_response.go *)

Module CreateUserRequest.
Record t : Type := { Name : string; Email : string; Password : string }.
End CreateUserRequest.

(** The fields of [UpdateUserRequest] are pointers: [None] is nil. *)
Module UpdateUserRequest.
Record t : Type := { Name : option string; IsActive : option bool; Role : option string }.
End UpdateUserRequest.

Module UserResponse.
Record t : Type := {
  ID : string;
  Name : string;
  Email : string;
  IsActive : bool;
  Role : string;
  CreatedAt : Time;
  UpdatedAt : Time
}.
End UserResponse.

(** ** internal/service: the UserService interface (user_service.go:24-29) *)

Module service_iface.

Record UserService : Type := {
  Create : CreateUserRequest.t -> M (option UserResponse.t * option error);
  GetByID : UUID -> M (option UserResponse.t * option error);
  Update : UUID -> UpdateUserRequest.t -> M (option UserResponse.t * option error);
  Delete : UUID -> M (option error)
}.

End service_iface.

(** ** internal/service/user_service.go

    The [*zap.Logger] of the service writes to the log of the world.  A
    request is the struct behind the pointer that the caller hands in.  The
    repository is handed the user by value: what is modelled is a
    repository that does not write through the pointer it receives.
    [time.Now().UTC()] is the same instant as [time.Now()]. *)

Module service.

Record userService : Type := { userRepo : domain.UserRepository }.

(** [mapUserToUserResponse] (user_service.go:171-184). *)
Definition mapUserToUserResponse (user : option domain.User) : option UserResponse.t :=
  match user with
  | None => None
  | Some user =>
      Some {| UserResponse.ID := uuid.String (domain.ID user);
              UserResponse.Name := domain.Name user;
              UserResponse.Email := domain.Email user;
              UserResponse.IsActive := domain.IsActive user;
              UserResponse.Role := domain.Role user;
              UserResponse.CreatedAt := domain.CreatedAt user;
              UserResponse.UpdatedAt := domain.UpdatedAt user |}
  end.

Section WithTables.
Context `{Tables}.

(** Lines 79-90 of [Create]: what is done with the answer of
    [userRepo.Create]. *)
Definition onStored (req : CreateUserRequest.t) (newUser : domain.User)
    (err : option error) : M (option UserResponse.t * option error) :=
  match err with
  | Some err =>
      zap.Error "Failed to create user in repository"
                [zap_String "email" (CreateUserRequest.Email req); zap_Error err] ≫= λ _,
      if errors.Is err domain_ErrDuplicateEntry then
        mret (None, Some (errVar domain_ErrDuplicateEntry))
      else mret (None, Some (errNew "failed to save user information"))
  | None =>
      zap.Info "User created successfully"
               [zap_String "userID" (uuid.String (domain.ID newUser));
                zap_String "email" (CreateUserRequest.Email req)] ≫= λ _,
      mret (mapUserToUserResponse (Some newUser), None)
  end.

(** [Create] (user_service.go:46-91).  The error that comes back with
    [existingUser] is assigned and never read. *)
Definition Create (s : userService) (req : CreateUserRequest.t)
  : M (option UserResponse.t * option error) :=
  zap.Debug "Attempting user creation"
            [zap_String "email" (CreateUserRequest.Email req)] ≫= λ _,
  '(existingUser, err) ← domain.FindByEmail (userRepo s) (CreateUserRequest.Email req);
  match existingUser with
  | Some _ => mret (None, Some (errVar domain_ErrDuplicateEntry))
  | None =>
      '(hashedPassword, err) ← auth.HashPassword (CreateUserRequest.Password req);
      match err with
      | Some _ => mret (None, Some (errNew "internal server error processing creation"))
      | None =>
          '(newUUID, err) ← uuid_version4.NewRandom;
          match err with
          | Some err =>
              zap.Error "Failed to generate UUID for new user" [zap_Error err] ≫= λ _,
              mret (None, Some (errNew "internal server error generating user ID"))
          | None =>
              now ← time_Now;
              let newUser :=
                {| domain.ID := newUUID;
                   domain.Name := CreateUserRequest.Name req;
                   domain.Email := CreateUserRequest.Email req;
                   domain.PasswordHash := hashedPassword;
                   domain.IsActive := true;
                   domain.Role := "user";
                   domain.CreatedAt := now;
                   domain.UpdatedAt := now |} in
              domain.Create (userRepo s) newUser ≫= onStored req newUser
          end
      end
  end.

End WithTables.

(** [GetByID] (user_service.go:94-106). *)
Definition GetByID (s : userService) (id : UUID)
  : M (option UserResponse.t * option error) :=
  zap.Debug "Getting user by ID" [zap_String "userID" (uuid.String id)] ≫= λ _,
  '(user, err) ← domain.FindByID (userRepo s) id;
  match err with
  | Some err =>
      zap.Warn "Failed to get user by ID from repository"
               [zap_String "userID" (uuid.String id); zap_Error err] ≫= λ _,
      if errors.Is err domain_ErrNotFound then mret (None, Some (errVar domain_ErrNotFound))
      else mret (None, Some (errNew "failed retrieving user data"))
  | None => mret (mapUserToUserResponse user, None)
  end.

(** The three field updates of [Update] (lines 124-135).  Each reads the
    field of [user] behind the test [req.F != nil]; through a nil [user]
    that read panics. *)
Definition updateName (req : UpdateUserRequest.t) (st : option domain.User * bool)
  : M (option domain.User * bool) :=
  match UpdateUserRequest.Name req, fst st with
  | None, _ => mret st
  | Some _, None => panic "invalid memory address or nil pointer dereference"
  | Some name, Some user =>
      if negb (String.eqb name (domain.Name user)) then
        mret (Some {| domain.ID := domain.ID user;
                      domain.Name := name;
                      domain.Email := domain.Email user;
                      domain.PasswordHash := domain.PasswordHash user;
                      domain.IsActive := domain.IsActive user;
                      domain.Role := domain.Role user;
                      domain.CreatedAt := domain.CreatedAt user;
                      domain.UpdatedAt := domain.UpdatedAt user |}, true)
      else mret st
  end.

Definition updateIsActive (req : UpdateUserRequest.t) (st : option domain.User * bool)
  : M (option domain.User * bool) :=
  match UpdateUserRequest.IsActive req, fst st with
  | None, _ => mret st
  | Some _, None => panic "invalid memory address or nil pointer dereference"
  | Some isActive, Some user =>
      if negb (Bool.eqb isActive (domain.IsActive user)) then
        mret (Some {| domain.ID := domain.ID user;
                      domain.Name := domain.Name user;
                      domain.Email := domain.Email user;
                      domain.PasswordHash := domain.PasswordHash user;
                      domain.IsActive := isActive;
                      domain.Role := domain.Role user;
                      domain.CreatedAt := domain.CreatedAt user;
                      domain.UpdatedAt := domain.UpdatedAt user |}, true)
      else mret st
  end.

Definition updateRole (req : UpdateUserRequest.t) (st : option domain.User * bool)
  : M (option domain.User * bool) :=
  match UpdateUserRequest.Role req, fst st with
  | None, _ => mret st
  | Some _, None => panic "invalid memory address or nil pointer dereference"
  | Some role, Some user =>
      if negb (String.eqb role (domain.Role user)) then
        mret (Some {| domain.ID := domain.ID user;
                      domain.Name := domain.Name user;
                      domain.Email := domain.Email user;
                      domain.PasswordHash := domain.PasswordHash user;
                      domain.IsActive := domain.IsActive user;
                      domain.Role := role;
                      domain.CreatedAt := domain.CreatedAt user;
                      domain.UpdatedAt := domain.UpdatedAt user |}, true)
      else mret st
  end.

(** Lines 140-145 of [Update]: what is done with the answer of
    [userRepo.Update]. *)
Definition onUpdated (id : UUID) (user : domain.User) (err : option error)
  : M (option UserResponse.t * option error) :=
  match err with
  | Some err =>
      zap.Error "Failed to update user profile in repository"
                [zap_String "userID" (uuid.String id); zap_Error err] ≫= λ _,
      mret (None, Some (errNew "failed saving updated user data"))
  | None =>
      zap.Info "User profile updated" [zap_String "userID" (uuid.String id)] ≫= λ _,
      mret (mapUserToUserResponse (Some user), None)
  end.

(** Lines 137-150 of [Update]. *)
Definition save (s : userService) (id : UUID) (st : option domain.User * bool)
  : M (option UserResponse.t * option error) :=
  let '(user, updated) := st in
  if updated then
    match user with
    | None => panic "invalid memory address or nil pointer dereference"
    | Some user =>
        now ← time_Now;
        let user := {| domain.ID := domain.ID user;
                       domain.Name := domain.Name user;
                       domain.Email := domain.Email user;
                       domain.PasswordHash := domain.PasswordHash user;
                       domain.IsActive := domain.IsActive user;
                       domain.Role := domain.Role user;
                       domain.CreatedAt := domain.CreatedAt user;
                       domain.UpdatedAt := now |} in
        domain.Update (userRepo s) user ≫= onUpdated id user
    end
  else
    zap.Debug "No changes detected for user update"
              [zap_String "userID" (uuid.String id)] ≫= λ _,
    mret (mapUserToUserResponse user, None).

(** [Update] (user_service.go:109-151). *)
Definition Update (s : userService) (id : UUID) (req : UpdateUserRequest.t)
  : M (option UserResponse.t * option error) :=
  zap.Debug "Updating user profile" [zap_String "userID" (uuid.String id)] ≫= λ _,
  '(user, err) ← domain.FindByID (userRepo s) id;
  match err with
  | Some err =>
      zap.Warn "User not found for update"
               [zap_String "userID" (uuid.String id); zap_Error err] ≫= λ _,
      if errors.Is err domain_ErrNotFound then mret (None, Some (errVar domain_ErrNotFound))
      else mret (None, Some (errNew "failed retrieving user for update"))
  | None =>
      st ← updateName req (user, false);
      st ← updateIsActive req st;
      st ← updateRole req st;
      save s id st
  end.

(** [Delete] (user_service.go:154-168). *)
Definition Delete (s : userService) (id : UUID) : M (option error) :=
  zap.Debug "Deleting user" [zap_String "userID" (uuid.String id)] ≫= λ _,
  err ← domain.Delete (userRepo s) id;
  match err with
  | Some err =>
      zap.Error "Failed to delete user in repository"
                [zap_String "userID" (uuid.String id); zap_Error err] ≫= λ _,
      if errors.Is err domain_ErrNotFound then mret (Some (errVar domain_ErrNotFound))
      else mret (Some (errNew "failed deleting user"))
  | None =>
      zap.Info "User deleted successfully" [zap_String "userID" (uuid.String id)] ≫= λ _,
      mret None
  end.

(** [NewUserService] (user_service.go:38-43): the service behind the
    [UserService] interface. *)
Definition NewUserService `{Tables} (repo : domain.UserRepository)
  : service_iface.UserService :=
  let s := {| userRepo := repo |} in
  {| service_iface.Create := Create s;
     service_iface.GetByID := GetByID s;
     service_iface.Update := Update s;
     service_iface.Delete := Delete s |}.

End service.

(** ** internal/api/response/response.go

    The field [Details] is an [interface{}]; [DetailsValue] lists the
    kinds of value that the repository puts there and the two that
    [NewErrorResponse] tests for. *)

Module validator.

(** [validator.FieldError], as far as response.go reads it. *)
Record FieldError : Type := { Field : string; Tag : string; Param : string }.

Definition ValidationErrors : Type := list FieldError.

End validator.

(** [err.Error()]: the text of an error. *)
Class Texts : Type := { Error : error -> string }.

Module SuccessResponse.
Record t : Type := { Status : string; Data : option UserResponse.t }.
End SuccessResponse.

Inductive DetailsValue : Type :=
  | detailsNil                               (* the nil interface *)
  | detailsMap (m : gmap string string)      (* map[string]string *)
  | detailsStrings (l : list string)         (* []string *)
  | detailsString (s : string)
  | detailsInt (n : Z).

Module ErrorResponse.
Record t : Type := { Status : string; Message : string; Details : DetailsValue }.
End ErrorResponse.

Module response.

(** [NewSuccessResponse] (response.go:22-27), on the data that
    [Register] wraps. *)
Definition NewSuccessResponse (data : option UserResponse.t) : SuccessResponse.t :=
  {| SuccessResponse.Status := "success"; SuccessResponse.Data := data |}.

(** [NewErrorResponse] (response.go:39-57). *)
Definition NewErrorResponse (message : string) (details : DetailsValue) : ErrorResponse.t :=
  let status := "error" in
  let status :=
    match details with
    | detailsNil => status
    | _ =>
        let status := match details with detailsMap _ => "fail" | _ => status end in
        match details with detailsStrings _ => "fail" | _ => status end
    end in
  {| ErrorResponse.Status := status; ErrorResponse.Message := message;
     ErrorResponse.Details := details |}.

(** The body of the loop of [NewValidationError] (response.go:84-101):
    the key and the message that one field error contributes. *)
Definition describe `{Unicode} (fieldErr : validator.FieldError) : string * string :=
  let fieldName := strings.ToLower (validator.Field fieldErr) in
  let tag := validator.Tag fieldErr in
  (fieldName,
   if String.eqb tag "required" then fieldName +:+ " is required"
   else if String.eqb tag "email" then fieldName +:+ " must be a valid email address"
   else if String.eqb tag "min" then
     fieldName +:+ " must be at least " +:+ validator.Param fieldErr +:+ " characters long"
   else if String.eqb tag "max" then
     fieldName +:+ " must be at most " +:+ validator.Param fieldErr +:+ " characters long"
   else if String.eqb tag "eqfield" then
     fieldName +:+ " must match the " +:+ strings.ToLower (validator.Param fieldErr)
     +:+ " field"
   else if String.eqb tag "nefield" then
     fieldName +:+ " must not match the " +:+ strings.ToLower (validator.Param fieldErr)
     +:+ " field"
   else fieldName +:+ " is invalid (" +:+ tag +:+ ")").

(** [NewValidationError] (response.go:80-109), on an error that is not
    nil.  The type assertion [err.(validator.ValidationErrors)] tells a
    slice of field errors ([inl]) from an error of any other dynamic type
    ([inr]). *)
Definition NewValidationError `{Unicode} `{Texts}
    (err : validator.ValidationErrors + error) : ErrorResponse.t :=
  match err with
  | inl validationErrors =>
      let details :=
        fold_left (fun details fieldErr =>
                     <[fst (describe fieldErr) := snd (describe fieldErr)]> details)
                  validationErrors (∅ : gmap string string) in
      NewErrorResponse "Validation failed" (detailsMap details)
  | inr err => NewErrorResponse "Validation failed" (detailsString (Error err))
  end.

End response.

(** ** internal/api/handler/auth_handler.go: Register

    The handler talks to the framework through the methods of its
    [echo.Context], an interface: [Bind] fills the request or fails,
    [Validate] runs the registered validator, [JSON] writes the reply.
    The logger named AuthHandler writes to the log of the world. *)

Module handler.

Definition StatusCreated : Z := 201%Z.
Definition StatusBadRequest : Z := 400%Z.
Definition StatusConflict : Z := 409%Z.
Definition StatusUnprocessableEntity : Z := 422%Z.
Definition StatusInternalServerError : Z := 500%Z.

Record Context : Type := {
  Bind : M (CreateUserRequest.t * option error);
  Validate : CreateUserRequest.t -> M (option error);
  JSON : Z -> SuccessResponse.t -> M (option error)
}.

Record AuthHandler : Type := {
  authService : auth_iface.Service;
  userService : service_iface.UserService
}.

Definition NewAuthHandler (authSvc : auth_iface.Service) (userSvc : service_iface.UserService)
  : AuthHandler :=
  {| authService := authSvc; userService := userSvc |}.

(** [Register] (auth_handler.go:51-90).  [domain.ErrDuplicateEntry.Error()]
    is the text given to [fmt.Errorf] at error.go:17.  [registerResp.ID] is
    read through the pointer that the service returned. *)
Definition Register `{Texts} (h : AuthHandler) (c : Context) : M (option error) :=
  '(req, err) ← Bind c;
  match err with
  | Some err =>
      zap.Warn "Failed to bind registration request" [zap_Error err] ≫= λ _,
      mret (Some (echo.NewHTTPError StatusBadRequest
                    ("Invalid request format: " +:+ Error err)))
  | None =>
      err ← Validate c req;
      match err with
      | Some err =>
          zap.Warn "Registration request validation failed" [zap_Error err] ≫= λ _,
          mret (Some (echo.NewHTTPError StatusUnprocessableEntity "Input validation failed"))
      | None =>
          '(registerResp, err) ← service_iface.Create (userService h) req;
          match err with
          | Some err =>
              if errors.Is err domain_ErrDuplicateEntry then
                zap.Warn "Registration attempt failed: user already exists"
                         [zap_String "email" (CreateUserRequest.Email req)] ≫= λ _,
                mret (Some (echo.NewHTTPError StatusConflict "domain: duplicate entry"))
              else
                zap.Error "Internal error during user registration"
                          [zap_Error err;
                           zap_String "email" (CreateUserRequest.Email req)] ≫= λ _,
                mret (Some (echo.NewHTTPError StatusInternalServerError
                              "Failed to register user"))
          | None =>
              match registerResp with
              | None => panic "invalid memory address or nil pointer dereference"
              | Some resp =>
                  zap.Info "User registered successfully"
                           [zap_String "userID" (UserResponse.ID resp)] ≫= λ _,
                  JSON c StatusCreated (response.NewSuccessResponse registerResp)
              end
          end
      end
  end.

End handler.

(** ** internal/domain/error.go: ValidationError

    The receiver is a pointer and [Add] writes through it; here [Add]
    returns the record as it is after the call.  A nil map is [None]. *)

Module validation.

Record ValidationError : Type := { Failures : option (gmap string (list string)) }.

Definition NewValidationError : ValidationError := {| Failures := Some ∅ |}.

(** Reading a nil map gives the zero value, as does reading a missing
    key; [append] to a nil slice gives a slice of one element. *)
Definition Add (e : ValidationError) (field message : string) : ValidationError :=
  let failures := default ∅ (Failures e) in
  {| Failures := Some (<[field := default [] (failures !! field) ++ [message]]> failures) |}.

Definition HasErrors (e : ValidationError) : bool :=
  (0 <? size (default ∅ (Failures e)))%nat.

End validation.

(** ** Further vocabulary *)

(** The world after one more reading of the clock. *)
Definition tick (w : World) : World := snd (time_Now w).

(** How many dots a token string holds. *)
Definition dots (s : string) : nat :=
  length (List.filter (fun c => Ascii.eqb c "."%char) (bytesOf s)).

Definition noDot (s : string) : Prop := ¬ In "."%char (bytesOf s).

(** [tokenString] is three dot-free segments that decode to a header
    declaring the HMAC method over [h], to [claims] and to the signature
    [sig]; [signed] is the text that the signature covers. *)
Definition decodesTo `{Codec} (tokenString : string) (h : jwt.Hash)
    (claims : CustomClaims) (sig : list byte) (signed : string) : Prop :=
  ∃ (s0 s1 s2 : string) (hb cb : list byte) (header : gmap string any),
    tokenString = s0 +:+ "." +:+ s1 +:+ "." +:+ s2
    ∧ signed = s0 +:+ "." +:+ s1
    ∧ noDot s0 ∧ noDot s1 ∧ noDot s2
    ∧ DecodeSegment s0 = inr hb
    ∧ json_UnmarshalHeader hb = inr header
    ∧ header !! "alg" = Some (anyString (jwt.Alg (jwt.SigningMethodHMAC h)))
    ∧ DecodeSegment s1 = inr cb
    ∧ json_UnmarshalClaims cb = inr claims
    ∧ DecodeSegment s2 = inr sig.

Definition expiredAt (claims : CustomClaims) (now : Time) : Prop :=
  ∃ exp, jwt.ExpiresAt (Registered claims) = Some exp ∧ (exp ≤ now)%Z.

Definition notYetValidAt (claims : CustomClaims) (now : Time) : Prop :=
  ∃ nbf, jwt.NotBefore (Registered claims) = Some nbf ∧ (now < nbf)%Z.

(** The codec gives back what it was given, on the header and the claims
    of the token that [NewWithClaims] builds for [claims] and on the
    signature under [secret], and its segments hold no dot. *)
Definition faithfulOn `{Codec} (claims : CustomClaims) (secret : list byte) : Prop :=
  ∃ hb cb sig : list byte,
    json_MarshalHeader
      (jwt_token.Header (jwt_token.NewWithClaims jwt.SigningMethodHS256 claims)) = inr hb
    ∧ json_MarshalClaims claims = inr cb
    ∧ json_UnmarshalHeader hb
      = inr (jwt_token.Header (jwt_token.NewWithClaims jwt.SigningMethodHS256 claims))
    ∧ json_UnmarshalClaims cb = inr claims
    ∧ sig = hmac jwt.SHA256 secret (bytesOf (EncodeSegment hb +:+ "." +:+ EncodeSegment cb))
    ∧ noDot (EncodeSegment hb) ∧ noDot (EncodeSegment cb) ∧ noDot (EncodeSegment sig)
    ∧ DecodeSegment (EncodeSegment hb) = inr hb
    ∧ DecodeSegment (EncodeSegment cb) = inr cb
    ∧ DecodeSegment (EncodeSegment sig) = inr sig.

(** The version and the variant that a UUID carries. *)
Definition version (u : UUID) : Z := Z.shiftr (byteVal (u !!! 6%fin)) 4.
Definition variantBits (u : UUID) : Z := Z.shiftr (byteVal (u !!! 8%fin)) 6.

(** Some field that the update request sets differs from what [user]
    holds. *)
Definition differs (req : UpdateUserRequest.t) (user : domain.User) : bool :=
  match UpdateUserRequest.Name req with
  | Some name => negb (String.eqb name (domain.Name user))
  | None => false
  end
  || match UpdateUserRequest.IsActive req with
     | Some isActive => negb (Bool.eqb isActive (domain.IsActive user))
     | None => false
     end
  || match UpdateUserRequest.Role req with
     | Some role => negb (String.eqb role (domain.Role user))
     | None => false
     end.

(** The update request sets no field at all. *)
Definition setsNothing (req : UpdateUserRequest.t) : Prop :=
  UpdateUserRequest.Name req = None ∧ UpdateUserRequest.IsActive req = None
  ∧ UpdateUserRequest.Role req = None.

(** The error wraps no package-level variable: [errors.Is] finds nothing
    in it. *)
Definition wrapsNothing (e : error) : Prop := ∀ v : ErrVar, errors.Is e v = false.

(** The messages recorded for [field] by a run of [Add] calls, in order. *)
Definition messagesFor (field : string) (adds : list (string * string)) : list string :=
  map snd (List.filter (fun p => String.eqb (fst p) field) adds).

Definition addAll (e : validation.ValidationError) (adds : list (string * string))
  : validation.ValidationError :=
  fold_left (fun e p => validation.Add e (fst p) (snd p)) adds e.

(** No field is recorded with an empty list of messages. *)
Definition noEmptyEntry (e : validation.ValidationError) : Prop :=
  ∀ field : string, default ∅ (validation.Failures e) !! field ≠ Some [].

(** What the field errors that lower-case to [key] contribute, in order. *)
Definition describedAs `{Unicode} (key : string) (errs : validator.ValidationErrors)
  : list string :=
  map snd (List.filter (fun p => String.eqb (fst p) key) (map response.describe errs)).

(** ** Further values for examples *)

Module sample.

(** A codec that does give back what it was given: segments are written
    in hexadecimal, the header as the name of its algorithm, the claims as
    the sixteen bytes of the user followed by the three dates, and the
    keyed hash is a running sum. *)
Definition hexVal (c : byte) : option N :=
  let n := N_of_ascii c in
  if ((48 <=? n) && (n <=? 57))%N then Some (n - 48)%N
  else if ((97 <=? n) && (n <=? 102))%N then Some (n - 87)%N
  else None.

Fixpoint unhex (l : list byte) : error + list byte :=
  match l with
  | [] => inr []
  | a :: b :: rest =>
      match hexVal a, hexVal b, unhex rest with
      | Some x, Some y, inr bs => inr (ascii_of_N (16 * x + y) :: bs)
      | _, _, _ => inl (errNew "illegal base64 data")
      end
  | _ => inl (errNew "illegal base64 data")
  end.

Definition be64 (t : Z) : list byte :=
  map (fun k => byteOf (Z.shiftr t (8 * k))) [7; 6; 5; 4; 3; 2; 1; 0]%Z.

Definition unbe64 (l : list byte) : Z :=
  fold_left (fun acc b => acc * 256 + byteVal b)%Z l 0%Z.

Definition putTime (o : option Time) : list byte :=
  match o with
  | None => ["N"%char]
  | Some t => "S"%char :: be64 t
  end.

Definition getTime (l : list byte) : option (option Time * list byte) :=
  match l with
  | c :: rest =>
      if Ascii.eqb c "N"%char then Some (None, rest)
      else if Ascii.eqb c "S"%char && (8 <=? length rest)%nat then
        Some (Some (unbe64 (take 8 rest)), drop 8 rest)
      else None
  | [] => None
  end.

Definition putClaims (c : CustomClaims) : list byte :=
  vec_to_list (UserID c)
  ++ putTime (jwt.ExpiresAt (Registered c))
  ++ putTime (jwt.NotBefore (Registered c))
  ++ putTime (jwt.IssuedAt (Registered c)).

Definition getClaims (l : list byte) : error + CustomClaims :=
  if (length l <? 16)%nat then inl (errNew "unexpected end of JSON input")
  else
    let u : UUID := fun_to_vec (fun i : fin 16 => l !!! fin_to_nat i) in
    match getTime (drop 16 l) with
    | Some (exp, l1) =>
        match getTime l1 with
        | Some (nbf, l2) =>
            match getTime l2 with
            | Some (iat, []) =>
                inr {| UserID := u;
                       Registered := {| jwt.Issuer := ""; jwt.Subject := uuid.String u;
                                        jwt.Audience := []; jwt.ExpiresAt := exp;
                                        jwt.NotBefore := nbf; jwt.IssuedAt := iat;
                                        jwt.ID := "" |} |}
            | _ => inl (errNew "invalid character")
            end
        | None => inl (errNew "invalid character")
        end
    | None => inl (errNew "invalid character")
    end.

Definition sum (key message : list byte) : list byte :=
  be64 (fold_left (fun acc b => (acc * 31 + byteVal b) mod 18446744073709551616)%Z
          (key ++ message) 7%Z).

#[local] Instance codec : Codec :=
  {| EncodeSegment := fun b => stringOf (uuid.hex b);
     DecodeSegment := fun seg => unhex (bytesOf seg);
     json_MarshalHeader := fun h =>
       match h !! "alg" with
       | Some (anyString a) => inr (bytesOf a)
       | _ => inl (errNew "json: unsupported value")
       end;
     json_MarshalClaims := fun c => inr (putClaims c);
     json_UnmarshalHeader := fun b =>
       inr (<["typ" := anyString "JWT"]> (<["alg" := anyString (stringOf b)]> ∅));
     json_UnmarshalClaims := getClaims;
     hmac := fun _ key message => sum key message |}.

(** Half past a second. *)
Definition now : Time := 1700000000500000000%Z.

(** The claims that [newClaims] builds for [fixture.user7] at [now] with
    one hour to live. *)
Definition claims : CustomClaims :=
  {| UserID := fixture.user7;
     Registered := {| jwt.Issuer := "";
                      jwt.Subject := "07070707-0707-0707-0707-070707070707";
                      jwt.Audience := [];
                      jwt.ExpiresAt := Some 1700003600000000000%Z;
                      jwt.NotBefore := Some 1700000000000000000%Z;
                      jwt.IssuedAt := Some 1700000000000000000%Z;
                      jwt.ID := "" |} |}.

(** The same with one nanosecond to live. *)
Definition shortClaims : CustomClaims :=
  {| UserID := fixture.user7;
     Registered := {| jwt.Issuer := "";
                      jwt.Subject := "07070707-0707-0707-0707-070707070707";
                      jwt.Audience := [];
                      jwt.ExpiresAt := Some 1700000000000000000%Z;
                      jwt.NotBefore := Some 1700000000000000000%Z;
                      jwt.IssuedAt := Some 1700000000000000000%Z;
                      jwt.ID := "" |} |}.

(** The token that [GenerateAccessToken] signs for these claims under the
    secret [secret], and its three segments. *)
Definition token : string :=
  "4853323536.07070707070707070707070707070707531797a04466e2a0005317979cfe362a00005317979cfe362a0000.098b3665232cc028".

Definition segment (k : nat) : string := strings.Split token "." !!! k.

(** Two records of one account, one active and one deactivated. *)
Definition account (isActive : bool) : domain.User :=
  {| domain.ID := fixture.user7; domain.Name := "Ada"; domain.Email := "ada@example.com";
     domain.PasswordHash := "password123"; domain.IsActive := isActive;
     domain.Role := "user"; domain.CreatedAt := 0%Z; domain.UpdatedAt := 0%Z |}.

(** The account as stored with the password digest [digest]. *)
Definition stored (digest : string) : domain.User :=
  {| domain.ID := fixture.user7; domain.Name := "Ada"; domain.Email := "ada@example.com";
     domain.PasswordHash := digest; domain.IsActive := true;
     domain.Role := "user"; domain.CreatedAt := 0%Z; domain.UpdatedAt := 0%Z |}.

(** A user store that holds [user] under every key and accepts every
    write. *)
Definition repoWith (user : domain.User) : domain.UserRepository :=
  {| domain.FindByID := fun _ => mret (Some user, None);
     domain.FindByEmail := fun _ => mret (Some user, None);
     domain.Create := fun _ => mret None;
     domain.Update := fun _ => mret None;
     domain.Delete := fun _ => mret None |}.

Definition signup : CreateUserRequest.t :=
  {| CreateUserRequest.Name := "Ada"; CreateUserRequest.Email := "ada@example.com";
     CreateUserRequest.Password := "password123" |}.

Definition longSignup : CreateUserRequest.t :=
  {| CreateUserRequest.Name := "Ada"; CreateUserRequest.Email := "ada@example.com";
     CreateUserRequest.Password := fixture.password73 |}.

(** A user store that answers every lookup with neither a user nor an
    error. *)
Definition silentRepo : domain.UserRepository :=
  {| domain.FindByID := fun _ => mret (None, None);
     domain.FindByEmail := fun _ => mret (None, None);
     domain.Create := fun _ => mret None;
     domain.Update := fun _ => mret None;
     domain.Delete := fun _ => mret None |}.

Definition rename (name : string) : UpdateUserRequest.t :=
  {| UpdateUserRequest.Name := Some name; UpdateUserRequest.IsActive := None;
     UpdateUserRequest.Role := None |}.

(** The service struct over a store. *)
Definition users (repo : domain.UserRepository) : service.userService :=
  {| service.userRepo := repo |}.

#[local] Instance texts : Texts := {| Error := fun _ => "error" |}.

(** A context whose body binds to [req], whose validator accepts it and
    whose reply is written without error. *)
Definition contextWith (req : CreateUserRequest.t) : handler.Context :=
  {| handler.Bind := mret (req, None);
     handler.Validate := fun _ => mret None;
     handler.JSON := fun _ _ => mret None |}.

(** Two failures of one field, reported under different capitalizations,
    and one of another field. *)
Definition failures : validator.ValidationErrors :=
  [ {| validator.Field := "Email"; validator.Tag := "required"; validator.Param := "" |};
    {| validator.Field := "Password"; validator.Tag := "min"; validator.Param := "8" |};
    {| validator.Field := "email"; validator.Tag := "email"; validator.Param := "" |} ].

End sample.

(* ===================================================================== *)
(** * Part II: properties                                                *)
(* ===================================================================== *)

(** ** strings *)

Module strings_facts.
Import strings.

Lemma Split_not_nil s sep : Split s sep ≠ [].
Proof. destruct s as [|c s]; simpl; [done|]. destruct (Ascii.eqb c sep); [done|]. by destruct (Split s sep). Qed.

Lemma Join_Split s sep : Join (Split s sep) sep = s.
Proof.
  induction s as [|c s IH]; simpl; [done|].
  destruct (Ascii.eqb c sep) eqn:E.
  - apply Ascii.eqb_eq in E as ->.
    destruct (Split s sep) as [|p ps] eqn:Es; [by apply Split_not_nil in Es|].
    simpl in *. by rewrite IH.
  - destruct (Split s sep) as [|p ps] eqn:Es; [by apply Split_not_nil in Es|].
    destruct ps; simpl in *; by rewrite <- IH.
Qed.

Lemma Split_two s sep a b : Split s sep = [a; b] → s = a +:+ String sep b.
Proof. intros E. by rewrite <- (Join_Split s sep), E. Qed.

Lemma Split_no_sep s sep : ¬ In sep (bytesOf s) → Split s sep = [s].
Proof.
  induction s as [|c s IH]; simpl; [done|]. intros Hn.
  destruct (Ascii.eqb c sep) eqn:E.
  - apply Ascii.eqb_eq in E. tauto.
  - rewrite IH; [done|]. tauto.
Qed.

(** No part of a split string holds the separator. *)
Lemma Split_parts_no_sep s sep p : In p (Split s sep) → ¬ In sep (bytesOf p).
Proof.
  revert p. induction s as [|c s IH]; simpl; intros p Hp.
  - destruct Hp as [<-|[]]. simpl. tauto.
  - destruct (Ascii.eqb c sep) eqn:E.
    + destruct Hp as [<-|Hp]; [simpl; tauto|by apply IH].
    + destruct (Split s sep) as [|q qs] eqn:Es.
      * destruct Hp as [<-|[]]. simpl. intros [->|[]]. by rewrite Ascii.eqb_refl in E.
      * destruct Hp as [<-|Hp].
        -- simpl. intros [->|Hq]; [by rewrite Ascii.eqb_refl in E|].
           by apply (IH q); [left|].
        -- apply IH. by right.
Qed.

Lemma Split_app a b sep :
  ¬ In sep (bytesOf a) → Split (a +:+ String sep b) sep = a :: Split b sep.
Proof.
  induction a as [|c a IH]; simpl; intros Hn.
  - by rewrite Ascii.eqb_refl.
  - destruct (Ascii.eqb c sep) eqn:E.
    + apply Ascii.eqb_eq in E. tauto.
    + rewrite IH; [done|]. tauto.
Qed.

Lemma capitalization_bearer `{Unicode} s :
  capitalizationOf "bearer" s → ToLower s = "bearer" ∧ ¬ In " "%char (bytesOf s).
Proof.
  destruct s as [|c1 [|c2 [|c3 [|c4 [|c5 [|c6 [|c7 s]]]]]]]; simpl; try tauto.
  intros (H1 & H2 & H3 & H4 & H5 & H6 & _).
  assert (Hc : ∀ (c : ascii) (n : N), N_of_ascii c = n → c = ascii_of_N n)
    by (intros c n <-; by rewrite ascii_N_embedding).
  destruct H1 as [->|E1], H2 as [->|E2], H3 as [->|E3],
           H4 as [->|E4], H5 as [->|E5], H6 as [->|E6];
    repeat match goal with E : N_of_ascii _ = _ |- _ => apply Hc in E; subst end;
    (split; [vm_compute; reflexivity | vm_compute; intuition discriminate]).
Qed.

End strings_facts.

(** ** The JWTAuth gate *)

Module middleware_facts.
Import middleware strings_facts.

Lemma servedCount_emit_log lvl msg fields w :
  servedCount (snd (emit (Logged lvl msg fields) w)) = servedCount w.
Proof.
  unfold servedCount, emit; simpl. rewrite List.filter_app, length_app; simpl. lia.
Qed.

Lemma loggedOnce_servedCount w w' : loggedOnce w w' → servedCount w' = servedCount w.
Proof. intros (lvl & msg & fields & ->). apply servedCount_emit_log. Qed.

(** A header that passes the three tests of the gate has the shape
    scheme, space, token, with no further space. *)
Lemma passes_shape `{Unicode} (h : string) :
  h ≠ "" →
  negb (length (strings.Split h " ") =? 2)%nat
    || negb (String.eqb (strings.ToLower (strings.Split h " " !!! 0%nat)) "bearer") = false →
  strings.Split h " " !!! 1%nat ≠ "" →
  bearerShapeAnyCase h.
Proof.
  intros _ Hparts Htok.
  apply orb_false_elim in Hparts as [Hlen Hlow].
  apply negb_false_iff in Hlen, Hlow.
  apply Nat.eqb_eq in Hlen. apply String.eqb_eq in Hlow.
  destruct (strings.Split h " ") as [|p0 [|p1 [|p2 ps]]] eqn:E; try discriminate.
  assert (H0 : noSpace p0)
    by (apply (Split_parts_no_sep h " "); rewrite E; by left).
  assert (H1 : noSpace p1)
    by (apply (Split_parts_no_sep h " "); rewrite E; right; by left).
  exists p0, p1. split; [done|]. split; [done|]. split; [done|]. split; [done|].
  by apply Split_two in E.
Qed.

(** A header of the shape scheme, space, token, with no further space,
    passes the three tests and leaves the token. *)
Lemma shaped_passes `{Unicode} (scheme t : string) :
  strings.ToLower scheme = "bearer" → noSpace scheme → noSpace t →
  strings.Split (scheme +:+ " " +:+ t) " " = [scheme; t].
Proof.
  intros _ Hs Ht. change (" " +:+ t) with (String " " t).
  rewrite Split_app by done. by rewrite Split_no_sep.
Qed.

(** A header whose cut at the spaces does not give two parts is not of
    that shape. *)
Lemma parts_shape `{Unicode} (h : string) :
  length (strings.Split h " ") ≠ 2%nat → ¬ bearerShapeAnyCase h.
Proof.
  intros Hlen (scheme & tok & Hlow & Hs & _ & Ht & ->). apply Hlen.
  by rewrite (shaped_passes scheme tok Hlow Hs Ht).
Qed.

End middleware_facts.

(** ** The claims about the gate *)

(** C2, as amended.  A request without an Authorization header, or whose
    header is not a scheme word that lower-cases to [bearer], exactly one
    space and a non-empty token without a space, is answered 401 "Missing or
    malformed authorization header"; the gate writes one log entry and enters
    the downstream handler not at all. *)
Theorem JWTAuth_rejects_unshaped_header `{Unicode}
    (authSvc : auth_iface.Service) (next : middleware.HandlerFunc)
    (c : echo.Context) (w : World) :
  http.Header (echo.Request c) !! "Authorization" = None
    ∨ ¬ bearerShapeAnyCase (authorization c) →
  fst (middleware.JWTAuth authSvc next c w)
    = Ret (Some (HTTPError 401 "Missing or malformed authorization header"))
  ∧ loggedOnce w (snd (middleware.JWTAuth authSvc next c w))
  ∧ servedCount (snd (middleware.JWTAuth authSvc next c w)) = servedCount w.
Proof.
  intros Hshape.
  assert (Hn : ¬ bearerShapeAnyCase (authorization c)).
  { destruct Hshape as [Hnone|Hn]; [|done].
    intros (scheme & tok & _ & _ & _ & _ & E). revert E.
    unfold authorization, http.Header_Get. rewrite Hnone.
    destruct scheme; discriminate. }
  assert (Hgoal : ∀ r w', fst r = Ret (Some middleware.unauthorizedHeader) →
            snd r = w' → loggedOnce w w' →
            fst r = Ret (Some (HTTPError 401 "Missing or malformed authorization header"))
            ∧ loggedOnce w (snd r) ∧ servedCount (snd r) = servedCount w).
  { intros r w' Hr <- Hl. split; [done|]. split; [done|].
    by apply middleware_facts.loggedOnce_servedCount. }
  unfold middleware.JWTAuth. fold (authorization c).
  case_bool_decide as Hempty.
  { eapply Hgoal; [done..|]. by eexists _, _, _. }
  destruct (negb _ || negb _) eqn:Hparts.
  { eapply Hgoal; [done..|]. by eexists _, _, _. }
  case_bool_decide as Htok.
  { eapply Hgoal; [done..|]. by eexists _, _, _. }
  exfalso. apply Hn. by apply middleware_facts.passes_shape.
Qed.

Lemma JWTAuth_rejects_unshaped_header_witness :
  (http.Header (echo.Request fixture.requestWithout) !! "Authorization" = None
     ∨ ¬ @bearerShapeAnyCase fixture.unicode (authorization fixture.requestWithout))
  ∧ fst (@middleware.JWTAuth fixture.unicode fixture.acceptAll fixture.handlerOK
            fixture.requestWithout (fixture.world 0%Z))
    = Ret (Some (HTTPError 401 "Missing or malformed authorization header"))
  ∧ ¬ @bearerShapeAnyCase fixture.unicode (authorization (fixture.requestWith "Token abc"))
  ∧ fst (@middleware.JWTAuth fixture.unicode fixture.acceptAll fixture.handlerOK
            (fixture.requestWith "Token abc") (fixture.world 0%Z))
    = Ret (Some (HTTPError 401 "Missing or malformed authorization header"))
  ∧ ¬ @bearerShapeAnyCase fixture.unicode
        (authorization (fixture.requestWith "Bearer abc def"))
  ∧ fst (@middleware.JWTAuth fixture.unicode fixture.acceptAll fixture.handlerOK
            (fixture.requestWith "Bearer abc def") (fixture.world 0%Z))
    = Ret (Some (HTTPError 401 "Missing or malformed authorization header"))
  ∧ servedCount (snd (@middleware.JWTAuth fixture.unicode fixture.acceptAll
                        fixture.handlerOK (fixture.requestWith "Bearer abc def")
                        (fixture.world 0%Z))) = 0%nat
  ∧ ¬ @bearerShapeAnyCase fixture.unicode
        (authorization (fixture.requestWith "Bearer  abc"))
  ∧ fst (@middleware.JWTAuth fixture.unicode fixture.acceptAll fixture.handlerOK
            (fixture.requestWith "Bearer  abc") (fixture.world 0%Z))
    = Ret (Some (HTTPError 401 "Missing or malformed authorization header"))
  ∧ servedCount (snd (@middleware.JWTAuth fixture.unicode fixture.acceptAll
                        fixture.handlerOK (fixture.requestWith "Bearer  abc")
                        (fixture.world 0%Z))) = 0%nat.
Proof.
  assert (Hn : ¬ @bearerShapeAnyCase fixture.unicode
                   (authorization (fixture.requestWith "Token abc"))).
  { intros (scheme & tok & Hlow & _ & _ & _ & E).
    change (authorization (fixture.requestWith "Token abc")) with "Token abc" in E.
    do 10 (destruct scheme as [|? scheme]; simpl in E;
           first [ discriminate E
                 | vm_compute in Hlow; discriminate Hlow
                 | injection E as <- E ]). }
  assert (H3 : ¬ @bearerShapeAnyCase fixture.unicode
                   (authorization (fixture.requestWith "Bearer abc def"))).
  { apply (middleware_facts.parts_shape (H := fixture.unicode)). vm_compute. lia. }
  assert (H2 : ¬ @bearerShapeAnyCase fixture.unicode
                   (authorization (fixture.requestWith "Bearer  abc"))).
  { apply (middleware_facts.parts_shape (H := fixture.unicode)). vm_compute. lia. }
  split; [by left|].
  split; [exact (proj1 (JWTAuth_rejects_unshaped_header (H := fixture.unicode)
                   fixture.acceptAll fixture.handlerOK fixture.requestWithout
                   (fixture.world 0%Z) (or_introl eq_refl)))|].
  split; [exact Hn|].
  split; [exact (proj1 (JWTAuth_rejects_unshaped_header (H := fixture.unicode)
                  fixture.acceptAll fixture.handlerOK (fixture.requestWith "Token abc")
                  (fixture.world 0%Z) (or_intror Hn)))|].
  split; [exact H3|].
  destruct (JWTAuth_rejects_unshaped_header (H := fixture.unicode) fixture.acceptAll
              fixture.handlerOK (fixture.requestWith "Bearer abc def") (fixture.world 0%Z)
              (or_intror H3)) as (R3 & _ & S3).
  split; [exact R3|]. split; [exact S3|].
  split; [exact H2|].
  destruct (JWTAuth_rejects_unshaped_header (H := fixture.unicode) fixture.acceptAll
              fixture.handlerOK (fixture.requestWith "Bearer  abc") (fixture.world 0%Z)
              (or_intror H2)) as (R2 & _ & S2).
  split; [exact R2|exact S2].
Defined.

(** C2, as stated, fails: the header [bearer abc] is not the word Bearer
    followed by a space and a token, yet a gate whose service accepts the
    token answers without error and enters the downstream handler once. *)
Lemma JWTAuth_admits_lowercase_scheme :
  ¬ bearerShape (authorization (fixture.requestWith "bearer abc"))
  ∧ fst (@middleware.JWTAuth fixture.unicode fixture.acceptAll fixture.handlerOK
           (fixture.requestWith "bearer abc") (fixture.world 0%Z)) = Ret None
  ∧ servedCount (snd (@middleware.JWTAuth fixture.unicode fixture.acceptAll
                        fixture.handlerOK (fixture.requestWith "bearer abc")
                        (fixture.world 0%Z))) = 1%nat.
Proof.
  split; [|split; vm_compute; reflexivity].
  intros (tok & _ & _ & E). vm_compute in E. discriminate E.
Qed.

(** C10.  Whatever the capitalization of the scheme word, a header made of
    that word, one space and a non-empty token without a space passes the
    shape tests: the gate hands exactly the token to the service and goes
    on with its answer.  The right-hand side does not mention the scheme
    word, so [bearer t], [BEARER t] and [Bearer t] are treated alike. *)
Theorem JWTAuth_scheme_any_case `{Unicode}
    (authSvc : auth_iface.Service) (next : middleware.HandlerFunc)
    (c : echo.Context) (scheme t : string) (w : World) :
  capitalizationOf "bearer" scheme → t ≠ "" → noSpace t →
  authorization c = scheme +:+ " " +:+ t →
  middleware.JWTAuth authSvc next c w
  = (auth_iface.ValidateToken authSvc t ≫= middleware.onValidated next c) w.
Proof.
  intros Hcap Ht Hsp Hh.
  apply strings_facts.capitalization_bearer in Hcap as [Hlow Hns].
  unfold middleware.JWTAuth. fold (authorization c). rewrite Hh.
  rewrite (middleware_facts.shaped_passes scheme t Hlow Hns Hsp).
  change ([scheme; t] !!! 0%nat) with scheme.
  change ([scheme; t] !!! 1%nat) with t.
  rewrite Hlow. simpl.
  rewrite bool_decide_eq_false_2 by (destruct scheme; discriminate).
  by rewrite bool_decide_eq_false_2.
Qed.

Lemma JWTAuth_scheme_any_case_witness :
  capitalizationOf "bearer" "BEARER" ∧ "abc" ≠ "" ∧ noSpace "abc"
  ∧ @middleware.JWTAuth fixture.unicode fixture.acceptAll fixture.handlerOK
      (fixture.requestWith "BEARER abc") (fixture.world 0%Z)
    = (auth_iface.ValidateToken fixture.acceptAll "abc"
         ≫= middleware.onValidated fixture.handlerOK (fixture.requestWith "BEARER abc"))
        (fixture.world 0%Z).
Proof.
  assert (Hcap : capitalizationOf "bearer" "BEARER")
    by (simpl; repeat split; right; reflexivity).
  assert (Ht : "abc" ≠ "") by discriminate.
  assert (Hsp : noSpace "abc") by (vm_compute; intuition discriminate).
  split; [exact Hcap|]. split; [exact Ht|]. split; [exact Hsp|].
  exact (JWTAuth_scheme_any_case (H := fixture.unicode) fixture.acceptAll fixture.handlerOK
           (fixture.requestWith "BEARER abc") "BEARER" "abc" (fixture.world 0%Z)
           Hcap Ht Hsp eq_refl).
Defined.

(** ** The login service *)

Ltac run := unfold mbind, M_bind, mret, M_ret, panic; simpl.

(** C1.  The method [ValidateToken] of the service never answers with a
    user and no error, whatever the token, the secret, the clock and the
    codec: its named result [userID] keeps the zero UUID, so the test
    [userID == uuid.Nil] sends every validated token to the error
    "invalid token: missing user identifier in claims".  In particular a
    token that [GenerateAccessToken] has just issued for [u] does not come
    back as [u]. *)
Theorem authService_ValidateToken_never_succeeds `{Codec}
    (s : auth.authService) (tokenString : string) (w : World) (u : UUID) (ttl : Duration) :
  fst (auth.authService_ValidateToken s tokenString w) ≠ Ret (u, None)
  ∧ match auth.GenerateAccessToken u (auth.jwtSecret s) ttl w with
    | (Ret (tok, _), w') => fst (auth.authService_ValidateToken s tok w') ≠ Ret (u, None)
    | (Panic _, _) => True
    end.
Proof.
  assert (Hall : ∀ t w', fst (auth.authService_ValidateToken s t w') ≠ Ret (u, None)).
  { intros t w'. unfold auth.authService_ValidateToken. run.
    destruct (auth.ValidateToken t (auth.jwtSecret s) w') as [[[claims err]|v] w'']; simpl;
      [|discriminate].
    destruct err as [e|]; simpl; [discriminate|].
    destruct claims as [claims|]; simpl; discriminate. }
  split; [apply Hall|].
  destruct (auth.GenerateAccessToken u (auth.jwtSecret s) ttl w) as [[[tok err]|v] w'];
    [apply Hall|exact I].
Qed.

(** C9.  When [Login] returns an error, both token strings are empty. *)
Theorem Login_error_returns_no_token `{Codec} `{Tables}
    (s : auth.authService) (req : request.LoginRequest) (w w' : World)
    (accessToken refreshToken : string) (err : error) :
  auth.Login s req w = (Ret (accessToken, refreshToken, Some err), w') →
  accessToken = "" ∧ refreshToken = "".
Proof.
  unfold auth.Login. run.
  destruct (domain.FindByEmail (auth.userRepo s) (request.Email req) w)
    as [[[user e]|v] w1]; simpl; [|discriminate].
  destruct e as [e|]; simpl.
  { destruct (errors.Is e domain_ErrNotFound); intros [= <- <- _ _]; done. }
  destruct user as [user|]; simpl; [|discriminate].
  destruct (auth.CheckPasswordHash _ _); simpl; [|intros [= <- <- _ _]; done].
  destruct (auth.GenerateAccessToken _ _ _ w1) as [[[a e]|v] w2]; simpl; [|discriminate].
  destruct e as [e|]; simpl; [intros [= <- <- _ _]; done|].
  destruct (auth.GenerateRefreshToken _ _ _ w2) as [[[r e]|v] w3]; simpl; [|discriminate].
  destruct e as [e|]; simpl; [intros [= <- <- _ _]; done|].
  discriminate.
Qed.

Lemma Login_error_returns_no_token_witness :
  @auth.Login fixture.codec fixture.tables (fixture.service fixture.brokenRepo)
     fixture.login (fixture.world 0%Z)
  = (Ret ("", "", Some (wrapError "error finding user by email: "
                          (errNew "connection refused") "")), fixture.world 0%Z)
  ∧ "" = "" ∧ "" = "".
Proof.
  assert (E : @auth.Login fixture.codec fixture.tables (fixture.service fixture.brokenRepo)
                fixture.login (fixture.world 0%Z)
              = (Ret ("", "", Some (wrapError "error finding user by email: "
                                      (errNew "connection refused") "")),
                 fixture.world 0%Z)) by reflexivity.
  split; [exact E|].
  exact (Login_error_returns_no_token (fixture.service fixture.brokenRepo) fixture.login
           (fixture.world 0%Z) (fixture.world 0%Z) "" "" _ E).
Defined.

(** C4.  [Login] returns [ErrInvalidCredentials] itself exactly when the
    store reports the identifier as not found ([errors.Is] with
    [domain.ErrNotFound]) or the store finds the user and the password fails
    the hash check.  Any other store error [e] comes back wrapped as "error
    finding user by email: e", with empty tokens; that value is not
    [ErrInvalidCredentials], and [errors.Is] takes it for
    [ErrInvalidCredentials] only if [e] already was. *)
Theorem Login_invalid_credentials_iff `{Codec} `{Tables}
    (s : auth.authService) (req : request.LoginRequest) (w : World) :
  let found := fst (domain.FindByEmail (auth.userRepo s) (request.Email req) w) in
  ((∃ accessToken refreshToken,
       fst (auth.Login s req w) = Ret (accessToken, refreshToken, Some auth.ErrInvalidCredentials))
    ↔ ((∃ user e, found = Ret (user, Some e) ∧ errors.Is e domain_ErrNotFound = true)
       ∨ (∃ user, found = Ret (Some user, None)
            ∧ auth.CheckPasswordHash (request.Password req) (domain.PasswordHash user) = false)))
  ∧ (∀ user e, found = Ret (user, Some e) → errors.Is e domain_ErrNotFound = false →
       fst (auth.Login s req w)
         = Ret ("", "", Some (wrapError "error finding user by email: " e ""))
       ∧ wrapError "error finding user by email: " e "" ≠ auth.ErrInvalidCredentials
       ∧ errors.Is (wrapError "error finding user by email: " e "") auth_ErrInvalidCredentials
         = errors.Is e auth_ErrInvalidCredentials).
Proof.
  intros found. subst found. unfold auth.Login. run.
  destruct (domain.FindByEmail (auth.userRepo s) (request.Email req) w)
    as [[[user e]|v] w1]; simpl.
  2: { split; [|intros ? ? [=]].
       split; [intros (? & ? & [=])|].
       intros [(? & ? & [=] & _)|(? & [=] & _)]. }
  destruct e as [e|]; simpl.
  { destruct (errors.Is e domain_ErrNotFound) eqn:Enf; simpl.
    - split; [|intros ? ? [= <- <-]; congruence].
      split; [intros _; left; by eexists _, _|]. intros _. by eexists _, _.
    - split.
      + split; [intros (? & ? & [=])|].
        intros [(? & ? & [= <- <-] & ?)|(? & [=] & _)]. congruence.
      + intros ? ? [= <- <-] _. done. }
  split; [|intros ? ? [=]].
  destruct user as [user|]; simpl.
  2: { split; [intros (? & ? & [=])|].
       intros [(? & ? & [=] & _)|(? & [=] & _)]. }
  destruct (auth.CheckPasswordHash _ _) eqn:Echeck; simpl.
  2: { split; [intros _; right; by eexists|]. intros _. by eexists _, _. }
  split.
  2: { intros [(? & ? & [=] & _)|(? & [= <-] & ?)]. congruence. }
  intros (a & r & E). exfalso. revert E.
  destruct (auth.GenerateAccessToken _ _ _ w1) as [[[a' e]|v] w2]; simpl; [|discriminate].
  destruct e as [e|]; simpl; [discriminate|].
  destruct (auth.GenerateRefreshToken _ _ _ w2) as [[[r' e]|v] w3]; simpl; [|discriminate].
  destruct e as [e|]; simpl; discriminate.
Qed.

Lemma Login_invalid_credentials_iff_witness :
  fst (domain.FindByEmail (auth.userRepo (fixture.service fixture.brokenRepo))
         (request.Email fixture.login) (fixture.world 0%Z))
    = Ret (None, Some (errNew "connection refused"))
  ∧ errors.Is (errNew "connection refused") domain_ErrNotFound = false
  ∧ fst (@auth.Login fixture.codec fixture.tables (fixture.service fixture.brokenRepo)
           fixture.login (fixture.world 0%Z))
    = Ret ("", "", Some (wrapError "error finding user by email: "
                           (errNew "connection refused") ""))
  ∧ (∃ accessToken refreshToken,
       fst (@auth.Login fixture.codec fixture.tables (fixture.service fixture.emptyRepo)
              fixture.login (fixture.world 0%Z))
       = Ret (accessToken, refreshToken, Some auth.ErrInvalidCredentials)).
Proof.
  split; [reflexivity|]. split; [reflexivity|]. split.
  - exact (proj1 (proj2 (Login_invalid_credentials_iff (H := fixture.codec)
                           (H0 := fixture.tables) (fixture.service fixture.brokenRepo)
                           fixture.login (fixture.world 0%Z))
                    None (errNew "connection refused") eq_refl eq_refl)).
  - apply (proj2 (proj1 (Login_invalid_credentials_iff (H := fixture.codec)
                           (H0 := fixture.tables) (fixture.service fixture.emptyRepo)
                           fixture.login (fixture.world 0%Z)))).
    left. exists None, (errVar domain_ErrNotFound). split; reflexivity.
Defined.

(** ** Token issuance and validation *)

Module jwt_facts.
Import jwt jwt_token.

Lemma GetSigningMethod_Alg alg m : GetSigningMethod alg = Some m → Alg m = alg.
Proof.
  unfold GetSigningMethod, registered. cbn [find].
  repeat (destruct (String.eqb _ alg) eqn:E;
          [apply String.eqb_eq in E; intros [= <-]; exact E|clear E]).
  discriminate.
Qed.

Lemma HMAC_name h : isHMACName (Alg (SigningMethodHMAC h)).
Proof. destruct h; unfold isHMACName; simpl; tauto. Qed.

(** A time truncated to whole seconds is at most a second behind. *)
Lemma Truncate_below (t : Time) :
  (time.Truncate t time.Second ≤ t < time.Truncate t time.Second + time.Second)%Z.
Proof.
  unfold time.Truncate, time.Second; simpl. Z.div_mod_to_equations. lia.
Qed.

Lemma Truncate_mono (t u : Time) :
  (t ≤ u)%Z → (time.Truncate t time.Second ≤ time.Truncate u time.Second)%Z.
Proof.
  unfold time.Truncate, time.Second; simpl. intros Htu. Z.div_mod_to_equations. lia.
Qed.

Lemma Truncate_le_iff (t u : Time) :
  (time.Truncate u time.Second ≤ time.Truncate t time.Second)%Z
  ↔ (u < time.Truncate t time.Second + time.Second)%Z.
Proof.
  unfold time.Truncate, time.Second; simpl. Z.div_mod_to_equations. lia.
Qed.

Lemma Truncate_lt_iff (t u : Time) (d : Duration) :
  (time.Truncate t time.Second < time.Truncate (time.Add u d) time.Second)%Z
  ↔ (time.Truncate t time.Second + time.Second ≤ u + d)%Z.
Proof.
  unfold time.Truncate, time.Add, time.Second; simpl. Z.div_mod_to_equations. lia.
Qed.

(** A full second later lands in a later whole second. *)
Lemma Truncate_lt_later (t : Time) (d : Duration) :
  (time.Second ≤ d)%Z →
  (time.Truncate t time.Second < time.Truncate (time.Add t d) time.Second)%Z.
Proof.
  unfold time.Truncate, time.Add, time.Second; simpl. intros Hd.
  Z.div_mod_to_equations. lia.
Qed.

End jwt_facts.

(** C8, as amended.  The claims literal reads the clock three times, for
    expires-at, issued-at and not-before in this order.  The record that
    [GenerateAccessToken] and [GenerateRefreshToken] sign has expires-at
    equal to the first reading plus ttl, issued-at equal to the second
    reading and not-before equal to the third, each truncated to whole
    seconds.  Whatever the clock does, not-before ≤ issued-at holds exactly
    when the third reading is less than a second after issued-at, and
    expires-at > issued-at exactly when the first reading plus ttl is at
    least a second after issued-at.  So with a clock that does not run
    backwards not-before is never before issued-at, with three equal readings
    the two are equal and a ttl of a second or more gives expires-at >
    issued-at, and in general a ttl of a second plus the time between the
    first two readings does. *)
Theorem newClaims_times `{Codec} (userID : UUID) (secret : list byte) (ttl : Duration)
    (w : World) :
  ∃ (claims : CustomClaims) (w' : World) (iat nbf exp : Time),
    auth.newClaims userID ttl w = (Ret claims, w')
    ∧ auth.GenerateAccessToken userID secret ttl w = auth.signAccessToken secret claims w'
    ∧ auth.GenerateRefreshToken userID secret ttl w = auth.signRefreshToken secret claims w'
    ∧ jwt.IssuedAt (Registered claims) = Some iat
    ∧ jwt.NotBefore (Registered claims) = Some nbf
    ∧ jwt.ExpiresAt (Registered claims) = Some exp
    ∧ exp = time.Truncate (time.Add (wall w (ticks w)) ttl) time.Second
    ∧ iat = time.Truncate (wall w (S (ticks w))) time.Second
    ∧ nbf = time.Truncate (wall w (S (S (ticks w)))) time.Second
    ∧ ((nbf ≤ iat)%Z ↔ (wall w (S (S (ticks w))) < iat + time.Second)%Z)
    ∧ ((iat < exp)%Z ↔ (iat + time.Second ≤ wall w (ticks w) + ttl)%Z)
    ∧ ((wall w (S (ticks w)) ≤ wall w (S (S (ticks w))))%Z → (iat ≤ nbf)%Z)
    ∧ (wall w (S (ticks w)) = wall w (ticks w) →
       wall w (S (S (ticks w))) = wall w (ticks w) →
       nbf = iat ∧ ((time.Second ≤ ttl)%Z → (iat < exp)%Z))
    ∧ ((wall w (ticks w) ≤ wall w (S (ticks w)))%Z →
       (time.Second + (wall w (S (ticks w)) - wall w (ticks w)) ≤ ttl)%Z →
       (iat < exp)%Z).
Proof.
  unfold auth.GenerateAccessToken, auth.GenerateRefreshToken, auth.newClaims.
  unfold time_Now. run.
  eexists _, _, _, _, _. do 9 (split; [reflexivity|]).
  generalize (wall w (ticks w)) (wall w (S (ticks w))) (wall w (S (S (ticks w)))).
  intros t1 t2 t3.
  split; [apply jwt_facts.Truncate_le_iff|].
  split; [apply jwt_facts.Truncate_lt_iff|].
  split; [apply jwt_facts.Truncate_mono|].
  split.
  - intros -> ->. split; [done|]. intros Httl. by apply jwt_facts.Truncate_lt_later.
  - intros H12 Httl. apply jwt_facts.Truncate_lt_iff.
    pose proof (jwt_facts.Truncate_below t2) as Hb. lia.
Qed.

Lemma newClaims_times_witness :
  ∃ (claims : CustomClaims) (w' : World) (iat nbf exp : Time),
    auth.newClaims fixture.user7 time.Hour (fixture.running 1700000000500000000%Z)
      = (Ret claims, w')
    ∧ jwt.IssuedAt (Registered claims) = Some iat
    ∧ jwt.NotBefore (Registered claims) = Some nbf
    ∧ jwt.ExpiresAt (Registered claims) = Some exp
    ∧ iat = 1700000000000000000%Z
    ∧ nbf = 1700000000000000000%Z
    ∧ exp = 1700003600000000000%Z
    ∧ (nbf ≤ iat)%Z
    ∧ (iat < exp)%Z.
Proof.
  destruct (newClaims_times (H := fixture.codec) fixture.user7 (bytesOf "secret") time.Hour
              (fixture.running 1700000000500000000%Z))
    as (claims & w' & iat & nbf & exp & E & _ & _ & Hiat & Hnbf & Hexp
        & Eexp & Eiat & Enbf & Hle & Hlt & _).
  exists claims, w', iat, nbf, exp. do 4 (split; [assumption|]).
  split; [exact Eiat|]. split; [exact Enbf|]. split; [exact Eexp|].
  split.
  - apply Hle. rewrite Eiat. vm_compute. reflexivity.
  - apply Hlt. rewrite Eiat. vm_compute. intros Hc; discriminate Hc.
Defined.

(** C8, as stated, fails in three ways.  For a positive ttl below one
    second: at a clock that stands at half past a second, a ttl of one
    nanosecond gives expires-at equal to issued-at, and issued-at is not the
    clock reading.  For a clock that runs: when a whole second begins
    between the second and the third reading, not-before is one second after
    issued-at; and when it begins between the first and the second reading,
    a ttl of a full second gives expires-at equal to issued-at. *)
Lemma newClaims_subsecond_ttl :
  (0 < time.Nanosecond)%Z
  ∧ (∃ (claims : CustomClaims) (w' : World),
      auth.newClaims fixture.user7 time.Nanosecond (fixture.world 1700000000500000000%Z)
        = (Ret claims, w')
      ∧ jwt.IssuedAt (Registered claims) = Some 1700000000000000000%Z
      ∧ jwt.ExpiresAt (Registered claims) = Some 1700000000000000000%Z)
  ∧ (∃ (claims : CustomClaims) (w' : World),
      auth.newClaims fixture.user7 time.Hour (fixture.running 1699999999999999998%Z)
        = (Ret claims, w')
      ∧ jwt.IssuedAt (Registered claims) = Some 1699999999000000000%Z
      ∧ jwt.NotBefore (Registered claims) = Some 1700000000000000000%Z)
  ∧ (0 < time.Second)%Z
  ∧ (∃ (claims : CustomClaims) (w' : World),
      auth.newClaims fixture.user7 time.Second (fixture.running 1699999999999999999%Z)
        = (Ret claims, w')
      ∧ jwt.IssuedAt (Registered claims) = Some 1700000000000000000%Z
      ∧ jwt.ExpiresAt (Registered claims) = Some 1700000000000000000%Z).
Proof.
  split; [reflexivity|].
  split; [eexists _, _; split; [reflexivity|]; split; reflexivity|].
  split; [eexists _, _; split; [reflexivity|]; split; reflexivity|].
  split; [reflexivity|].
  eexists _, _. split; [reflexivity|]. split; reflexivity.
Qed.

(** C3, as amended.  A token string whose header declares an algorithm
    outside HS256, HS384 and HS512 ([none] included) is rejected without
    claims, for every secret and before the clock is read.  The error is
    never of the SignatureInvalid kind: it is "malformed token" when the
    rest of the string does not parse, and otherwise "could not parse
    token" around [jwt.ErrTokenUnverifiable]. *)
Theorem ValidateToken_rejects_non_hmac `{Codec}
    (tokenString : string) (secret : list byte) (w : World) (alg : string) :
  declaredAlg tokenString = Some alg → ¬ isHMACName alg →
  ∃ inner : error,
    (auth.ValidateToken tokenString secret w
       = (Ret (None, Some (wrapError "malformed token: " inner "")), w)
     ∧ errors.Is inner jwt_ErrTokenMalformed = true)
    ∨ (auth.ValidateToken tokenString secret w
         = (Ret (None, Some (wrapError "could not parse token: " inner "")), w)
       ∧ errors.Is inner jwt_ErrTokenUnverifiable = true
       ∧ errors.Is inner jwt_ErrTokenSignatureInvalid = false).
Proof.
  unfold declaredAlg. intros Halg Hnot.
  unfold auth.ValidateToken, jwt_token.ParseWithClaims, jwt_token.ParseUnverified.
  destruct (strings.Split tokenString ".") as [|header rest] eqn:Eparts; [discriminate|].
  destruct (negb (length (header :: rest) =? 3)%nat) eqn:Elen.
  { run. eexists. left. split; reflexivity. }
  change ((header :: rest) !!! 0%nat) with header.
  destruct (DecodeSegment header) as [?|headerBytes]; [discriminate|].
  destruct (json_UnmarshalHeader headerBytes) as [?|h]; [discriminate|].
  destruct (h !! "alg") as [[?|a|?]|] eqn:Ealg; try discriminate.
  injection Halg as ->.
  destruct (DecodeSegment ((header :: rest) !!! 1%nat)) as [?|claimBytes].
  { run. eexists. left. split; reflexivity. }
  destruct (json_UnmarshalClaims claimBytes) as [?|claims].
  { run. eexists. left. split; reflexivity. }
  destruct (jwt.GetSigningMethod alg) as [m|] eqn:Em.
  2: { run. eexists. right. split; [reflexivity|]. split; reflexivity. }
  destruct (DecodeSegment ((header :: rest) !!! 2%nat)) as [?|sig].
  { run. eexists. left. split; reflexivity. }
  apply jwt_facts.GetSigningMethod_Alg in Em.
  unfold auth.keyFunc; simpl.
  destruct m as [hh| | | | |];
    try (run; eexists; right; split; [reflexivity|]; split; reflexivity).
  exfalso. apply Hnot. rewrite <- Em. apply jwt_facts.HMAC_name.
Qed.

Lemma ValidateToken_rejects_non_hmac_witness :
  @declaredAlg fixture.codec (fixture.headerNone +:+ ".e30.") = Some "none"
  ∧ ¬ isHMACName "none"
  ∧ ∃ inner : error,
      (@auth.ValidateToken fixture.codec (fixture.headerNone +:+ ".e30.") (bytesOf "secret")
         (fixture.world 0%Z)
         = (Ret (None, Some (wrapError "malformed token: " inner "")), fixture.world 0%Z)
       ∧ errors.Is inner jwt_ErrTokenMalformed = true)
      ∨ (@auth.ValidateToken fixture.codec (fixture.headerNone +:+ ".e30.") (bytesOf "secret")
           (fixture.world 0%Z)
           = (Ret (None, Some (wrapError "could not parse token: " inner "")),
              fixture.world 0%Z)
         ∧ errors.Is inner jwt_ErrTokenUnverifiable = true
         ∧ errors.Is inner jwt_ErrTokenSignatureInvalid = false).
Proof.
  assert (Hd : @declaredAlg fixture.codec (fixture.headerNone +:+ ".e30.") = Some "none")
    by (vm_compute; reflexivity).
  assert (Hn : ¬ isHMACName "none") by (intros [E|[E|E]]; discriminate E).
  split; [exact Hd|]. split; [exact Hn|].
  exact (ValidateToken_rejects_non_hmac (H := fixture.codec) (fixture.headerNone +:+ ".e30.")
           (bytesOf "secret") (fixture.world 0%Z) "none" Hd Hn).
Defined.

(** C3, as stated, fails: the unsigned token whose header declares [none]
    is rejected, but with "could not parse token" around
    [jwt.ErrTokenUnverifiable]; [errors.Is] does not find
    [jwt.ErrTokenSignatureInvalid] in the error returned. *)
Lemma ValidateToken_none_not_signature_invalid :
  @declaredAlg fixture.codec (fixture.headerNone +:+ ".e30.") = Some "none"
  ∧ ¬ isHMACName "none"
  ∧ ∃ err : error,
      fst (@auth.ValidateToken fixture.codec (fixture.headerNone +:+ ".e30.")
             (bytesOf "secret") (fixture.world 0%Z)) = Ret (None, Some err)
      ∧ errors.Is err jwt_ErrTokenUnverifiable = true
      ∧ errors.Is err jwt_ErrTokenSignatureInvalid = false.
Proof.
  split; [vm_compute; reflexivity|].
  split; [intros [E|[E|E]]; discriminate E|].
  eexists. split; [vm_compute; reflexivity|]. split; reflexivity.
Qed.

(** ** Password hashing *)

(** *** The bcrypt base64 alphabet: encoding sixteen bytes and back *)

Lemma byteVal_bound b : (0 ≤ byteVal b < 256)%Z.
Proof.
  unfold byteVal. pose proof (N_ascii_bounded b). lia.
Qed.

Lemma land_disjoint a b k :
  (0 ≤ k)%Z → (0 ≤ b < 2 ^ k)%Z → Z.land (a * 2 ^ k) b = 0%Z.
Proof.
  intros Hk Hb. apply Z.bits_inj'. intros n Hn.
  rewrite Z.land_spec, Z.bits_0.
  destruct (Z.lt_ge_cases n k).
  - by rewrite Z.mul_pow2_bits_low.
  - replace b with (b mod 2 ^ k)%Z by (apply Z.mod_small; lia).
    rewrite Z.mod_pow2_bits_high by lia. apply andb_false_r.
Qed.

Lemma lor_shiftl a b k :
  (0 ≤ k)%Z → (0 ≤ b < 2 ^ k)%Z → Z.lor (Z.shiftl a k) b = (a * 2 ^ k + b)%Z.
Proof.
  intros Hk Hb. rewrite Z.shiftl_mul_pow2 by done.
  rewrite <- Z.add_lor_land, land_disjoint by done. lia.
Qed.

Lemma alphabet_digits (k : nat) :
  (k < 64)%nat →
  base64.isNewline (bytesOf bcrypt.alphabet !!! k) = false
  ∧ Ascii.eqb (bytesOf bcrypt.alphabet !!! k) "=" = false
  ∧ base64.value bcrypt.alphabet (bytesOf bcrypt.alphabet !!! k) = Some (Z.of_nat k).
Proof.
  intros Hk. do 64 (destruct k as [|k]; [vm_compute; done|]). lia.
Qed.

Lemma land63 n : Z.land n 63 = (n mod 64)%Z.
Proof. change 63%Z with (Z.ones 6). by rewrite Z.land_ones. Qed.

Lemma digit_facts (n : Z) :
  base64.isNewline (base64.digit bcrypt.alphabet n) = false
  ∧ Ascii.eqb (base64.digit bcrypt.alphabet n) "=" = false
  ∧ base64.value bcrypt.alphabet (base64.digit bcrypt.alphabet n) = Some (Z.land n 63).
Proof.
  unfold base64.digit.
  assert (Hk : (Z.to_nat (Z.land n 63) < 64)%nat).
  { rewrite land63. pose proof (Z.mod_pos_bound n 64). lia. }
  destruct (alphabet_digits _ Hk) as (H1 & H2 & H3).
  split; [done|]. split; [done|]. rewrite H3. f_equal.
  rewrite land63. pose proof (Z.mod_pos_bound n 64). lia.
Qed.

Lemma decode_quantum (a b c d : Z) (rest : list byte) :
  base64.decodeFrom bcrypt.alphabet []
    (base64.digit bcrypt.alphabet a :: base64.digit bcrypt.alphabet b
     :: base64.digit bcrypt.alphabet c :: base64.digit bcrypt.alphabet d :: rest)
  = match base64.decodeFrom bcrypt.alphabet [] rest with
    | inl e => inl e
    | inr out =>
        inr (base64.quantum [Z.land a 63; Z.land b 63; Z.land c 63; Z.land d 63] ++ out)
    end.
Proof.
  destruct (digit_facts a) as (Ha1 & _ & Ha3), (digit_facts b) as (Hb1 & _ & Hb3),
           (digit_facts c) as (Hc1 & _ & Hc3), (digit_facts d) as (Hd1 & _ & Hd3).
  cbn [base64.decodeFrom]. rewrite Ha1, Ha3. cbn [app length Nat.eqb].
  rewrite Hb1, Hb3. cbn [app length Nat.eqb].
  rewrite Hc1, Hc3. cbn [app length Nat.eqb].
  rewrite Hd1, Hd3. cbn [app length Nat.eqb]. done.
Qed.

Lemma decode_tail (a b : Z) :
  base64.decodeFrom bcrypt.alphabet []
    [base64.digit bcrypt.alphabet a; base64.digit bcrypt.alphabet b; "="%char; "="%char]
  = inr (base64.quantum [Z.land a 63; Z.land b 63]).
Proof.
  destruct (digit_facts a) as (Ha1 & _ & Ha3), (digit_facts b) as (Hb1 & _ & Hb3).
  cbn [base64.decodeFrom]. rewrite Ha1, Ha3. cbn [app length Nat.eqb].
  rewrite Hb1, Hb3. cbn [app length Nat.eqb]. reflexivity.
Qed.

Lemma byteOf_eq (z : Z) (b : byte) : (z mod 256 = byteVal b)%Z → byteOf z = b.
Proof.
  intros E. unfold byteOf. rewrite E. unfold byteVal. rewrite N2Z.id.
  apply ascii_N_embedding.
Qed.

Lemma quantum3 (b0 b1 b2 : byte) (v : Z) :
  v = Z.lor (Z.lor (Z.shiftl (byteVal b0) 16) (Z.shiftl (byteVal b1) 8)) (byteVal b2) →
  base64.quantum [Z.land (Z.shiftr v 18) 63; Z.land (Z.shiftr v 12) 63;
                  Z.land (Z.shiftr v 6) 63; Z.land v 63]
  = [b0; b1; b2].
Proof.
  intros Ev.
  pose proof (byteVal_bound b0) as H0. pose proof (byteVal_bound b1) as H1.
  pose proof (byteVal_bound b2) as H2.
  assert (Hv : v = (byteVal b0 * 65536 + byteVal b1 * 256 + byteVal b2)%Z).
  { rewrite Ev. change 16%Z with (8 + 8)%Z. rewrite <- Z.shiftl_shiftl by lia.
    rewrite <- Z.shiftl_lor. rewrite (lor_shiftl _ (byteVal b1) 8) by lia.
    rewrite lor_shiftl by lia. lia. }
  clear Ev. subst v.
  unfold base64.quantum.
  rewrite !land63, !Z.shiftr_div_pow2 by lia.
  change (2 ^ 18)%Z with 262144%Z; change (2 ^ 12)%Z with 4096%Z;
    change (2 ^ 6)%Z with 64%Z; change (2 ^ 4)%Z with 16%Z; change (2 ^ 2)%Z with 4%Z.
  f_equal; [|f_equal; [|f_equal]]; apply byteOf_eq.
  - rewrite lor_shiftl by (change (2 ^ 2)%Z with 4%Z; Z.div_mod_to_equations; lia).
    change (2 ^ 2)%Z with 4%Z. Z.div_mod_to_equations. lia.
  - rewrite lor_shiftl by (change (2 ^ 4)%Z with 16%Z; Z.div_mod_to_equations; lia).
    change (2 ^ 4)%Z with 16%Z. Z.div_mod_to_equations. lia.
  - rewrite lor_shiftl by (change (2 ^ 6)%Z with 64%Z; Z.div_mod_to_equations; lia).
    change (2 ^ 6)%Z with 64%Z. Z.div_mod_to_equations. lia.
Qed.

Lemma quantum1 (b0 : byte) (v : Z) :
  v = Z.shiftl (byteVal b0) 16 →
  base64.quantum [Z.land (Z.shiftr v 18) 63; Z.land (Z.shiftr v 12) 63] = [b0].
Proof.
  intros ->. pose proof (byteVal_bound b0) as H0.
  unfold base64.quantum.
  rewrite !land63, !Z.shiftr_div_pow2, (Z.shiftl_mul_pow2 (byteVal b0) 16) by lia.
  change (2 ^ 18)%Z with 262144%Z; change (2 ^ 12)%Z with 4096%Z;
    change (2 ^ 16)%Z with 65536%Z; change (2 ^ 4)%Z with 16%Z.
  f_equal. apply byteOf_eq.
  rewrite lor_shiftl by (change (2 ^ 2)%Z with 4%Z; Z.div_mod_to_equations; lia).
  change (2 ^ 2)%Z with 4%Z. Z.div_mod_to_equations. lia.
Qed.

Lemma Encode3 (b0 b1 b2 : byte) (rest : list byte) :
  base64.Encode bcrypt.alphabet (b0 :: b1 :: b2 :: rest)
  = (let v := Z.lor (Z.lor (Z.shiftl (byteVal b0) 16) (Z.shiftl (byteVal b1) 8)) (byteVal b2) in
     base64.digit bcrypt.alphabet (Z.shiftr v 18) :: base64.digit bcrypt.alphabet (Z.shiftr v 12)
     :: base64.digit bcrypt.alphabet (Z.shiftr v 6) :: base64.digit bcrypt.alphabet v
     :: base64.Encode bcrypt.alphabet rest).
Proof. reflexivity. Qed.

Lemma dropPadding_pad (l : list byte) : bcrypt.dropPadding ("="%char :: l) = bcrypt.dropPadding l.
Proof. reflexivity. Qed.

Lemma dropPadding_digit (x : Z) (l : list byte) :
  bcrypt.dropPadding (base64.digit bcrypt.alphabet x :: l) = base64.digit bcrypt.alphabet x :: l.
Proof.
  destruct (digit_facts x) as (_ & H & _). cbn [bcrypt.dropPadding]. by rewrite H.
Qed.

Lemma base64Encode_salt (bs : list byte) :
  length bs = 16%nat →
  length (bcrypt.base64Encode bs) = 22%nat
  ∧ bcrypt.base64Decode (bcrypt.base64Encode bs) = inr bs.
Proof.
  intros Hlen. do 17 (destruct bs as [|? bs]; try discriminate Hlen). clear Hlen.
  unfold bcrypt.base64Encode.
  rewrite !Encode3. cbn zeta. cbn [base64.Encode].
  unfold reverse. cbn [rev_append].
  rewrite !dropPadding_pad, dropPadding_digit. cbn [rev_append].
  split; [reflexivity|].
  unfold bcrypt.base64Decode. cbn [length]. 
  change (4 - 22 `mod` 4)%nat with 2%nat. cbn [replicate app].
  unfold base64.Decode.
  rewrite !decode_quantum, decode_tail.
  rewrite !(quantum3 _ _ _ _ eq_refl), (quantum1 _ _ eq_refl).
  reflexivity.
Qed.

Lemma Encode2 (b0 b1 : byte) :
  ∃ x y z, base64.Encode bcrypt.alphabet [b0; b1]
           = [base64.digit bcrypt.alphabet x; base64.digit bcrypt.alphabet y;
              base64.digit bcrypt.alphabet z; "="%char].
Proof. by eexists _, _, _. Qed.

Lemma base64Encode_hash (bs : list byte) :
  length bs = 23%nat → length (bcrypt.base64Encode bs) = 31%nat.
Proof.
  intros Hlen. do 24 (destruct bs as [|? bs]; try discriminate Hlen). clear Hlen.
  unfold bcrypt.base64Encode.
  rewrite !Encode3. cbn zeta.
  match goal with |- context [base64.Encode _ [?u; ?v]] =>
    destruct (Encode2 u v) as (x & y & z & E) end.
  rewrite E.
  unfold reverse. cbn [rev_append].
  rewrite dropPadding_pad, dropPadding_digit. reflexivity.
Qed.

Lemma Encrypt_length (c : blowfish.Cipher) (src : list byte) :
  length (blowfish.Encrypt c src) = 8%nat.
Proof. unfold blowfish.Encrypt. destruct (blowfish.encryptBlock _ _ _). reflexivity. Qed.

Lemma block_length (c : blowfish.Cipher) (b : list byte) :
  length (Nat.iter 64 (blowfish.Encrypt c) b) = 8%nat.
Proof.
  rewrite (Nat.iter_succ 63). apply Encrypt_length.
Qed.

Lemma readFrom_length src pos n bs : readFrom src pos n = inr bs → length bs = n.
Proof.
  revert pos bs. induction n as [|n IH]; intros pos bs; simpl.
  - by intros [= <-].
  - destruct (src pos); [done|]. destruct (readFrom src (S pos) n) eqn:E; [done|].
    intros [= <-]. simpl. f_equal. by eapply IH.
Qed.

(** *** Blowfish reads a key through its eighteen words *)

Section bcrypt_facts.
Context `{Tables}.



#[local] Opaque blowfish.ExpandKey blowfish.expandKeyWithSalt blowfish.Encrypt.


(** With a salt freshly encoded from sixteen bytes, [bcrypt] succeeds and
    gives 31 bytes. *)
Lemma bcrypt_ok (key : list byte) (cost : Z) (salt16 : list byte) :
  length salt16 = 16%nat →
  ∃ h, bcrypt.bcrypt key cost (bcrypt.base64Encode salt16) = inr h ∧ length h = 31%nat.
Proof.
  intros Hs. destruct (base64Encode_salt salt16 Hs) as [_ Hdec].
  unfold bcrypt.bcrypt, bcrypt.expensiveBlowfishSetup. rewrite Hdec.
  unfold blowfish.NewSaltedCipher. rewrite Hs. cbn [Nat.eqb].
  rewrite length_app. cbn [length]. replace (length key + 1 <? 1)%nat with false
    by (symmetry; apply Nat.ltb_ge; lia).
  eexists. split; [reflexivity|].
  apply base64Encode_hash. rewrite length_take, !length_app.
  rewrite !block_length. reflexivity.
Qed.


End bcrypt_facts.

Lemma newFromHash_Hash (salt hash : list byte) :
  length salt = 22%nat → length hash = 31%nat →
  bcrypt.newFromHash
    (bcrypt.Hash {| bcrypt.hash := hash; bcrypt.salt := salt; bcrypt.cost := 10;
                    bcrypt.major := "2"%char; bcrypt.minor := "a"%char |})
  = inr {| bcrypt.hash := hash; bcrypt.salt := salt; bcrypt.cost := 10;
           bcrypt.major := "2"%char; bcrypt.minor := "a"%char |}.
Proof.
  intros Hs Hh.
  do 23 (destruct salt as [|? salt]; try discriminate Hs).
  do 32 (destruct hash as [|? hash]; try discriminate Hh).
  reflexivity.
Qed.

(** *** What [HashPassword] returns, and checking against it *)

Lemma Hash_length (salt16 h : list byte) :
  length salt16 = 16%nat → length h = 31%nat →
  length (bcrypt.Hash (hashedWith salt16 h)) = 60%nat.
Proof.
  intros Hs Hh. destruct (base64Encode_salt salt16 Hs) as [Hl _].
  unfold hashedWith. generalize dependent (bcrypt.base64Encode salt16). intros salt Hl.
  do 23 (destruct salt as [|? salt]; try discriminate Hl).
  do 32 (destruct h as [|? h]; try discriminate Hh).
  reflexivity.
Qed.

#[local] Opaque bcrypt.bcrypt bcrypt.Hash bcrypt.base64Encode.

Section password_facts.
Context `{Tables}.

Lemma GenerateFromPassword_spec (password : list byte) (w : World) :
  bcrypt.GenerateFromPassword password bcrypt.DefaultCost w
  = if (72 <? length password)%nat then
      (Ret ([], Some (errVar bcrypt_ErrPasswordTooLong)), w)
    else
      match readFrom (entropy w) (drawn w) 16 with
      | inl e => (Ret ([], Some e), drew w)
      | inr salt16 =>
          match bcrypt.bcrypt password 10 (bcrypt.base64Encode salt16) with
          | inl e => (Ret ([], Some e), drew w)
          | inr h => (Ret (bcrypt.Hash (hashedWith salt16 h), None), drew w)
          end
      end.
Proof.
  unfold bcrypt.GenerateFromPassword.
  destruct (72 <? length password)%nat; [reflexivity|].
  unfold bcrypt.newFromPassword, mbind, M_bind, mret, M_ret, drew, rand_ReadFull.
  change bcrypt.maxSaltSize with 16%nat. change bcrypt.DefaultCost with 10%Z.
  change (bcrypt.checkCost (if (10 <? bcrypt.MinCost)%Z then 10%Z else 10%Z)) with (@None error).
  change (if (10 <? bcrypt.MinCost)%Z then 10%Z else 10%Z) with 10%Z.
  cbv beta iota. cbn [fst snd].
  destruct (readFrom (entropy w) (drawn w) 16) as [e|salt16]; [reflexivity|].
  destruct (bcrypt.bcrypt password 10 (bcrypt.base64Encode salt16)) as [e|h]; reflexivity.
Qed.

Lemma HashPassword_spec (password : string) (w : World) :
  auth.HashPassword password w
  = if (72 <? length (bytesOf password))%nat then
      (Ret ("", Some (wrapError "failed to hash password: "
                        (errVar bcrypt_ErrPasswordTooLong) "")), w)
    else
      match readFrom (entropy w) (drawn w) 16 with
      | inl e => (Ret ("", Some (wrapError "failed to hash password: " e "")), drew w)
      | inr salt16 =>
          match bcrypt.bcrypt (bytesOf password) 10 (bcrypt.base64Encode salt16) with
          | inl e => (Ret ("", Some (wrapError "failed to hash password: " e "")), drew w)
          | inr h => (Ret (stringOf (bcrypt.Hash (hashedWith salt16 h)), None), drew w)
          end
      end.
Proof.
  unfold auth.HashPassword, mbind, M_bind. rewrite GenerateFromPassword_spec.
  destruct (72 <? length (bytesOf password))%nat; [reflexivity|].
  destruct (readFrom (entropy w) (drawn w) 16) as [e|salt16]; [reflexivity|].
  destruct (bcrypt.bcrypt (bytesOf password) 10 (bcrypt.base64Encode salt16)) as [e|h];
    reflexivity.
Qed.


Lemma hashedWith_inj (salt1 h1 salt2 h2 : list byte) :
  length salt1 = 16%nat → length salt2 = 16%nat → length h1 = 31%nat → length h2 = 31%nat →
  bcrypt.Hash (hashedWith salt1 h1) = bcrypt.Hash (hashedWith salt2 h2) →
  salt1 = salt2 ∧ h1 = h2.
Proof.
  intros Hs1 Hs2 Hh1 Hh2 E.
  destruct (base64Encode_salt salt1 Hs1) as [Hl1 Hd1].
  destruct (base64Encode_salt salt2 Hs2) as [Hl2 Hd2].
  pose proof (newFromHash_Hash _ _ Hl1 Hh1) as N1.
  pose proof (newFromHash_Hash _ _ Hl2 Hh2) as N2.
  fold (hashedWith salt1 h1) in N1. fold (hashedWith salt2 h2) in N2.
  rewrite E, N2 in N1. injection N1 as Eh Es. split; [|done].
  rewrite Es in Hd2. rewrite Hd1 in Hd2. by injection Hd2.
Qed.

(** Checking a password against a digest that [HashPassword] built. *)
Lemma CheckPasswordHash_digest (salt16 h : list byte) (password : string) :
  length salt16 = 16%nat → length h = 31%nat →
  auth.CheckPasswordHash password (stringOf (bcrypt.Hash (hashedWith salt16 h))) = true
  ↔ bcrypt.bcrypt (bytesOf password) 10 (bcrypt.base64Encode salt16) = inr h.
Proof.
  intros Hs Hh. destruct (base64Encode_salt salt16 Hs) as [Hl _].
  unfold auth.CheckPasswordHash, bcrypt.CompareHashAndPassword.
  unfold bytesOf at 1, stringOf. rewrite list_ascii_of_string_of_list_ascii.
  pose proof (newFromHash_Hash _ _ Hl Hh) as N. fold (hashedWith salt16 h) in N.
  rewrite N. cbn [bcrypt.cost bcrypt.salt bcrypt.major bcrypt.minor hashedWith].
  destruct (bcrypt_ok (bytesOf password) 10 salt16 Hs) as (oh & Eoh & Hoh).
  rewrite Eoh. fold (hashedWith salt16 oh).
  case_bool_decide as Ehash.
  - apply hashedWith_inj in Ehash as [_ ->]; done.
  - split; [done|]. intros [= ->]. done.
Qed.

(** C7, as amended.  [HashPassword] fails when the password is longer
    than 72 bytes (with [bcrypt.ErrPasswordTooLong]) and when the entropy
    source fails (with that error); for every password of at most 72 bytes
    and a working entropy source it returns a digest of 60 bytes. *)
Theorem HashPassword_fails_only_on_length_or_entropy
    (p : string) (w : World) :
  ((72 < length (bytesOf p))%nat →
     auth.HashPassword p w
     = (Ret ("", Some (wrapError "failed to hash password: "
                         (errVar bcrypt_ErrPasswordTooLong) "")), w))
  ∧ (∀ e : error, (length (bytesOf p) ≤ 72)%nat →
       readFrom (entropy w) (drawn w) 16 = inl e →
       fst (auth.HashPassword p w)
       = Ret ("", Some (wrapError "failed to hash password: " e "")))
  ∧ (∀ salt : list byte, (length (bytesOf p) ≤ 72)%nat →
       readFrom (entropy w) (drawn w) 16 = inr salt →
       ∃ digest : string,
         fst (auth.HashPassword p w) = Ret (digest, None)
         ∧ length (bytesOf digest) = 60%nat).
Proof.
  rewrite HashPassword_spec. split; [|split].
  - intros Hlen. apply Nat.ltb_lt in Hlen. by rewrite Hlen.
  - intros e Hlen He. apply Nat.ltb_ge in Hlen. by rewrite Hlen, He.
  - intros salt Hlen Hsalt. apply Nat.ltb_ge in Hlen. rewrite Hlen, Hsalt.
    pose proof (readFrom_length _ _ _ _ Hsalt) as Hs.
    destruct (bcrypt_ok (bytesOf p) 10 salt Hs) as (h & -> & Hh).
    eexists. split; [reflexivity|].
    unfold bytesOf, stringOf. rewrite list_ascii_of_string_of_list_ascii.
    by apply Hash_length.
Qed.

(** C5, as amended.  For every password of at most 72 bytes, a digest
    that [HashPassword] returns verifies against the password; two calls
    that draw different salts return different digests, and both verify. *)
Theorem HashPassword_then_CheckPasswordHash
    (p : string) (w1 w2 : World) (salt1 salt2 : list byte) :
  (length (bytesOf p) ≤ 72)%nat →
  readFrom (entropy w1) (drawn w1) 16 = inr salt1 →
  readFrom (entropy w2) (drawn w2) 16 = inr salt2 →
  ∃ d1 d2 : string,
    fst (auth.HashPassword p w1) = Ret (d1, None)
    ∧ fst (auth.HashPassword p w2) = Ret (d2, None)
    ∧ auth.CheckPasswordHash p d1 = true
    ∧ auth.CheckPasswordHash p d2 = true
    ∧ (salt1 ≠ salt2 → d1 ≠ d2).
Proof.
  intros Hlen H1 H2. apply Nat.ltb_ge in Hlen.
  rewrite !HashPassword_spec, Hlen, H1, H2.
  pose proof (readFrom_length _ _ _ _ H1) as Hs1.
  pose proof (readFrom_length _ _ _ _ H2) as Hs2.
  destruct (bcrypt_ok (bytesOf p) 10 salt1 Hs1) as (h1 & Eh1 & Hh1).
  destruct (bcrypt_ok (bytesOf p) 10 salt2 Hs2) as (h2 & Eh2 & Hh2).
  rewrite Eh1, Eh2. eexists _, _. split; [reflexivity|]. split; [reflexivity|].
  split; [by apply CheckPasswordHash_digest|]. split; [by apply CheckPasswordHash_digest|].
  intros Hne E. apply Hne.
  apply (f_equal bytesOf) in E. unfold bytesOf, stringOf in E.
  rewrite !list_ascii_of_string_of_list_ascii in E.
  by apply hashedWith_inj in E as [? _].
Qed.



End password_facts.

Lemma HashPassword_fails_only_on_length_or_entropy_witness :
  (72 < length (bytesOf fixture.password73))%nat
  ∧ @auth.HashPassword fixture.tables fixture.password73 (fixture.world 0%Z)
    = (Ret ("", Some (wrapError "failed to hash password: "
                        (errVar bcrypt_ErrPasswordTooLong) "")), fixture.world 0%Z)
  ∧ (length (bytesOf "password123") ≤ 72)%nat
  ∧ ∃ digest : string,
      fst (@auth.HashPassword fixture.tables "password123" (fixture.world 0%Z))
      = Ret (digest, None)
      ∧ length (bytesOf digest) = 60%nat.
Proof.
  assert (H73 : (72 < length (bytesOf fixture.password73))%nat) by (vm_compute; lia).
  assert (H11 : (length (bytesOf "password123") ≤ 72)%nat) by (vm_compute; lia).
  split; [exact H73|].
  split; [exact (proj1 (HashPassword_fails_only_on_length_or_entropy (H := fixture.tables)
                          fixture.password73 (fixture.world 0%Z)) H73)|].
  split; [exact H11|].
  exact (proj2 (proj2 (HashPassword_fails_only_on_length_or_entropy (H := fixture.tables)
                         "password123" (fixture.world 0%Z))) _ H11 eq_refl).
Defined.

(** C7, as stated, fails: with a working entropy source, a password of 73
    bytes is refused for its length. *)
Lemma HashPassword_rejects_long_password :
  length (bytesOf fixture.password73) = 73%nat
  ∧ (∃ salt : list byte,
       readFrom (entropy (fixture.world 0%Z)) (drawn (fixture.world 0%Z)) 16 = inr salt)
  ∧ ∀ T : Tables,
      @auth.HashPassword T fixture.password73 (fixture.world 0%Z)
      = (Ret ("", Some (wrapError "failed to hash password: "
                          (errVar bcrypt_ErrPasswordTooLong) "")), fixture.world 0%Z).
Proof.
  split; [reflexivity|]. split; [by eexists|]. intros T.
  rewrite HashPassword_spec.
  change (72 <? length (bytesOf fixture.password73))%nat with true. reflexivity.
Qed.

Lemma HashPassword_then_CheckPasswordHash_witness :
  (length (bytesOf "password123") ≤ 72)%nat
  ∧ ∃ d1 d2 : string,
      fst (@auth.HashPassword fixture.tables "password123" (fixture.world 0%Z))
        = Ret (d1, None)
      ∧ fst (@auth.HashPassword fixture.tables "password123" (fixture.laterWorld 0%Z))
        = Ret (d2, None)
      ∧ @auth.CheckPasswordHash fixture.tables "password123" d1 = true
      ∧ @auth.CheckPasswordHash fixture.tables "password123" d2 = true
      ∧ d1 ≠ d2.
Proof.
  assert (H11 : (length (bytesOf "password123") ≤ 72)%nat) by (vm_compute; lia).
  split; [exact H11|].
  destruct (HashPassword_then_CheckPasswordHash (H := fixture.tables) "password123"
              (fixture.world 0%Z) (fixture.laterWorld 0%Z) _ _ H11 eq_refl eq_refl)
    as (d1 & d2 & E1 & E2 & C1 & C2 & Hne).
  exists d1, d2. repeat (split; [assumption|]).
  apply Hne. vm_compute. intros E; discriminate E.
Defined.

(** C5, as stated, fails.  For a password of 73 bytes [HashPassword]
    returns the empty string with an error, and the password does not
    verify against it.  And where the entropy source repeats itself, two
    calls in a row return the same digest. *)
Lemma HashPassword_long_or_repeated_salt :
  length (bytesOf fixture.password73) = 73%nat
  ∧ (∀ T : Tables,
       fst (@auth.HashPassword T fixture.password73 (fixture.world 0%Z))
       = Ret ("", Some (wrapError "failed to hash password: "
                          (errVar bcrypt_ErrPasswordTooLong) ""))
       ∧ @auth.CheckPasswordHash T fixture.password73 "" = false)
  ∧ (∀ T : Tables, ∃ digest : string,
       fst (@auth.HashPassword T "password123" fixture.stuckWorld) = Ret (digest, None)
       ∧ fst (@auth.HashPassword T "password123"
                (snd (@auth.HashPassword T "password123" fixture.stuckWorld)))
         = Ret (digest, None)).
Proof.
  split; [reflexivity|]. split.
  - intros T. split; [|reflexivity].
    rewrite HashPassword_spec.
    change (72 <? length (bytesOf fixture.password73))%nat with true. reflexivity.
  - intros T.
    destruct (bcrypt_ok (H := T) (bytesOf "password123") 10 (replicate 16 zero) eq_refl)
      as (h & Eh & _).
    assert (E : ∀ w, (72 <? length (bytesOf "password123"))%nat = false →
                readFrom (entropy w) (drawn w) 16 = inr (replicate 16 zero) →
                @auth.HashPassword T "password123" w
                = (Ret (stringOf (bcrypt.Hash (hashedWith (replicate 16 zero) h)), None),
                   drew w)).
    { intros w Hlen Hsalt. by rewrite HashPassword_spec, Hlen, Hsalt, Eh. }
    rewrite (E fixture.stuckWorld eq_refl eq_refl). cbn [fst snd].
    rewrite (E (drew fixture.stuckWorld) eq_refl eq_refl).
    eexists. split; reflexivity.
Qed.



(** ** More about the gate *)

(** A header that passes the three tests hands its token to the service. *)
Lemma gate_passes `{Unicode} (authSvc : auth_iface.Service) (next : middleware.HandlerFunc)
    (c : echo.Context) (scheme t : string) (w : World) :
  strings.ToLower scheme = "bearer" → noSpace scheme → t ≠ "" → noSpace t →
  authorization c = scheme +:+ " " +:+ t →
  middleware.JWTAuth authSvc next c w
  = (auth_iface.ValidateToken authSvc t ≫= middleware.onValidated next c) w.
Proof.
  intros Hlow Hns Ht Hsp Hh.
  unfold middleware.JWTAuth. fold (authorization c). rewrite Hh.
  rewrite (middleware_facts.shaped_passes scheme t Hlow Hns Hsp).
  change ([scheme; t] !!! 0%nat) with scheme.
  change ([scheme; t] !!! 1%nat) with t.
  rewrite Hlow. simpl.
  rewrite bool_decide_eq_false_2 by (destruct scheme; discriminate).
  by rewrite bool_decide_eq_false_2.
Qed.

Lemma noSpace_check (s : string) :
  forallb (fun c => negb (Ascii.eqb c " "%char)) (bytesOf s) = true → noSpace s.
Proof.
  unfold noSpace. intros Hall Hin. rewrite forallb_forall in Hall.
  apply Hall in Hin. by rewrite Ascii.eqb_refl in Hin.
Qed.

(** X1.  When the service accepts the token of a well-shaped header for
    [userID], the gate writes one Debug entry and enters the downstream
    handler once, with the request unchanged and a context from which
    [GetUserIDFromContext] reads back exactly [userID]. *)
Theorem JWTAuth_serves_validated_user `{Unicode}
    (authSvc : auth_iface.Service) (next : middleware.HandlerFunc)
    (c : echo.Context) (scheme t : string) (w w1 : World) (userID : UUID) :
  strings.ToLower scheme = "bearer" → noSpace scheme → t ≠ "" → noSpace t →
  authorization c = scheme +:+ " " +:+ t →
  auth_iface.ValidateToken authSvc t w = (Ret (userID, None), w1) →
  ∃ c' : echo.Context,
    middleware.JWTAuth authSvc next c w
    = next c' (snd (emit (Served c')
                 (snd (zap.Debug "AuthMiddleware: Token validated successfully"
                         [zap_String "userID" (uuid.String userID)] w1))))
    ∧ middleware.GetUserIDFromContext c' = (userID, true)
    ∧ echo.Request c' = echo.Request c.
Proof.
  intros Hlow Hns Ht Hsp Hh Hsvc.
  exists (echo.Context_Set c middleware.UserIDContextKey (anyUUID userID)).
  split; [|split; [|reflexivity]].
  - rewrite (gate_passes authSvc next c scheme t w Hlow Hns Ht Hsp Hh).
    unfold mbind, M_bind. rewrite Hsvc. reflexivity.
  - unfold middleware.GetUserIDFromContext, echo.Context_Get, echo.Context_Set.
    cbn [echo.store]. by rewrite lookup_insert_eq.
Qed.

Lemma JWTAuth_serves_validated_user_witness :
  ∃ c' : echo.Context,
    @middleware.JWTAuth fixture.unicode fixture.acceptAll fixture.handlerOK
      (fixture.requestWith "Bearer abc") (fixture.world 0%Z)
    = fixture.handlerOK c'
        (snd (emit (Served c')
           (snd (zap.Debug "AuthMiddleware: Token validated successfully"
                   [zap_String "userID" (uuid.String fixture.user7)] (fixture.world 0%Z)))))
    ∧ middleware.GetUserIDFromContext c' = (fixture.user7, true)
    ∧ echo.Request c' = echo.Request (fixture.requestWith "Bearer abc").
Proof.
  apply (JWTAuth_serves_validated_user (H := fixture.unicode) fixture.acceptAll
           fixture.handlerOK (fixture.requestWith "Bearer abc") "Bearer" "abc"
           (fixture.world 0%Z) (fixture.world 0%Z) fixture.user7).
  - vm_compute; reflexivity.
  - apply noSpace_check; vm_compute; reflexivity.
  - discriminate.
  - apply noSpace_check; vm_compute; reflexivity.
  - reflexivity.
  - reflexivity.
Defined.

(** X2.  When the service refuses the token of a well-shaped header, with
    whatever error [e], the gate answers 401 "Invalid or expired token": the
    reply does not depend on [e], which goes to one Warn entry of the log,
    the user the service may have named is dropped, and the downstream
    handler is not entered. *)
Theorem JWTAuth_rejects_refused_token `{Unicode}
    (authSvc : auth_iface.Service) (next : middleware.HandlerFunc)
    (c : echo.Context) (scheme t : string) (w w1 : World) (userID : UUID) (e : error) :
  strings.ToLower scheme = "bearer" → noSpace scheme → t ≠ "" → noSpace t →
  authorization c = scheme +:+ " " +:+ t →
  auth_iface.ValidateToken authSvc t w = (Ret (userID, Some e), w1) →
  middleware.JWTAuth authSvc next c w
  = (Ret (Some (HTTPError 401 "Invalid or expired token")),
     snd (zap.Warn "AuthMiddleware: Token validation failed" [zap_Error e] w1))
  ∧ servedCount (snd (middleware.JWTAuth authSvc next c w)) = servedCount w1.
Proof.
  intros Hlow Hns Ht Hsp Hh Hsvc.
  rewrite (gate_passes authSvc next c scheme t w Hlow Hns Ht Hsp Hh).
  unfold mbind, M_bind. rewrite Hsvc. split; [reflexivity|].
  apply middleware_facts.servedCount_emit_log.
Qed.

Lemma JWTAuth_rejects_refused_token_witness :
  @middleware.JWTAuth fixture.unicode
     {| auth_iface.Login := auth.Login (H := fixture.codec) (H0 := fixture.tables)
                              (fixture.service fixture.emptyRepo);
        auth_iface.ValidateToken := fun _ => mret (fixture.user7, Some (errNew "revoked")) |}
     fixture.handlerOK (fixture.requestWith "Bearer abc") (fixture.world 0%Z)
  = (Ret (Some (HTTPError 401 "Invalid or expired token")),
     snd (zap.Warn "AuthMiddleware: Token validation failed" [zap_Error (errNew "revoked")]
            (fixture.world 0%Z))).
Proof.
  apply (JWTAuth_rejects_refused_token (H := fixture.unicode) _ fixture.handlerOK
           (fixture.requestWith "Bearer abc") "Bearer" "abc"
           (fixture.world 0%Z) (fixture.world 0%Z) fixture.user7 (errNew "revoked")).
  - vm_compute; reflexivity.
  - apply noSpace_check; vm_compute; reflexivity.
  - discriminate.
  - apply noSpace_check; vm_compute; reflexivity.
  - reflexivity.
  - reflexivity.
Defined.

(** ** More about token validation *)

Module token_facts.
Import jwt jwt_token.

Lemma Split_length s sep :
  length (strings.Split s sep)
  = S (length (List.filter (fun c => Ascii.eqb c sep) (bytesOf s))).
Proof.
  induction s as [|c s IH]; simpl; [done|].
  destruct (Ascii.eqb c sep); simpl; [by rewrite IH|].
  destruct (strings.Split s sep) as [|p ps] eqn:E; [by apply strings_facts.Split_not_nil in E|].
  simpl in *. done.
Qed.

Lemma append_assoc (a b c : string) : (a +:+ b) +:+ c = a +:+ (b +:+ c).
Proof.
  induction a as [|x a IH]; [done|].
  change (String x ((a +:+ b) +:+ c) = String x (a +:+ b +:+ c)). by rewrite IH.
Qed.

Lemma Split_three (s0 s1 s2 : string) :
  noDot s0 → noDot s1 → noDot s2 →
  strings.Split (s0 +:+ "." +:+ s1 +:+ "." +:+ s2) "." = [s0; s1; s2].
Proof.
  intros H0 H1 H2.
  change ("." +:+ s1 +:+ "." +:+ s2) with (String "." (s1 +:+ String "." s2)).
  rewrite strings_facts.Split_app by done.
  rewrite strings_facts.Split_app by done.
  by rewrite strings_facts.Split_no_sep.
Qed.

Lemma noDot_check (s : string) :
  forallb (fun c => negb (Ascii.eqb c "."%char)) (bytesOf s) = true → noDot s.
Proof.
  unfold noDot. intros Hall Hin. rewrite forallb_forall in Hall.
  apply Hall in Hin. by rewrite Ascii.eqb_refl in Hin.
Qed.

Lemma GetSigningMethod_HMAC h :
  GetSigningMethod (Alg (SigningMethodHMAC h)) = Some (SigningMethodHMAC h).
Proof. by destruct h. Qed.

(** The parser never panics: it answers with an error, before or after
    the one reading of the clock, or with a token marked valid. *)
Lemma ParseWithClaims_outcome `{Codec} (tokenString : string) (secret : list byte) (w : World) :
  (∃ tok err, ParseWithClaims tokenString (auth.keyFunc secret) w = (Ret (tok, Some err), w))
  ∨ (∃ tok err, ParseWithClaims tokenString (auth.keyFunc secret) w
                = (Ret (tok, Some err), tick w))
  ∨ (∃ tok, ParseWithClaims tokenString (auth.keyFunc secret) w
            = (Ret (Some tok, None), tick w) ∧ Valid tok = true).
Proof.
  unfold ParseWithClaims, ParseUnverified.
  destruct (negb (length (strings.Split tokenString ".") =? 3)%nat).
  { left. by eexists _, _. }
  destruct (DecodeSegment (strings.Split tokenString "." !!! 0%nat)) as [?|hb].
  { left. by eexists _, _. }
  destruct (json_UnmarshalHeader hb) as [?|header].
  { left. by eexists _, _. }
  destruct (DecodeSegment (strings.Split tokenString "." !!! 1%nat)) as [?|cb].
  { left. by eexists _, _. }
  destruct (json_UnmarshalClaims cb) as [?|claims].
  { left. by eexists _, _. }
  destruct (header !! "alg") as [[?|alg|?]|]; try (left; by eexists _, _).
  destruct (GetSigningMethod alg) as [m|]; [|left; by eexists _, _].
  destruct (DecodeSegment (strings.Split tokenString "." !!! 2%nat)) as [?|sig].
  { left. by eexists _, _. }
  unfold auth.keyFunc. cbn [Method].
  destruct m as [h| | | | |]; try (left; by eexists _, _).
  unfold Verify. case_bool_decide; [|left; by eexists _, _].
  unfold Validate, mbind, M_bind, mret, M_ret, tick. cbn [time_Now fst snd].
  destruct (joinErrors _); [right; left; by eexists _, _|].
  right; right. by eexists.
Qed.

(** What the parser does with a string that decodes. *)
Lemma ParseWithClaims_decoded `{Codec} tokenString h claims sig signed secret w :
  decodesTo tokenString h claims sig signed →
  ∃ header,
  ParseWithClaims tokenString (auth.keyFunc secret) w
  = let token := {| Raw := tokenString; Method := Some (SigningMethodHMAC h);
                    Header := header; Claims := claims; Signature := sig; Valid := false |} in
    if bool_decide (sig = hmac h secret (bytesOf signed)) then
      (verr ← Validate claims;
       match verr with
       | Some e => mret (Some token, Some (newError "" (errVar jwt_ErrTokenInvalidClaims) (Some e)))
       | None => mret (Some {| Raw := tokenString; Method := Some (SigningMethodHMAC h);
                               Header := header; Claims := claims; Signature := sig;
                               Valid := true |}, None)
       end) w
    else (Ret (Some token,
               Some (newError "" (errVar jwt_ErrTokenSignatureInvalid)
                       (Some (errVar jwt_ErrTokenSignatureInvalid)))), w).
Proof.
  intros (s0 & s1 & s2 & hb & cb & header & -> & -> & H0 & H1 & H2 & E0 & Eh & Ealg & E1 & Ec & E2).
  exists header.
  unfold ParseWithClaims, ParseUnverified.
  rewrite (Split_three s0 s1 s2 H0 H1 H2).
  change ([s0; s1; s2] !!! 0%nat) with s0.
  change ([s0; s1; s2] !!! 1%nat) with s1.
  cbn [length Nat.eqb negb]. rewrite E0, Eh, E1, Ec, Ealg, GetSigningMethod_HMAC.
  change ([s0; s1; s2] !!! 2%nat) with s2. rewrite E2.
  cbn [take strings.Join Method auth.keyFunc Verify Raw Header Claims].
  change (s0 +:+ String "." s1) with (s0 +:+ "." +:+ s1).
  case_bool_decide; reflexivity.
Qed.

Lemma verifyExpiresAt_spec (claims : CustomClaims) (now : Time) :
  (expiredAt claims now ∧ verifyExpiresAt claims now = Some (errVar jwt_ErrTokenExpired))
  ∨ (¬ expiredAt claims now ∧ verifyExpiresAt claims now = None).
Proof.
  unfold expiredAt, verifyExpiresAt, time.Before.
  destruct (ExpiresAt (Registered claims)) as [exp|].
  - destruct (Z.ltb_spec now exp).
    + right. split; [|done]. intros (? & [= <-] & ?). lia.
    + left. split; [|done]. by exists exp.
  - right. split; [|done]. by intros (? & [=] & _).
Qed.

Lemma verifyNotBefore_spec (claims : CustomClaims) (now : Time) :
  (notYetValidAt claims now
   ∧ verifyNotBefore claims now = Some (errVar jwt_ErrTokenNotValidYet))
  ∨ (¬ notYetValidAt claims now ∧ verifyNotBefore claims now = None).
Proof.
  unfold notYetValidAt, verifyNotBefore, time.Before.
  destruct (NotBefore (Registered claims)) as [nbf|].
  - destruct (Z.ltb_spec now nbf).
    + left. split; [|done]. by exists nbf.
    + right. split; [|done]. intros (? & [= <-] & ?). lia.
  - right. split; [|done]. by intros (? & [=] & _).
Qed.

(** [ValidateToken] on a string that decodes, whose signature is the keyed
    hash of its first two segments and whose dates pass: the claims, after
    one reading of the clock. *)
Lemma ValidateToken_accepts `{Codec}
    (tokenString : string) (secret : list byte) (w : World)
    (h : jwt.Hash) (claims : CustomClaims) (signed : string) :
  decodesTo tokenString h claims (hmac h secret (bytesOf signed)) signed →
  ¬ expiredAt claims (wall w (ticks w)) → ¬ notYetValidAt claims (wall w (ticks w)) →
  auth.ValidateToken tokenString secret w = (Ret (Some claims, None), tick w).
Proof.
  intros Hdec He Hn.
  destruct (ParseWithClaims_decoded _ _ _ _ _ secret w Hdec) as (header & E).
  unfold auth.ValidateToken, mbind, M_bind. rewrite E. clear E.
  cbv zeta. rewrite bool_decide_eq_true_2 by done.
  unfold Validate, mbind, M_bind, mret, M_ret, tick. cbn [time_Now fst snd].
  destruct (verifyExpiresAt_spec claims (wall w (ticks w))) as [[? _]|[_ ->]]; [done|].
  destruct (verifyNotBefore_spec claims (wall w (ticks w))) as [[? _]|[_ ->]]; [done|].
  reflexivity.
Qed.

(** The same with a date of expiry that has come: refused as expired,
    whether or not the token is valid yet. *)
Lemma ValidateToken_expired `{Codec}
    (tokenString : string) (secret : list byte) (w : World)
    (h : jwt.Hash) (claims : CustomClaims) (signed : string) :
  decodesTo tokenString h claims (hmac h secret (bytesOf signed)) signed →
  expiredAt claims (wall w (ticks w)) →
  ∃ inner : error,
    auth.ValidateToken tokenString secret w
    = (Ret (None, Some (wrapError "token expired: " inner "")), tick w)
    ∧ errors.Is inner jwt_ErrTokenExpired = true.
Proof.
  intros Hdec He.
  destruct (ParseWithClaims_decoded _ _ _ _ _ secret w Hdec) as (header & E).
  unfold auth.ValidateToken, mbind, M_bind. rewrite E. clear E.
  cbv zeta. rewrite bool_decide_eq_true_2 by done.
  unfold Validate, mbind, M_bind, mret, M_ret, tick. cbn [time_Now fst snd].
  destruct (verifyExpiresAt_spec claims (wall w (ticks w))) as [[_ ->]|[? _]]; [|done].
  destruct (verifyNotBefore_spec claims (wall w (ticks w))) as [[_ ->]|[_ ->]];
    eexists; split; reflexivity.
Qed.

(** Signing with a codec that is faithful on the claims gives a string
    that decodes to them. *)
Lemma signAccessToken_decodes `{Codec} (claims : CustomClaims) (secret : list byte) (w : World) :
  faithfulOn claims secret →
  ∃ (tok signed : string),
    auth.signAccessToken secret claims w = (Ret (tok, None), w)
    ∧ decodesTo tok SHA256 claims (hmac SHA256 secret (bytesOf signed)) signed.
Proof.
  intros (hb & cb & sig & Emh & Emc & Euh & Euc & -> & N0 & N1 & N2 & D0 & D1 & D2).
  unfold auth.signAccessToken, SignedString, SigningString.
  rewrite Emh. cbn [Claims Method NewWithClaims]. rewrite Emc.
  cbn [Sign SigningMethodHS256].
  unfold mbind, M_bind, mret, M_ret.
  eexists _, _. split; [reflexivity|].
  eexists (EncodeSegment hb), (EncodeSegment cb), _, hb, cb, _.
  split; [rewrite append_assoc; reflexivity|]. split; [reflexivity|].
  split; [exact N0|]. split; [exact N1|]. split; [exact N2|].
  split; [exact D0|]. split; [exact Euh|]. split; [reflexivity|].
  split; [exact D1|]. split; [exact Euc|]. exact D2.
Qed.

End token_facts.

(** X4.  [ValidateToken] never panics and never returns both or neither of
    claims and error; claims come only after the one reading of the clock
    that the validator takes, and nothing is logged or drawn. *)
Theorem ValidateToken_claims_xor_error `{Codec}
    (tokenString : string) (secret : list byte) (w : World) :
  ∃ w' : World,
    ((∃ claims, auth.ValidateToken tokenString secret w = (Ret (Some claims, None), w')
                ∧ w' = tick w)
     ∨ (∃ e, auth.ValidateToken tokenString secret w = (Ret (None, Some e), w')
             ∧ (w' = w ∨ w' = tick w)))
    ∧ trace w' = trace w ∧ drawn w' = drawn w.
Proof.
  unfold auth.ValidateToken, mbind, M_bind.
  destruct (token_facts.ParseWithClaims_outcome tokenString secret w)
    as [(tok & err & ->)|[(tok & err & ->)|(tok & -> & Hv)]].
  - exists w. split; [|done]. right.
    repeat (match goal with |- context [if ?b then _ else _] => destruct b end);
      eexists; (split; [reflexivity|by left]).
  - exists (tick w). split; [|done]. right.
    repeat (match goal with |- context [if ?b then _ else _] => destruct b end);
      eexists; (split; [reflexivity|by right]).
  - exists (tick w). split; [|done]. left. rewrite Hv. by eexists.
Qed.

(** The method of the service refuses every token, and logs nothing. *)
Lemma authService_ValidateToken_refuses `{Codec}
    (s : auth.authService) (tokenString : string) (w : World) :
  ∃ (e : error) (w' : World),
    auth.authService_ValidateToken s tokenString w = (Ret (uuid.Nil, Some e), w')
    ∧ trace w' = trace w.
Proof.
  unfold auth.authService_ValidateToken, auth.ValidateToken, mbind, M_bind.
  destruct (token_facts.ParseWithClaims_outcome tokenString (auth.jwtSecret s) w)
    as [(tok & err & ->)|[(tok & err & ->)|(tok & -> & Hv)]].
  - repeat (match goal with |- context [if ?b then _ else _] => destruct b end);
      by eexists _, _.
  - repeat (match goal with |- context [if ?b then _ else _] => destruct b end);
      by eexists _, _.
  - rewrite Hv. by eexists _, _.
Qed.

(** X3.  Behind the service that [NewAuthService] builds, the gate lets no
    request through: whatever the request, the reply is a 401, the log
    grows by one Warn entry and the downstream handler is not entered.
    (The method [ValidateToken] of that service refuses every token.) *)
Theorem JWTAuth_over_authService_never_serves `{Unicode} `{Codec} `{Tables}
    (repo : domain.UserRepository) (secret : list byte)
    (accessDuration refreshDuration : Duration) (w0 w0' : World)
    (authSvc : auth_iface.Service) (next : middleware.HandlerFunc)
    (c : echo.Context) (w : World) :
  auth.NewAuthService repo secret accessDuration refreshDuration w0 = (Ret authSvc, w0') →
  ∃ (msg logged : string) (fields : list Field),
    fst (middleware.JWTAuth authSvc next c w) = Ret (Some (HTTPError 401 msg))
    ∧ trace (snd (middleware.JWTAuth authSvc next c w))
      = trace w ++ [Logged WarnLevel logged fields]
    ∧ servedCount (snd (middleware.JWTAuth authSvc next c w)) = servedCount w.
Proof.
  unfold auth.NewAuthService.
  destruct (length secret =? 0)%nat; [discriminate|]. intros [= <- _].
  assert (Hgoal : ∀ r : Res (option error) * World,
            (∃ msg logged fields, fst r = Ret (Some (HTTPError 401 msg))
               ∧ trace (snd r) = trace w ++ [Logged WarnLevel logged fields]) →
            ∃ msg logged fields, fst r = Ret (Some (HTTPError 401 msg))
               ∧ trace (snd r) = trace w ++ [Logged WarnLevel logged fields]
               ∧ servedCount (snd r) = servedCount w).
  { intros r (msg & logged & fields & Hr & Ht). exists msg, logged, fields.
    split; [done|]. split; [done|]. unfold servedCount. rewrite Ht.
    rewrite List.filter_app, length_app. simpl. lia. }
  apply Hgoal. unfold middleware.JWTAuth.
  case_bool_decide; [by eexists _, _, _|].
  destruct (negb _ || negb _); [by eexists _, _, _|].
  case_bool_decide; [by eexists _, _, _|].
  cbn [auth_iface.ValidateToken]. unfold mbind, M_bind.
  match goal with |- context [auth.authService_ValidateToken ?s ?t w] =>
    destruct (authService_ValidateToken_refuses s t w) as (e & w' & -> & Ht) end.
  cbn [middleware.onValidated]. eexists _, _, _. split; [reflexivity|].
  cbn [zap.Warn emit fst snd trace mbind M_bind]. unfold mbind, M_bind. simpl.
  by rewrite Ht.
Qed.

Lemma JWTAuth_over_authService_never_serves_witness :
  ∃ (authSvc : auth_iface.Service) (msg : string),
    @auth.NewAuthService fixture.codec fixture.tables fixture.emptyRepo (bytesOf "secret")
       time.Hour time.Hour (fixture.world 0%Z) = (Ret authSvc, fixture.world 0%Z)
    ∧ fst (@middleware.JWTAuth fixture.unicode authSvc fixture.handlerOK
             (fixture.requestWith "Bearer abc") (fixture.world 0%Z))
      = Ret (Some (HTTPError 401 msg))
    ∧ servedCount (snd (@middleware.JWTAuth fixture.unicode authSvc fixture.handlerOK
                          (fixture.requestWith "Bearer abc") (fixture.world 0%Z)))
      = servedCount (fixture.world 0%Z).
Proof.
  eexists.
  destruct (JWTAuth_over_authService_never_serves (H := fixture.unicode) (H0 := fixture.codec)
              (H1 := fixture.tables) fixture.emptyRepo (bytesOf "secret") time.Hour time.Hour
              (fixture.world 0%Z) (fixture.world 0%Z) _ fixture.handlerOK
              (fixture.requestWith "Bearer abc") (fixture.world 0%Z) eq_refl)
    as (msg & logged & fields & Hr & _ & Hs).
  exists msg. split; [reflexivity|]. split; [exact Hr|exact Hs].
Defined.

(** X5.  A token string that does not hold exactly two dots is refused as
    malformed, whatever the codec and the secret, and the clock is not
    read. *)
Theorem ValidateToken_wrong_dot_count `{Codec}
    (tokenString : string) (secret : list byte) (w : World) :
  dots tokenString ≠ 2%nat →
  auth.ValidateToken tokenString secret w
  = (Ret (None,
          Some (wrapError "malformed token: "
                  (jwt.newError "token contains an invalid number of segments"
                     (errVar jwt_ErrTokenMalformed) None) "")), w).
Proof.
  intros Hd. unfold auth.ValidateToken, jwt_token.ParseWithClaims, jwt_token.ParseUnverified.
  rewrite token_facts.Split_length. fold (dots tokenString).
  destruct (S (dots tokenString) =? 3)%nat eqn:E; [apply Nat.eqb_eq in E; lia|].
  reflexivity.
Qed.

Lemma ValidateToken_wrong_dot_count_witness :
  dots "a.b.c.d" ≠ 2%nat
  ∧ @auth.ValidateToken fixture.codec "a.b.c.d" (bytesOf "secret") (fixture.world 0%Z)
    = (Ret (None,
            Some (wrapError "malformed token: "
                    (jwt.newError "token contains an invalid number of segments"
                       (errVar jwt_ErrTokenMalformed) None) "")), fixture.world 0%Z).
Proof.
  assert (Hd : dots "a.b.c.d" ≠ 2%nat) by (vm_compute; lia).
  split; [exact Hd|].
  exact (ValidateToken_wrong_dot_count (H := fixture.codec) "a.b.c.d" (bytesOf "secret")
           (fixture.world 0%Z) Hd).
Defined.

(** X6.  A token string that decodes, under an HMAC method, but whose
    signature is not the keyed hash of its first two segments under the
    secret is refused as "invalid token signature", around
    [jwt.ErrTokenSignatureInvalid]; its dates are not looked at and the
    clock is not read. *)
Theorem ValidateToken_bad_signature `{Codec}
    (tokenString : string) (secret : list byte) (w : World)
    (h : jwt.Hash) (claims : CustomClaims) (sig : list byte) (signed : string) :
  decodesTo tokenString h claims sig signed →
  sig ≠ hmac h secret (bytesOf signed) →
  ∃ inner : error,
    auth.ValidateToken tokenString secret w
    = (Ret (None, Some (wrapError "invalid token signature: " inner "")), w)
    ∧ errors.Is inner jwt_ErrTokenSignatureInvalid = true.
Proof.
  intros Hdec Hsig.
  destruct (token_facts.ParseWithClaims_decoded _ _ _ _ _ secret w Hdec) as (header & E).
  unfold auth.ValidateToken, mbind, M_bind. rewrite E.
  cbv zeta. rewrite bool_decide_eq_false_2 by done.
  eexists. split; reflexivity.
Qed.

(** The sample token decodes to the sample claims. *)
Lemma sample_token_decodes :
  @decodesTo sample.codec sample.token jwt.SHA256 sample.claims
    (@hmac sample.codec jwt.SHA256 (bytesOf "secret")
       (bytesOf (sample.segment 0 +:+ "." +:+ sample.segment 1)))
    (sample.segment 0 +:+ "." +:+ sample.segment 1).
Proof.
  exists (sample.segment 0), (sample.segment 1), (sample.segment 2).
  eexists _, _, _.
  split; [vm_compute; reflexivity|]. split; [reflexivity|].
  split; [apply token_facts.noDot_check; vm_compute; reflexivity|].
  split; [apply token_facts.noDot_check; vm_compute; reflexivity|].
  split; [apply token_facts.noDot_check; vm_compute; reflexivity|].
  split; [vm_compute; reflexivity|]. split; [vm_compute; reflexivity|].
  split; [vm_compute; reflexivity|]. split; [vm_compute; reflexivity|].
  split; [vm_compute; reflexivity|]. vm_compute; reflexivity.
Qed.

Lemma ValidateToken_bad_signature_witness :
  ∃ inner : error,
    @auth.ValidateToken sample.codec sample.token (bytesOf "other") (fixture.world sample.now)
    = (Ret (None, Some (wrapError "invalid token signature: " inner "")),
       fixture.world sample.now)
    ∧ errors.Is inner jwt_ErrTokenSignatureInvalid = true.
Proof.
  apply (ValidateToken_bad_signature (H := sample.codec) sample.token (bytesOf "other")
           (fixture.world sample.now) jwt.SHA256 sample.claims _ _
           sample_token_decodes).
  vm_compute. intros E; discriminate E.
Defined.

(** X7.  A token string that decodes, under an HMAC method, and whose
    signature is the keyed hash of its first two segments under the secret
    is judged by its dates against one reading [now] of the clock: with
    [exp ≤ now] it is refused as "token expired" (also when it is not yet
    valid either), otherwise with [now < nbf] as "token not valid yet", and
    otherwise its claims are returned. *)
Theorem ValidateToken_signed_token_verdict `{Codec}
    (tokenString : string) (secret : list byte) (w : World)
    (h : jwt.Hash) (claims : CustomClaims) (sig : list byte) (signed : string) :
  decodesTo tokenString h claims sig signed →
  sig = hmac h secret (bytesOf signed) →
  (expiredAt claims (wall w (ticks w)) →
     ∃ inner : error,
       auth.ValidateToken tokenString secret w
       = (Ret (None, Some (wrapError "token expired: " inner "")), tick w)
       ∧ errors.Is inner jwt_ErrTokenExpired = true)
  ∧ (¬ expiredAt claims (wall w (ticks w)) → notYetValidAt claims (wall w (ticks w)) →
       ∃ inner : error,
         auth.ValidateToken tokenString secret w
         = (Ret (None, Some (wrapError "token not valid yet: " inner "")), tick w)
         ∧ errors.Is inner jwt_ErrTokenNotValidYet = true)
  ∧ (¬ expiredAt claims (wall w (ticks w)) → ¬ notYetValidAt claims (wall w (ticks w)) →
       auth.ValidateToken tokenString secret w = (Ret (Some claims, None), tick w)).
Proof.
  intros Hdec ->.
  split; [|split; [|intros He Hn; by eapply token_facts.ValidateToken_accepts]].
  - intros He. by eapply token_facts.ValidateToken_expired.
  - intros He Hn.
    destruct (token_facts.ParseWithClaims_decoded _ _ _ _ _ secret w Hdec) as (header & E).
    unfold auth.ValidateToken, mbind, M_bind. rewrite E. clear E.
    cbv zeta. rewrite bool_decide_eq_true_2 by done.
    unfold jwt_token.Validate, mbind, M_bind, mret, M_ret, tick. cbn [time_Now fst snd].
    destruct (token_facts.verifyExpiresAt_spec claims (wall w (ticks w))) as [[? _]|[_ ->]];
      [done|].
    destruct (token_facts.verifyNotBefore_spec claims (wall w (ticks w))) as [[_ ->]|[? _]];
      [|done].
    eexists; split; reflexivity.
Qed.

Lemma ValidateToken_signed_token_verdict_witness :
  @auth.ValidateToken sample.codec sample.token (bytesOf "secret") (fixture.world sample.now)
    = (Ret (Some sample.claims, None), tick (fixture.world sample.now))
  ∧ ∃ inner : error,
      @auth.ValidateToken sample.codec sample.token (bytesOf "secret")
         (fixture.world 1700003600000000000%Z)
      = (Ret (None, Some (wrapError "token expired: " inner "")),
         tick (fixture.world 1700003600000000000%Z))
      ∧ errors.Is inner jwt_ErrTokenExpired = true.
Proof.
  split.
  - apply (proj2 (proj2 (ValidateToken_signed_token_verdict (H := sample.codec) sample.token
                          (bytesOf "secret") (fixture.world sample.now) jwt.SHA256 sample.claims
                          _ _ sample_token_decodes eq_refl))).
    + intros (e & [= <-] & Hle). vm_compute in Hle. by apply Hle.
    + intros (e & [= <-] & Hlt). vm_compute in Hlt. discriminate Hlt.
  - apply (proj1 (ValidateToken_signed_token_verdict (H := sample.codec) sample.token
                    (bytesOf "secret") (fixture.world 1700003600000000000%Z) jwt.SHA256
                    sample.claims _ _ sample_token_decodes eq_refl)).
    eexists. split; [reflexivity|]. vm_compute. intros E; discriminate E.
Defined.

(** X8.  Issuing, then validating.  With a codec that gives back the
    header, the claims and the signature it was given, the string that
    [GenerateAccessToken] returns for [userID] decodes to the claims it
    signed, which name [userID], and [ValidateToken] under the same secret
    returns those claims at every clock reading from not-before (the third
    reading at issue, in whole seconds) up to, but not including, expires-at
    (the first reading plus the ttl, in whole seconds). *)
Theorem GenerateAccessToken_then_ValidateToken `{Codec}
    (userID : UUID) (secret : list byte) (ttl : Duration) (w w1 : World)
    (claims : CustomClaims) :
  auth.newClaims userID ttl w = (Ret claims, w1) →
  faithfulOn claims secret →
  ∃ tok signed : string,
    auth.GenerateAccessToken userID secret ttl w = (Ret (tok, None), w1)
    ∧ decodesTo tok jwt.SHA256 claims (hmac jwt.SHA256 secret (bytesOf signed)) signed
    ∧ UserID claims = userID
    ∧ jwt.Subject (Registered claims) = uuid.String userID
    ∧ ∀ w2 : World,
        (time.Truncate (wall w (S (S (ticks w)))) time.Second ≤ wall w2 (ticks w2))%Z →
        (wall w2 (ticks w2) < time.Truncate (time.Add (wall w (ticks w)) ttl) time.Second)%Z →
        auth.ValidateToken tok secret w2 = (Ret (Some claims, None), tick w2).
Proof.
  intros Hc Hf.
  destruct (token_facts.signAccessToken_decodes claims secret w1 Hf) as (tok & signed & Es & Hdec).
  exists tok, signed.
  unfold auth.GenerateAccessToken, mbind, M_bind. rewrite Hc, Es.
  split; [reflexivity|]. split; [exact Hdec|].
  revert Hc. unfold auth.newClaims, time_Now. run. intros [= <- _].
  split; [reflexivity|]. split; [reflexivity|].
  intros w2 Hnbf Hexp. apply (token_facts.ValidateToken_accepts _ _ _ _ _ _ Hdec).
  - intros (e & [= <-] & Hle). unfold jwt.NewNumericDate, jwt.TimePrecision in Hle. lia.
  - intros (e & [= <-] & Hlt). unfold jwt.NewNumericDate, jwt.TimePrecision in Hlt. lia.
Qed.

Lemma GenerateAccessToken_then_ValidateToken_witness :
  @auth.GenerateAccessToken sample.codec fixture.user7 (bytesOf "secret") time.Hour
     (fixture.world sample.now)
  = (Ret (sample.token, None), snd (auth.newClaims fixture.user7 time.Hour
                                      (fixture.world sample.now)))
  ∧ ∃ tok : string,
      fst (@auth.GenerateAccessToken sample.codec fixture.user7 (bytesOf "secret") time.Hour
             (fixture.world sample.now)) = Ret (tok, None)
      ∧ @auth.ValidateToken sample.codec tok (bytesOf "secret") (fixture.world sample.now)
        = (Ret (Some sample.claims, None), tick (fixture.world sample.now)).
Proof.
  split; [vm_compute; reflexivity|].
  assert (Hf : @faithfulOn sample.codec sample.claims (bytesOf "secret")).
  { eexists _, _, _. split; [reflexivity|]. split; [reflexivity|].
    split; [vm_compute; reflexivity|]. split; [vm_compute; reflexivity|].
    split; [reflexivity|].
    split; [apply token_facts.noDot_check; vm_compute; reflexivity|].
    split; [apply token_facts.noDot_check; vm_compute; reflexivity|].
    split; [apply token_facts.noDot_check; vm_compute; reflexivity|].
    split; [vm_compute; reflexivity|]. split; vm_compute; reflexivity. }
  destruct (GenerateAccessToken_then_ValidateToken (H := sample.codec) fixture.user7
              (bytesOf "secret") time.Hour (fixture.world sample.now) _ sample.claims
              eq_refl Hf) as (tok & signed & Eg & _ & _ & _ & Hv).
  exists tok. split; [by rewrite Eg|]. apply Hv.
  - vm_compute. intros E; discriminate E.
  - vm_compute. reflexivity.
Defined.

(** X9.  A refresh token is an access token: for the same user, secret,
    ttl and clock, [GenerateRefreshToken] returns a string exactly when
    [GenerateAccessToken] returns it, so nothing in a token tells the two
    kinds apart and [ValidateToken] accepts either. *)
Theorem refresh_token_is_access_token `{Codec}
    (userID : UUID) (secret : list byte) (ttl : Duration) (w w' : World) (tok : string) :
  auth.GenerateRefreshToken userID secret ttl w = (Ret (tok, None), w')
  ↔ auth.GenerateAccessToken userID secret ttl w = (Ret (tok, None), w').
Proof.
  unfold auth.GenerateRefreshToken, auth.GenerateAccessToken, mbind, M_bind.
  destruct (auth.newClaims userID ttl w) as [[claims|v] w1]; [|done].
  unfold auth.signRefreshToken, auth.signAccessToken, mbind, M_bind.
  destruct (jwt_token.SignedString _ secret w1) as [[[e|s]|v] w2]; done.
Qed.

(** ** More about the login service and the password helpers *)

(** A digest against which the sample password verifies. *)
Lemma sample_digest :
  ∃ digest : string, @auth.CheckPasswordHash fixture.tables "password123" digest = true.
Proof.
  destruct (bcrypt_ok (H := fixture.tables) (bytesOf "password123") 10 (replicate 16 zero)
              eq_refl) as (h & Eh & Hh).
  exists (stringOf (bcrypt.Hash (hashedWith (replicate 16 zero) h))).
  by apply CheckPasswordHash_digest.
Qed.

(** X10.  [Login] returns a pair of tokens and no error exactly when the
    store finds the user without error, the password passes the hash check
    against the stored digest, and both tokens are signed: the access token
    is the one [GenerateAccessToken] gives for the found user's ID with the
    access duration, the refresh token the one [GenerateRefreshToken] gives
    right after it with the refresh duration. *)
Theorem Login_tokens_iff `{Codec} `{Tables}
    (s : auth.authService) (req : request.LoginRequest) (w w' : World)
    (accessToken refreshToken : string) :
  auth.Login s req w = (Ret (accessToken, refreshToken, None), w')
  ↔ ∃ (user : domain.User) (w1 w2 : World),
      domain.FindByEmail (auth.userRepo s) (request.Email req) w = (Ret (Some user, None), w1)
      ∧ auth.CheckPasswordHash (request.Password req) (domain.PasswordHash user) = true
      ∧ auth.GenerateAccessToken (domain.ID user) (auth.jwtSecret s)
          (auth.accessTokenDuration s) w1 = (Ret (accessToken, None), w2)
      ∧ auth.GenerateRefreshToken (domain.ID user) (auth.jwtSecret s)
          (auth.refreshTokenDuration s) w2 = (Ret (refreshToken, None), w').
Proof.
  unfold auth.Login. unfold mbind at 1, M_bind at 1. split.
  - destruct (domain.FindByEmail (auth.userRepo s) (request.Email req) w)
      as [[[user e]|v] w1]; [|discriminate].
    destruct e as [e|].
    { destruct (errors.Is e domain_ErrNotFound); discriminate. }
    destruct user as [user|]; [|discriminate].
    destruct (auth.CheckPasswordHash _ _) eqn:Echeck; [|discriminate].
    cbn [negb]. unfold mbind at 1, M_bind at 1.
    destruct (auth.GenerateAccessToken _ _ _ w1) as [[[a e]|v] w2] eqn:Ea; [|discriminate].
    destruct e as [e|]; [discriminate|].
    unfold mbind, M_bind.
    destruct (auth.GenerateRefreshToken _ _ _ w2) as [[[r e]|v] w3] eqn:Er; [|discriminate].
    destruct e as [e|]; [discriminate|].
    intros [= <- <- <-]. by exists user, w1, w2.
  - intros (user & w1 & w2 & -> & -> & Ea & Er).
    cbn [negb]. unfold mbind at 1, M_bind at 1. rewrite Ea.
    unfold mbind, M_bind. rewrite Er. reflexivity.
Qed.

Lemma Login_tokens_iff_witness :
  ∃ (digest accessToken refreshToken : string) (w' : World),
    @auth.Login sample.codec fixture.tables
       (fixture.service (sample.repoWith (sample.stored digest))) fixture.login
       (fixture.world sample.now)
    = (Ret (accessToken, refreshToken, None), w')
    ∧ accessToken = sample.token.
Proof.
  destruct sample_digest as (digest & Hc).
  exists digest, sample.token. eexists _, _. split; [|reflexivity].
  apply Login_tokens_iff. exists (sample.stored digest). eexists _, _.
  split; [reflexivity|]. split; [exact Hc|].
  cbn [domain.ID sample.stored fixture.service auth.jwtSecret auth.accessTokenDuration
       auth.refreshTokenDuration].
  split.
  - instantiate (1 := snd (@auth.GenerateAccessToken sample.codec fixture.user7
                             (bytesOf "secret") time.Hour (fixture.world sample.now))).
    vm_compute. reflexivity.
  - match goal with |- ?g = _ =>
      instantiate (1 := snd g);
      instantiate (1 := match fst g with Ret (t, _) => t | Panic _ => "" end) end.
    vm_compute. reflexivity.
Defined.

(** X11.  [Login] reads the stored user only through its ID and its
    password hash: two stores that answer with users that agree on these
    two fields, whatever their names, roles, dates and active flags, give
    the same outcome.  In particular a deactivated account logs in like an
    active one. *)
Theorem Login_ignores_account_state `{Codec} `{Tables}
    (repo1 repo2 : domain.UserRepository) (secret : list byte)
    (accessDuration refreshDuration : Duration)
    (req : request.LoginRequest) (w w1 : World) (u1 u2 : domain.User) :
  domain.FindByEmail repo1 (request.Email req) w = (Ret (Some u1, None), w1) →
  domain.FindByEmail repo2 (request.Email req) w = (Ret (Some u2, None), w1) →
  domain.ID u1 = domain.ID u2 →
  domain.PasswordHash u1 = domain.PasswordHash u2 →
  auth.Login {| auth.userRepo := repo1; auth.jwtSecret := secret;
                auth.accessTokenDuration := accessDuration;
                auth.refreshTokenDuration := refreshDuration |} req w
  = auth.Login {| auth.userRepo := repo2; auth.jwtSecret := secret;
                  auth.accessTokenDuration := accessDuration;
                  auth.refreshTokenDuration := refreshDuration |} req w.
Proof.
  intros E1 E2 Eid Ehash. unfold auth.Login.
  unfold mbind at 1 4, M_bind at 1 4. cbn [auth.userRepo]. rewrite E1, E2.
  by rewrite Eid, Ehash.
Qed.

Lemma Login_ignores_account_state_witness :
  domain.IsActive (sample.account true) ≠ domain.IsActive (sample.account false)
  ∧ @auth.Login fixture.codec fixture.tables
      (fixture.service (sample.repoWith (sample.account true))) fixture.login
      (fixture.world 0%Z)
    = @auth.Login fixture.codec fixture.tables
        (fixture.service (sample.repoWith (sample.account false))) fixture.login
        (fixture.world 0%Z).
Proof.
  split; [discriminate|].
  exact (Login_ignores_account_state (H := fixture.codec) (H0 := fixture.tables)
           (sample.repoWith (sample.account true)) (sample.repoWith (sample.account false))
           (bytesOf "secret") time.Hour (24 * time.Hour)%Z fixture.login
           (fixture.world 0%Z) (fixture.world 0%Z) _ _ eq_refl eq_refl eq_refl eq_refl).
Defined.

(** X12.  A stored hash that is no bcrypt digest, because it is shorter
    than 59 bytes (an empty column, a plaintext password) or does not start
    with a dollar sign, verifies against no password, and [Login] answers
    a user stored with such a hash with [ErrInvalidCredentials] and no
    token, without reading the clock. *)
Theorem CheckPasswordHash_malformed_digest `{Codec} `{Tables} (password hash : string) :
  (length (bytesOf hash) < 59)%nat ∨ (∃ c rest, hash = String c rest ∧ c ≠ "$"%char) →
  auth.CheckPasswordHash password hash = false
  ∧ ∀ (s : auth.authService) (req : request.LoginRequest) (w w1 : World) (user : domain.User),
      domain.FindByEmail (auth.userRepo s) (request.Email req) w = (Ret (Some user, None), w1) →
      domain.PasswordHash user = hash → request.Password req = password →
      auth.Login s req w = (Ret ("", "", Some auth.ErrInvalidCredentials), w1).
Proof.
  intros Hbad.
  assert (Hc : auth.CheckPasswordHash password hash = false).
  { unfold auth.CheckPasswordHash, bcrypt.CompareHashAndPassword, bcrypt.newFromHash.
    destruct (length (bytesOf hash) <? bcrypt.minHashSize)%nat eqn:Elen; [reflexivity|].
    destruct Hbad as [Hshort|(c & rest & -> & Hc)].
    { apply Nat.ltb_ge in Elen. unfold bcrypt.minHashSize in Elen. lia. }
    unfold bcrypt.decodeVersion.
    change (bytesOf (String c rest) !!! 0%nat) with c.
    destruct (Ascii.eqb c "$") eqn:E; [by apply Ascii.eqb_eq in E|]. reflexivity. }
  split; [exact Hc|].
  intros s req w w1 user Hfind Hhash Hpw. unfold auth.Login.
  unfold mbind, M_bind. rewrite Hfind, Hhash, Hpw, Hc. reflexivity.
Qed.

Lemma CheckPasswordHash_malformed_digest_witness :
  (length (bytesOf "password123") < 59)%nat
  ∧ @auth.CheckPasswordHash fixture.tables "password123" "password123" = false
  ∧ @auth.Login fixture.codec fixture.tables
      (fixture.service (sample.repoWith (sample.account true))) fixture.login
      (fixture.world 0%Z)
    = (Ret ("", "", Some auth.ErrInvalidCredentials), fixture.world 0%Z).
Proof.
  assert (Hlen : (length (bytesOf "password123") < 59)%nat) by (vm_compute; lia).
  split; [exact Hlen|].
  destruct (CheckPasswordHash_malformed_digest (H := fixture.codec) (H0 := fixture.tables)
              "password123" "password123" (or_introl Hlen)) as [Hc Hl].
  split; [exact Hc|].
  exact (Hl (fixture.service (sample.repoWith (sample.account true))) fixture.login
            (fixture.world 0%Z) (fixture.world 0%Z) (sample.account true)
            eq_refl eq_refl eq_refl).
Defined.

#[local] Transparent bcrypt.Hash.

(** How [Hash] lays a record of the default cost out. *)
Lemma Hash_layout (salt16 h : list byte) :
  length salt16 = 16%nat → length h = 31%nat →
  bcrypt.Hash (hashedWith salt16 h) = bytesOf "$2a$10$" ++ bcrypt.base64Encode salt16 ++ h.
Proof.
  intros Hs Hh. destruct (base64Encode_salt salt16 Hs) as [Hl _].
  unfold hashedWith. generalize dependent (bcrypt.base64Encode salt16). intros salt Hl.
  do 23 (destruct salt as [|? salt]; try discriminate Hl).
  do 32 (destruct h as [|? h]; try discriminate Hh).
  reflexivity.
Qed.

#[local] Opaque bcrypt.Hash.

(** X13.  The digest that [HashPassword] returns for a password of at most
    72 bytes is the text [$2a$10$], the 22 characters that encode the
    sixteen bytes of salt just drawn, and the 31 characters of the hash:
    version, cost and salt stand in it in the clear.  The call draws those
    sixteen bytes of entropy and touches nothing else of the world. *)
Theorem HashPassword_digest_layout `{Tables} (p : string) (w : World) (salt : list byte) :
  (length (bytesOf p) ≤ 72)%nat →
  readFrom (entropy w) (drawn w) 16 = inr salt →
  ∃ h : list byte,
    bcrypt.bcrypt (bytesOf p) bcrypt.DefaultCost (bcrypt.base64Encode salt) = inr h
    ∧ length (bcrypt.base64Encode salt) = 22%nat
    ∧ length h = 31%nat
    ∧ auth.HashPassword p w
      = (Ret (stringOf (bytesOf "$2a$10$" ++ bcrypt.base64Encode salt ++ h), None), drew w).
Proof.
  intros Hlen Hsalt. apply Nat.ltb_ge in Hlen.
  pose proof (readFrom_length _ _ _ _ Hsalt) as Hs.
  destruct (bcrypt_ok (bytesOf p) 10 salt Hs) as (h & Eh & Hh).
  destruct (base64Encode_salt salt Hs) as [Hl _].
  exists h. change bcrypt.DefaultCost with 10%Z.
  split; [exact Eh|]. split; [exact Hl|]. split; [exact Hh|].
  by rewrite HashPassword_spec, Hlen, Hsalt, Eh, Hash_layout.
Qed.

Lemma HashPassword_digest_layout_witness :
  (length (bytesOf "password123") ≤ 72)%nat
  ∧ ∃ h : list byte,
      length h = 31%nat
      ∧ @auth.HashPassword fixture.tables "password123" (fixture.world 0%Z)
        = (Ret (stringOf (bytesOf "$2a$10$"
                          ++ bcrypt.base64Encode (map ascii_of_nat (seq 0 16)) ++ h), None),
           drew (fixture.world 0%Z)).
Proof.
  assert (Hlen : (length (bytesOf "password123") ≤ 72)%nat) by (vm_compute; lia).
  split; [exact Hlen|].
  destruct (HashPassword_digest_layout (H := fixture.tables) "password123" (fixture.world 0%Z)
              (map ascii_of_nat (seq 0 16)) Hlen eq_refl) as (h & _ & _ & Hh & E).
  exists h. split; [exact Hh|exact E].
Defined.

(** X23.  Expiry is judged in whole seconds.  A token whose ttl ends
    within the second in which it was issued carries an expires-at that is
    not after the time of issue, so that [ValidateToken] refuses it as
    expired at that very time, and at any later one: with a positive ttl
    below one second [GenerateAccessToken] can return a token that is never
    valid. *)
Theorem short_lived_token_born_expired `{Codec}
    (userID : UUID) (secret : list byte) (ttl : Duration) (w w1 w2 : World)
    (claims : CustomClaims) :
  auth.newClaims userID ttl w = (Ret claims, w1) →
  faithfulOn claims secret →
  (time.Truncate (time.Add (wall w (ticks w)) ttl) time.Second ≤ wall w2 (ticks w2))%Z →
  ∃ (tok : string) (inner : error),
    auth.GenerateAccessToken userID secret ttl w = (Ret (tok, None), w1)
    ∧ auth.ValidateToken tok secret w2
      = (Ret (None, Some (wrapError "token expired: " inner "")), tick w2)
    ∧ errors.Is inner jwt_ErrTokenExpired = true.
Proof.
  intros Hc Hf Hexp.
  destruct (token_facts.signAccessToken_decodes claims secret w1 Hf) as (tok & signed & Es & Hdec).
  assert (He : expiredAt claims (wall w2 (ticks w2))).
  { revert Hc. unfold auth.newClaims, time_Now. run. intros [= <- _].
    eexists. split; [reflexivity|]. exact Hexp. }
  destruct (token_facts.ValidateToken_expired tok secret w2 _ _ _ Hdec He) as (inner & Ev & His).
  exists tok, inner. split; [|by split].
  unfold auth.GenerateAccessToken, mbind, M_bind. by rewrite Hc, Es.
Qed.

Lemma short_lived_token_born_expired_witness :
  (0 < time.Nanosecond)%Z
  ∧ ∃ (tok : string) (inner : error),
      fst (@auth.GenerateAccessToken sample.codec fixture.user7 (bytesOf "secret")
             time.Nanosecond (fixture.world sample.now)) = Ret (tok, None)
      ∧ @auth.ValidateToken sample.codec tok (bytesOf "secret") (fixture.world sample.now)
        = (Ret (None, Some (wrapError "token expired: " inner "")),
           tick (fixture.world sample.now)).
Proof.
  split; [reflexivity|].
  assert (Hf : @faithfulOn sample.codec sample.shortClaims (bytesOf "secret")).
  { eexists _, _, _. split; [reflexivity|]. split; [reflexivity|].
    split; [vm_compute; reflexivity|]. split; [vm_compute; reflexivity|].
    split; [reflexivity|].
    split; [apply token_facts.noDot_check; vm_compute; reflexivity|].
    split; [apply token_facts.noDot_check; vm_compute; reflexivity|].
    split; [apply token_facts.noDot_check; vm_compute; reflexivity|].
    split; [vm_compute; reflexivity|]. split; vm_compute; reflexivity. }
  destruct (short_lived_token_born_expired (H := sample.codec) fixture.user7
              (bytesOf "secret") time.Nanosecond (fixture.world sample.now) _
              (fixture.world sample.now) sample.shortClaims eq_refl Hf)
    as (tok & inner & Eg & Ev & _).
  { vm_compute. intros E; discriminate E. }
  exists tok, inner. split; [by rewrite Eg|exact Ev].
Defined.

(** With such a digest in the store, the sample login succeeds and its
    access token is the sample token. *)
Lemma sample_login (digest : string) :
  @auth.CheckPasswordHash fixture.tables "password123" digest = true →
  ∃ (refreshToken : string) (w' : World),
    @auth.Login sample.codec fixture.tables
       (fixture.service (sample.repoWith (sample.stored digest))) fixture.login
       (fixture.world sample.now)
    = (Ret (sample.token, refreshToken, None), w').
Proof.
  intros Hc.
  pose (g := @auth.GenerateRefreshToken sample.codec fixture.user7 (bytesOf "secret")
               (24 * time.Hour)%Z
               (snd (@auth.GenerateAccessToken sample.codec fixture.user7 (bytesOf "secret")
                       time.Hour (fixture.world sample.now)))).
  exists (match fst g with Ret (t, _) => t | Panic _ => "" end), (snd g).
  unfold auth.Login. unfold mbind at 1, M_bind at 1.
  cbn [domain.FindByEmail auth.userRepo fixture.service sample.repoWith mret M_ret
       request.Password request.Email fixture.login domain.PasswordHash domain.ID
       sample.stored auth.jwtSecret auth.accessTokenDuration auth.refreshTokenDuration].
  rewrite Hc. subst g. vm_compute. reflexivity.
Qed.

(** X24.  Logging in, then presenting the token.  With a codec that is
    faithful on them, the access token that [Login] returns carries the
    claims built for the ID of the user that the store found, and the helper
    [ValidateToken] under the secret of the service returns those claims at
    every clock reading at which they are neither expired nor not yet
    valid.  The method [ValidateToken] of the same service, which the gate
    consults, still refuses that token. *)
Theorem Login_access_token_validates `{Codec} `{Tables}
    (s : auth.authService) (req : request.LoginRequest) (w w' w1 w1' : World)
    (accessToken refreshToken : string) (user : domain.User) (claims : CustomClaims) :
  auth.Login s req w = (Ret (accessToken, refreshToken, None), w') →
  domain.FindByEmail (auth.userRepo s) (request.Email req) w = (Ret (Some user, None), w1) →
  auth.newClaims (domain.ID user) (auth.accessTokenDuration s) w1 = (Ret claims, w1') →
  faithfulOn claims (auth.jwtSecret s) →
  UserID claims = domain.ID user
  ∧ ∀ w2 : World,
      ¬ expiredAt claims (wall w2 (ticks w2)) →
      ¬ notYetValidAt claims (wall w2 (ticks w2)) →
      auth.ValidateToken accessToken (auth.jwtSecret s) w2
      = (Ret (Some claims, None), tick w2)
      ∧ ∃ e : error,
          fst (auth.authService_ValidateToken s accessToken w2) = Ret (uuid.Nil, Some e).
Proof.
  intros Hlogin Hfind Hc Hf.
  destruct (token_facts.signAccessToken_decodes claims (auth.jwtSecret s) w1' Hf)
    as (tok & signed & Es & Hdec).
  assert (Ea : accessToken = tok).
  { revert Hlogin. unfold auth.Login. unfold mbind at 1, M_bind at 1. rewrite Hfind.
    destruct (auth.CheckPasswordHash _ _); [|discriminate]. cbn [negb].
    unfold mbind at 1, M_bind at 1.
    unfold auth.GenerateAccessToken at 1. unfold mbind at 1, M_bind at 1. rewrite Hc, Es.
    unfold mbind, M_bind.
    destruct (auth.GenerateRefreshToken _ _ _ w1') as [[[r e]|v] w3]; [|discriminate].
    destruct e; [discriminate|]. by intros [= <- _ _]. }
  subst accessToken. split.
  { revert Hc. unfold auth.newClaims, time_Now. run. by intros [= <- _]. }
  intros w2 He Hn. split; [by eapply token_facts.ValidateToken_accepts|].
  destruct (authService_ValidateToken_refuses s tok w2) as (e & w3 & E & _).
  exists e. by rewrite E.
Qed.

Lemma Login_access_token_validates_witness :
  ∃ (digest accessToken refreshToken : string) (w' : World),
    @auth.Login sample.codec fixture.tables
       (fixture.service (sample.repoWith (sample.stored digest))) fixture.login
       (fixture.world sample.now)
    = (Ret (accessToken, refreshToken, None), w')
    ∧ @auth.ValidateToken sample.codec accessToken (bytesOf "secret")
        (fixture.world sample.now)
      = (Ret (Some sample.claims, None), tick (fixture.world sample.now)).
Proof.
  destruct sample_digest as (digest & Hc).
  destruct (sample_login digest Hc) as (refreshToken & w' & El).
  exists digest, sample.token, refreshToken, w'. split; [exact El|].
  assert (Hf : @faithfulOn sample.codec sample.claims (bytesOf "secret")).
  { eexists _, _, _. split; [reflexivity|]. split; [reflexivity|].
    split; [vm_compute; reflexivity|]. split; [vm_compute; reflexivity|].
    split; [reflexivity|].
    split; [apply token_facts.noDot_check; vm_compute; reflexivity|].
    split; [apply token_facts.noDot_check; vm_compute; reflexivity|].
    split; [apply token_facts.noDot_check; vm_compute; reflexivity|].
    split; [vm_compute; reflexivity|]. split; vm_compute; reflexivity. }
  apply (proj2 (Login_access_token_validates (H := sample.codec) (H0 := fixture.tables)
                  (fixture.service (sample.repoWith (sample.stored digest))) fixture.login
                  (fixture.world sample.now) w' (fixture.world sample.now) _
                  sample.token refreshToken (sample.stored digest) sample.claims
                  El eq_refl eq_refl Hf) (fixture.world sample.now)).
  - intros (e & [= <-] & Hle). vm_compute in Hle. by apply Hle.
  - intros (e & [= <-] & Hlt). vm_compute in Hlt. discriminate Hlt.
Defined.

(** ** The user service *)

Module service_facts.

(** The version and variant bits that [NewRandomFromReader] sets. *)
Lemma version_bits (b : byte) :
  Z.shiftr (byteVal (byteOf (Z.lor (Z.land (byteVal b) 15) 64))) 4 = 4%Z.
Proof. destruct b as [[] [] [] [] [] [] [] []]; reflexivity. Qed.

Lemma variant_bits (b : byte) :
  Z.shiftr (byteVal (byteOf (Z.lor (Z.land (byteVal b) 63) 128))) 6 = 2%Z.
Proof. destruct b as [[] [] [] [] [] [] [] []]; reflexivity. Qed.

Lemma NewRandom_spec (w : World) :
  uuid_version4.NewRandom w
  = match readFrom (entropy w) (drawn w) 16 with
    | inl err => (Ret (uuid.Nil, Some err), drew w)
    | inr bs =>
        let u : UUID := fun_to_vec (fun i : fin 16 => bs !!! fin_to_nat i) in
        let u := vinsert 6%fin (byteOf (Z.lor (Z.land (byteVal (u !!! 6%fin)) 15) 64)) u in
        let u := vinsert 8%fin (byteOf (Z.lor (Z.land (byteVal (u !!! 8%fin)) 63) 128)) u in
        (Ret (u, None), drew w)
    end.
Proof.
  unfold uuid_version4.NewRandom, uuid_version4.NewRandomFromReader, mbind, M_bind, drew.
  cbn [rand_ReadFull fst snd].
  destruct (readFrom (entropy w) (drawn w) 16); reflexivity.
Qed.

Lemma Debug_step (msg : string) (fields : list Field) (w : World) :
  zap.Debug msg fields w = (Ret tt, snd (zap.Debug msg fields w)).
Proof. reflexivity. Qed.

(** The three field updates, on a user that is there. *)
Lemma updateName_spec (req : UpdateUserRequest.t) (user : domain.User) (updated : bool)
    (w : World) :
  service.updateName req (Some user, updated) w
  = (Ret (Some {| domain.ID := domain.ID user;
                  domain.Name := default (domain.Name user) (UpdateUserRequest.Name req);
                  domain.Email := domain.Email user;
                  domain.PasswordHash := domain.PasswordHash user;
                  domain.IsActive := domain.IsActive user;
                  domain.Role := domain.Role user;
                  domain.CreatedAt := domain.CreatedAt user;
                  domain.UpdatedAt := domain.UpdatedAt user |},
          updated || match UpdateUserRequest.Name req with
                     | Some name => negb (String.eqb name (domain.Name user))
                     | None => false
                     end), w).
Proof.
  unfold service.updateName. destruct user, (UpdateUserRequest.Name req) as [name|];
    cbn [fst default domain.Name]; [|by rewrite orb_false_r].
  destruct (String.eqb_spec name Name); cbn [negb]; subst;
    [by rewrite orb_false_r|by rewrite orb_true_r].
Qed.

Lemma updateIsActive_spec (req : UpdateUserRequest.t) (user : domain.User) (updated : bool)
    (w : World) :
  service.updateIsActive req (Some user, updated) w
  = (Ret (Some {| domain.ID := domain.ID user;
                  domain.Name := domain.Name user;
                  domain.Email := domain.Email user;
                  domain.PasswordHash := domain.PasswordHash user;
                  domain.IsActive :=
                    default (domain.IsActive user) (UpdateUserRequest.IsActive req);
                  domain.Role := domain.Role user;
                  domain.CreatedAt := domain.CreatedAt user;
                  domain.UpdatedAt := domain.UpdatedAt user |},
          updated || match UpdateUserRequest.IsActive req with
                     | Some isActive => negb (Bool.eqb isActive (domain.IsActive user))
                     | None => false
                     end), w).
Proof.
  unfold service.updateIsActive. destruct user, (UpdateUserRequest.IsActive req) as [isActive|];
    cbn [fst default domain.IsActive]; [|by rewrite orb_false_r].
  destruct (Bool.eqb_spec isActive IsActive); cbn [negb]; subst;
    [by rewrite orb_false_r|by rewrite orb_true_r].
Qed.

Lemma updateRole_spec (req : UpdateUserRequest.t) (user : domain.User) (updated : bool)
    (w : World) :
  service.updateRole req (Some user, updated) w
  = (Ret (Some {| domain.ID := domain.ID user;
                  domain.Name := domain.Name user;
                  domain.Email := domain.Email user;
                  domain.PasswordHash := domain.PasswordHash user;
                  domain.IsActive := domain.IsActive user;
                  domain.Role := default (domain.Role user) (UpdateUserRequest.Role req);
                  domain.CreatedAt := domain.CreatedAt user;
                  domain.UpdatedAt := domain.UpdatedAt user |},
          updated || match UpdateUserRequest.Role req with
                     | Some role => negb (String.eqb role (domain.Role user))
                     | None => false
                     end), w).
Proof.
  unfold service.updateRole. destruct user, (UpdateUserRequest.Role req) as [role|];
    cbn [fst default domain.Role]; [|by rewrite orb_false_r].
  destruct (String.eqb_spec role Role); cbn [negb]; subst;
    [by rewrite orb_false_r|by rewrite orb_true_r].
Qed.

(** A request that differs in nothing leaves the user as it is. *)
Lemma differs_false (req : UpdateUserRequest.t) (user : domain.User) :
  differs req user = false →
  {| domain.ID := domain.ID user;
     domain.Name := default (domain.Name user) (UpdateUserRequest.Name req);
     domain.Email := domain.Email user;
     domain.PasswordHash := domain.PasswordHash user;
     domain.IsActive := default (domain.IsActive user) (UpdateUserRequest.IsActive req);
     domain.Role := default (domain.Role user) (UpdateUserRequest.Role req);
     domain.CreatedAt := domain.CreatedAt user;
     domain.UpdatedAt := domain.UpdatedAt user |} = user.
Proof.
  unfold differs. intros Hd.
  apply orb_false_elim in Hd as [Hd Hrole]. apply orb_false_elim in Hd as [Hname Hactive].
  destruct user, req as [[name|] [isActive|] [role|]];
    cbn [UpdateUserRequest.Name UpdateUserRequest.IsActive UpdateUserRequest.Role default
         domain.ID domain.Name domain.Email domain.PasswordHash domain.IsActive domain.Role
         domain.CreatedAt domain.UpdatedAt] in *;
    repeat match goal with
           | E : negb (String.eqb _ _) = false |- _ =>
               apply negb_false_iff, String.eqb_eq in E; subst
           | E : negb (Bool.eqb _ _) = false |- _ =>
               apply negb_false_iff, Bool.eqb_prop in E; subst
           end; reflexivity.
Qed.

(** Every way [Create] can end. *)
Lemma Create_outcome `{Tables}
    (s : service.userService) (req : CreateUserRequest.t) (w : World) :
  match service.Create s req w with
  | (Ret (resp, None), _) =>
      ∃ r : UserResponse.t,
        resp = Some r
        ∧ UserResponse.Name r = CreateUserRequest.Name req
        ∧ UserResponse.Email r = CreateUserRequest.Email req
        ∧ UserResponse.Role r = "user"
        ∧ UserResponse.IsActive r = true
  | (Ret (resp, Some e), _) =>
      resp = None ∧ (e = errVar domain_ErrDuplicateEntry ∨ wrapsNothing e)
  | (Panic _, _) => True
  end.
Proof.
  unfold service.Create. unfold mbind at 1, M_bind at 1.
  rewrite Debug_step. unfold mbind at 1, M_bind at 1.
  destruct (domain.FindByEmail _ _ _) as [[[existing e0]|v] w1]; [|done].
  destruct existing as [existing|].
  { split; [done|by left]. }
  unfold mbind at 1, M_bind at 1.
  destruct (auth.HashPassword _ w1) as [[[hashedPassword e1]|v] w2]; [|done].
  destruct e1 as [e1|].
  { split; [done|right; done]. }
  unfold mbind at 1, M_bind at 1.
  destruct (uuid_version4.NewRandom w2) as [[[newUUID e2]|v] w3]; [|done].
  destruct e2 as [e2|].
  { split; [done|right; done]. }
  unfold mbind at 1, M_bind at 1. cbn [time_Now].
  unfold mbind at 1, M_bind at 1.
  destruct (domain.Create _ _ _) as [[e3|v] w4]; [|done].
  destruct e3 as [e3|]; cbn [service.onStored].
  - unfold mbind, M_bind. cbn [zap.Error emit].
    destruct (errors.Is e3 domain_ErrDuplicateEntry);
      (split; [done|]); [by left|right; done].
  - eexists. split; [reflexivity|]. done.
Qed.

End service_facts.

(** X14.  Signing up, the good case.  When the store knows no user under
    the e-mail address (and whatever error came with that answer: it is not
    looked at), the password has at most 72 bytes and the entropy source
    yields 32 bytes, [Create] hands the store a user whose password hash
    verifies against the password of the request, who is active with the
    role [user], carries the name and address of the request, a version-4
    UUID and one clock reading as both dates; until then 32 bytes of entropy
    have been drawn, the clock has been read once and nothing more has been
    logged.  What [Create] returns is then decided by the answer of the
    store. *)
Theorem Create_stores_verifiable_hash `{Tables}
    (s : service.userService) (req : CreateUserRequest.t) (w w1 : World)
    (err : option error) (salt idBytes : list byte) :
  domain.FindByEmail (service.userRepo s) (CreateUserRequest.Email req)
    (snd (zap.Debug "Attempting user creation"
            [zap_String "email" (CreateUserRequest.Email req)] w))
  = (Ret (None, err), w1) →
  (length (bytesOf (CreateUserRequest.Password req)) ≤ 72)%nat →
  readFrom (entropy w1) (drawn w1) 16 = inr salt →
  readFrom (entropy w1) (drawn w1 + 16) 16 = inr idBytes →
  ∃ (newUser : domain.User) (w2 : World),
    service.Create s req w
    = (domain.Create (service.userRepo s) newUser ≫= service.onStored req newUser) w2
    ∧ auth.CheckPasswordHash (CreateUserRequest.Password req) (domain.PasswordHash newUser)
      = true
    ∧ domain.Name newUser = CreateUserRequest.Name req
    ∧ domain.Email newUser = CreateUserRequest.Email req
    ∧ domain.IsActive newUser = true
    ∧ domain.Role newUser = "user"
    ∧ domain.CreatedAt newUser = wall w1 (ticks w1)
    ∧ domain.UpdatedAt newUser = wall w1 (ticks w1)
    ∧ version (domain.ID newUser) = 4%Z
    ∧ variantBits (domain.ID newUser) = 2%Z
    ∧ drawn w2 = (drawn w1 + 32)%nat
    ∧ ticks w2 = S (ticks w1)
    ∧ trace w2 = trace w1.
Proof.
  intros Hfind Hlen Hsalt Hid. apply Nat.ltb_ge in Hlen.
  pose proof (readFrom_length _ _ _ _ Hsalt) as Hs.
  destruct (bcrypt_ok (bytesOf (CreateUserRequest.Password req)) 10 salt Hs) as (h & Eh & Hh).
  unfold service.Create. unfold mbind at 1, M_bind at 1.
  rewrite service_facts.Debug_step. unfold mbind at 1, M_bind at 1. rewrite Hfind.
  unfold mbind at 1, M_bind at 1. rewrite HashPassword_spec, Hlen, Hsalt, Eh.
  unfold mbind at 1, M_bind at 1. rewrite service_facts.NewRandom_spec.
  change (readFrom (entropy (drew w1)) (drawn (drew w1)) 16)
    with (readFrom (entropy w1) (drawn w1 + 16) 16).
  rewrite Hid. cbv zeta. unfold mbind at 1, M_bind at 1. cbn [time_Now].
  eexists _, _. split; [reflexivity|].
  cbn [domain.PasswordHash domain.Name domain.Email domain.IsActive domain.Role
       domain.CreatedAt domain.UpdatedAt domain.ID].
  split; [by apply CheckPasswordHash_digest|].
  do 6 (split; [reflexivity|]).
  split; [exact (service_facts.version_bits (idBytes !!! 6%nat))|].
  split; [exact (service_facts.variant_bits (idBytes !!! 8%nat))|].
  split; [cbn [drawn drew rand_ReadFull snd]; lia|]. split; reflexivity.
Qed.

Lemma Create_stores_verifiable_hash_witness :
  (length (bytesOf (CreateUserRequest.Password sample.signup)) ≤ 72)%nat
  ∧ fst (domain.FindByEmail fixture.brokenRepo "ada@example.com" (fixture.world sample.now))
    = Ret (None, Some (errNew "connection refused"))
  ∧ ∃ (newUser : domain.User) (w2 : World),
      @service.Create fixture.tables (sample.users fixture.brokenRepo)
         sample.signup (fixture.world sample.now)
      = (domain.Create fixture.brokenRepo newUser ≫= service.onStored sample.signup newUser) w2
      ∧ @auth.CheckPasswordHash fixture.tables "password123" (domain.PasswordHash newUser)
        = true
      ∧ version (domain.ID newUser) = 4%Z.
Proof.
  assert (Hlen : (length (bytesOf (CreateUserRequest.Password sample.signup)) ≤ 72)%nat)
    by (vm_compute; lia).
  split; [exact Hlen|]. split; [reflexivity|].
  destruct (Create_stores_verifiable_hash (H := fixture.tables)
              (sample.users fixture.brokenRepo) sample.signup
              (fixture.world sample.now) _ _ _ _ eq_refl Hlen eq_refl eq_refl)
    as (newUser & w2 & E & Hc & _ & _ & _ & _ & _ & _ & Hv & _).
  exists newUser, w2. split; [exact E|]. split; [exact Hc|exact Hv].
Defined.

(** X15.  Signing up with a password of more than 72 bytes.  The request
    types ask for at least eight characters and set no upper bound, so such
    a password can pass [Bind] and [Validate].  [Create] then answers
    "internal server error processing creation", an error that wraps nothing
    (the length limit of bcrypt is not told), before any entropy is drawn,
    the clock is read or the store is written; and [Register] turns that
    into a 500 "Failed to register user". *)
Theorem Register_long_password `{Tables} `{Texts}
    (authSvc : auth_iface.Service) (repo : domain.UserRepository) (c : handler.Context)
    (req : CreateUserRequest.t) (w wb wv w1 : World) (err : option error) :
  handler.Bind c w = (Ret (req, None), wb) →
  handler.Validate c req wb = (Ret None, wv) →
  domain.FindByEmail repo (CreateUserRequest.Email req)
    (snd (zap.Debug "Attempting user creation"
            [zap_String "email" (CreateUserRequest.Email req)] wv))
  = (Ret (None, err), w1) →
  (72 < length (bytesOf (CreateUserRequest.Password req)))%nat →
  service.Create {| service.userRepo := repo |} req wv
  = (Ret (None, Some (errNew "internal server error processing creation")), w1)
  ∧ wrapsNothing (errNew "internal server error processing creation")
  ∧ handler.Register (handler.NewAuthHandler authSvc (service.NewUserService repo)) c w
    = (Ret (Some (HTTPError 500 "Failed to register user")),
       snd (zap.Error "Internal error during user registration"
              [zap_Error (errNew "internal server error processing creation");
               zap_String "email" (CreateUserRequest.Email req)] w1)).
Proof.
  intros Hbind Hval Hfind Hlen. apply Nat.ltb_lt in Hlen.
  assert (E : service.Create {| service.userRepo := repo |} req wv
              = (Ret (None, Some (errNew "internal server error processing creation")), w1)).
  { unfold service.Create. unfold mbind at 1, M_bind at 1.
    rewrite service_facts.Debug_step. unfold mbind at 1, M_bind at 1.
    cbn [service.userRepo]. rewrite Hfind.
    unfold mbind at 1, M_bind at 1. rewrite HashPassword_spec, Hlen. reflexivity. }
  split; [exact E|]. split; [done|].
  unfold handler.Register. unfold mbind at 1, M_bind at 1. rewrite Hbind.
  unfold mbind at 1, M_bind at 1. rewrite Hval.
  unfold mbind at 1, M_bind at 1.
  cbn [handler.userService handler.NewAuthHandler service.NewUserService
       service_iface.Create].
  rewrite E. reflexivity.
Qed.

Lemma Register_long_password_witness :
  (72 < length (bytesOf (CreateUserRequest.Password sample.longSignup)))%nat
  ∧ @handler.Register sample.texts
      (handler.NewAuthHandler fixture.acceptAll
         (@service.NewUserService fixture.tables fixture.emptyRepo))
      (sample.contextWith sample.longSignup) (fixture.world 0%Z)
    = (Ret (Some (HTTPError 500 "Failed to register user")),
       snd (zap.Error "Internal error during user registration"
              [zap_Error (errNew "internal server error processing creation");
               zap_String "email" "ada@example.com"]
              (snd (zap.Debug "Attempting user creation"
                      [zap_String "email" "ada@example.com"] (fixture.world 0%Z))))).
Proof.
  assert (Hlen : (72 < length (bytesOf (CreateUserRequest.Password sample.longSignup)))%nat)
    by (vm_compute; lia).
  split; [exact Hlen|].
  exact (proj2 (proj2 (Register_long_password (H := fixture.tables) (H0 := sample.texts)
                         fixture.acceptAll fixture.emptyRepo
                         (sample.contextWith sample.longSignup) sample.longSignup
                         (fixture.world 0%Z) _ _ _ _ eq_refl eq_refl eq_refl Hlen))).
Defined.

(** X16.  What [Create] returns.  It never returns both a response and an
    error, nor neither.  Without error, the response carries the name and
    the address of the request, the role [user] and the active flag.  An
    error is either [domain.ErrDuplicateEntry] itself or a text that wraps
    nothing: what the store, the hashing or the entropy source reported
    goes to the log only. *)
Theorem Create_errors_wrap_nothing `{Tables}
    (s : service.userService) (req : CreateUserRequest.t) (w w' : World)
    (resp : option UserResponse.t) (err : option error) :
  service.Create s req w = (Ret (resp, err), w') →
  match err with
  | None =>
      ∃ r : UserResponse.t,
        resp = Some r
        ∧ UserResponse.Name r = CreateUserRequest.Name req
        ∧ UserResponse.Email r = CreateUserRequest.Email req
        ∧ UserResponse.Role r = "user"
        ∧ UserResponse.IsActive r = true
  | Some e => resp = None ∧ (e = errVar domain_ErrDuplicateEntry ∨ wrapsNothing e)
  end.
Proof.
  intros E. pose proof (service_facts.Create_outcome s req w) as Hout.
  rewrite E in Hout. destruct err; exact Hout.
Qed.

Lemma Create_errors_wrap_nothing_witness :
  ∃ (w' : World) (resp : option UserResponse.t) (e : error),
    @service.Create fixture.tables
       (sample.users (sample.repoWith (sample.account true)))
       sample.signup (fixture.world 0%Z)
    = (Ret (resp, Some e), w')
    ∧ resp = None
    ∧ (e = errVar domain_ErrDuplicateEntry ∨ wrapsNothing e).
Proof.
  eexists _, _, _. split; [reflexivity|].
  exact (Create_errors_wrap_nothing (H := fixture.tables)
           (sample.users (sample.repoWith (sample.account true)))
           sample.signup (fixture.world 0%Z) _ None (Some (errVar domain_ErrDuplicateEntry))
           eq_refl).
Defined.

(** X17.  Store errors behind [GetByID], [Update] and [Delete].  An error
    that any of the three returns comes without a response and is either
    [domain.ErrNotFound] itself, so that a caller may compare it with [==]
    even where the store had wrapped it, or a text that wraps nothing.
    [GetByID] and [Delete] return [domain.ErrNotFound] exactly when
    [errors.Is] finds it in the error of the store. *)
Theorem store_errors_are_masked
    (s : service.userService) (id : UUID) (req : UpdateUserRequest.t) (w : World) :
  (∀ resp e w', service.GetByID s id w = (Ret (resp, Some e), w') →
     resp = None
     ∧ (e = errVar domain_ErrNotFound ∨ wrapsNothing e)
     ∧ (e = errVar domain_ErrNotFound
        ↔ ∃ user serr w1,
            domain.FindByID (service.userRepo s) id
              (snd (zap.Debug "Getting user by ID" [zap_String "userID" (uuid.String id)] w))
            = (Ret (user, Some serr), w1)
            ∧ errors.Is serr domain_ErrNotFound = true))
  ∧ (∀ resp e w', service.Update s id req w = (Ret (resp, Some e), w') →
       resp = None ∧ (e = errVar domain_ErrNotFound ∨ wrapsNothing e))
  ∧ (∀ e w', service.Delete s id w = (Ret (Some e), w') →
       (e = errVar domain_ErrNotFound ∨ wrapsNothing e)
       ∧ (e = errVar domain_ErrNotFound
          ↔ ∃ serr w1,
              domain.Delete (service.userRepo s) id
                (snd (zap.Debug "Deleting user" [zap_String "userID" (uuid.String id)] w))
              = (Ret (Some serr), w1)
              ∧ errors.Is serr domain_ErrNotFound = true)).
Proof.
  split; [|split].
  - intros resp e w'. unfold service.GetByID. unfold mbind at 1, M_bind at 1.
    rewrite service_facts.Debug_step. unfold mbind at 1, M_bind at 1.
    destruct (domain.FindByID _ _ _) as [[[user serr]|v] w1]; [|discriminate].
    destruct serr as [serr|]; [|discriminate].
    unfold mbind, M_bind. cbn [zap.Warn emit].
    destruct (errors.Is serr domain_ErrNotFound) eqn:Eis; intros [= <- <- _].
    + split; [done|]. split; [by left|]. split; [|done]. intros _. by eexists _, _, _.
    + split; [done|]. split; [right; done|]. split; [discriminate|].
      intros (? & ? & ? & [= <- <- <-] & ?). congruence.
  - intros resp e w'. unfold service.Update. unfold mbind at 1, M_bind at 1.
    rewrite service_facts.Debug_step. unfold mbind at 1, M_bind at 1.
    destruct (domain.FindByID _ _ _) as [[[user serr]|v] w1]; [|discriminate].
    destruct serr as [serr|].
    { unfold mbind, M_bind. cbn [zap.Warn emit].
      destruct (errors.Is serr domain_ErrNotFound); intros [= <- <- _];
        (split; [done|]); [by left|right; done]. }
    unfold mbind at 1, M_bind at 1.
    destruct (service.updateName req (user, false) w1) as [[st1|v] w2]; [|discriminate].
    unfold mbind at 1, M_bind at 1.
    destruct (service.updateIsActive req st1 w2) as [[st2|v] w3]; [|discriminate].
    unfold mbind at 1, M_bind at 1.
    destruct (service.updateRole req st2 w3) as [[[user' updated]|v] w4]; [|discriminate].
    unfold service.save. destruct updated.
    + destruct user' as [user'|]; [|discriminate].
      unfold mbind at 1, M_bind at 1. cbn [time_Now].
      unfold mbind at 1, M_bind at 1.
      destruct (domain.Update _ _ _) as [[serr|v] w5]; [|discriminate].
      destruct serr as [serr|]; cbn [service.onUpdated]; unfold mbind, M_bind;
        cbn [zap.Error zap.Info emit]; [|discriminate].
      intros [= <- <- _]. split; [done|right; done].
    + unfold mbind, M_bind. cbn [zap.Debug emit]. discriminate.
  - intros e w'. unfold service.Delete. unfold mbind at 1, M_bind at 1.
    rewrite service_facts.Debug_step. unfold mbind at 1, M_bind at 1.
    destruct (domain.Delete _ _ _) as [[serr|v] w1]; [|discriminate].
    destruct serr as [serr|]; unfold mbind, M_bind; cbn [zap.Error zap.Info emit];
      [|discriminate].
    destruct (errors.Is serr domain_ErrNotFound) eqn:Eis; intros [= <- _].
    + split; [by left|]. split; [|done]. intros _. by eexists _, _.
    + split; [right; done|]. split; [discriminate|].
      intros (? & ? & [= <- <-] & ?). congruence.
Qed.

(** X18.  Updating a user that the store holds.  When no field set in the
    request differs from the stored user, [Update] writes nothing to the
    store and does not read the clock; it logs "No changes detected" and
    returns the stored user.  Otherwise the store is handed, after one
    reading of the clock, a user with the ID, the e-mail address, the
    password hash and the creation date of the stored one, the fields of the
    request where it sets them, and that reading as the update date. *)
Theorem Update_touches_three_fields
    (s : service.userService) (id : UUID) (req : UpdateUserRequest.t) (w w1 : World)
    (user : domain.User) :
  domain.FindByID (service.userRepo s) id
    (snd (zap.Debug "Updating user profile" [zap_String "userID" (uuid.String id)] w))
  = (Ret (Some user, None), w1) →
  if differs req user then
    ∃ user' : domain.User,
      service.Update s id req w
      = (domain.Update (service.userRepo s) user' ≫= service.onUpdated id user') (tick w1)
      ∧ domain.ID user' = domain.ID user
      ∧ domain.Email user' = domain.Email user
      ∧ domain.PasswordHash user' = domain.PasswordHash user
      ∧ domain.CreatedAt user' = domain.CreatedAt user
      ∧ domain.UpdatedAt user' = wall w1 (ticks w1)
      ∧ domain.Name user' = default (domain.Name user) (UpdateUserRequest.Name req)
      ∧ domain.IsActive user' = default (domain.IsActive user) (UpdateUserRequest.IsActive req)
      ∧ domain.Role user' = default (domain.Role user) (UpdateUserRequest.Role req)
  else
    service.Update s id req w
    = (Ret (service.mapUserToUserResponse (Some user), None),
       snd (zap.Debug "No changes detected for user update"
              [zap_String "userID" (uuid.String id)] w1)).
Proof.
  intros Hfind.
  assert (E : service.Update s id req w
              = service.save s id
                  (Some {| domain.ID := domain.ID user;
                           domain.Name :=
                             default (domain.Name user) (UpdateUserRequest.Name req);
                           domain.Email := domain.Email user;
                           domain.PasswordHash := domain.PasswordHash user;
                           domain.IsActive :=
                             default (domain.IsActive user) (UpdateUserRequest.IsActive req);
                           domain.Role :=
                             default (domain.Role user) (UpdateUserRequest.Role req);
                           domain.CreatedAt := domain.CreatedAt user;
                           domain.UpdatedAt := domain.UpdatedAt user |},
                   differs req user) w1).
  { unfold service.Update. unfold mbind at 1, M_bind at 1.
    rewrite service_facts.Debug_step. unfold mbind at 1, M_bind at 1. rewrite Hfind.
    unfold mbind at 1, M_bind at 1. rewrite service_facts.updateName_spec.
    unfold mbind at 1, M_bind at 1. rewrite service_facts.updateIsActive_spec.
    unfold mbind at 1, M_bind at 1. rewrite service_facts.updateRole_spec.
    reflexivity. }
  rewrite E. clear E. unfold service.save.
  destruct (differs req user) eqn:Hd.
  - unfold mbind at 1, M_bind at 1. cbn [time_Now].
    eexists. split; [reflexivity|]. repeat split.
  - rewrite (service_facts.differs_false req user Hd). reflexivity.
Qed.

Lemma Update_touches_three_fields_witness :
  differs (sample.rename "Grace") (sample.account true) = true
  ∧ (∃ user' : domain.User,
       service.Update (sample.users (sample.repoWith (sample.account true)))
         fixture.user7 (sample.rename "Grace") (fixture.world sample.now)
       = (domain.Update (sample.repoWith (sample.account true)) user'
            ≫= service.onUpdated fixture.user7 user')
           (tick (snd (zap.Debug "Updating user profile"
                         [zap_String "userID" (uuid.String fixture.user7)]
                         (fixture.world sample.now))))
       ∧ domain.Name user' = "Grace"
       ∧ domain.PasswordHash user' = "password123"
       ∧ domain.UpdatedAt user' = sample.now)
  ∧ differs (sample.rename "Ada") (sample.account true) = false
  ∧ fst (service.Update (sample.users (sample.repoWith (sample.account true)))
           fixture.user7 (sample.rename "Ada") (fixture.world sample.now))
    = Ret (service.mapUserToUserResponse (Some (sample.account true)), None).
Proof.
  pose proof (Update_touches_three_fields
                (sample.users (sample.repoWith (sample.account true)))
                fixture.user7 (sample.rename "Grace") (fixture.world sample.now) _
                (sample.account true) eq_refl) as Hg.
  pose proof (Update_touches_three_fields
                (sample.users (sample.repoWith (sample.account true)))
                fixture.user7 (sample.rename "Ada") (fixture.world sample.now) _
                (sample.account true) eq_refl) as Ha.
  change (differs (sample.rename "Grace") (sample.account true)) with true in Hg.
  change (differs (sample.rename "Ada") (sample.account true)) with false in Ha.
  cbv iota in Hg, Ha.
  destruct Hg as (user' & E & _ & _ & Hhash & _ & Hupd & Hname & _).
  split; [reflexivity|]. split.
  - exists user'. split; [exact E|]. split; [exact Hname|]. split; [exact Hhash|exact Hupd].
  - split; [reflexivity|]. by rewrite Ha.
Defined.

(** X19.  A store that answers a lookup with neither a user nor an error.
    [GetByID] then returns neither a response nor an error.  [Update]
    returns neither as well when the request sets no field, and reads a
    field through the nil user, which panics, as soon as the request sets
    one. *)
Theorem nil_user_without_error
    (s : service.userService) (id : UUID) (req : UpdateUserRequest.t) (w : World) :
  (∀ w0 : World, domain.FindByID (service.userRepo s) id w0 = (Ret (None, None), w0)) →
  fst (service.GetByID s id w) = Ret (None, None)
  ∧ (setsNothing req → fst (service.Update s id req w) = Ret (None, None))
  ∧ (¬ setsNothing req →
       fst (service.Update s id req w)
       = Panic "invalid memory address or nil pointer dereference").
Proof.
  intros Hfind. split; [|split].
  - unfold service.GetByID. unfold mbind, M_bind.
    rewrite service_facts.Debug_step, Hfind. reflexivity.
  - intros (Hn & Ha & Hr). unfold service.Update. unfold mbind, M_bind.
    rewrite service_facts.Debug_step, Hfind.
    unfold service.updateName, service.updateIsActive, service.updateRole.
    cbn [fst]. rewrite Hn. cbn [mret M_ret fst]. rewrite Ha. cbn [mret M_ret fst]. rewrite Hr.
    reflexivity.
  - intros Hsets. unfold service.Update. unfold mbind, M_bind.
    rewrite service_facts.Debug_step, Hfind.
    unfold service.updateName, service.updateIsActive, service.updateRole, setsNothing in *.
    cbn [fst].
    destruct (UpdateUserRequest.Name req); [reflexivity|]. cbn [mret M_ret fst].
    destruct (UpdateUserRequest.IsActive req); [reflexivity|]. cbn [mret M_ret fst].
    destruct (UpdateUserRequest.Role req); [reflexivity|].
    exfalso. by apply Hsets.
Qed.

Lemma nil_user_without_error_witness :
  fst (service.GetByID (sample.users sample.silentRepo) fixture.user7
         (fixture.world 0%Z)) = Ret (None, None)
  ∧ fst (service.Update (sample.users sample.silentRepo) fixture.user7
           (sample.rename "Grace") (fixture.world 0%Z))
    = Panic "invalid memory address or nil pointer dereference".
Proof.
  destruct (nil_user_without_error (sample.users sample.silentRepo) fixture.user7
              (sample.rename "Grace") (fixture.world 0%Z) (fun w0 => eq_refl))
    as (Hg & _ & Hp).
  split; [exact Hg|]. apply Hp. intros (Hn & _). discriminate Hn.
Defined.

(** ** domain.ValidationError *)

Module validation_facts.
Import validation.

Lemma addAll_cons e p adds : addAll e (p :: adds) = addAll (Add e (fst p) (snd p)) adds.
Proof. reflexivity. Qed.

Lemma Add_lookup (e : ValidationError) (f m field : string) :
  default [] (default ∅ (Failures (Add e f m)) !! field)
  = default [] (default ∅ (Failures e) !! field) ++ (if String.eqb f field then [m] else []).
Proof.
  unfold Add. cbn [Failures]. unfold default at 1. cbn [from_option id].
  destruct (String.eqb_spec f field) as [->|Hne].
  - by rewrite lookup_insert_eq.
  - rewrite lookup_insert_ne by done. by rewrite app_nil_r.
Qed.

Lemma addAll_lookup (adds : list (string * string)) (e : ValidationError) (field : string) :
  default [] (default ∅ (Failures (addAll e adds)) !! field)
  = default [] (default ∅ (Failures e) !! field) ++ messagesFor field adds.
Proof.
  revert e. induction adds as [|[f m] adds IH]; intros e.
  - by rewrite app_nil_r.
  - rewrite addAll_cons, IH, Add_lookup. cbn [fst snd]. rewrite <- app_assoc. f_equal.
    unfold messagesFor. cbn [List.filter fst]. by destruct (String.eqb f field).
Qed.

Lemma Add_noEmptyEntry e f m : noEmptyEntry e → noEmptyEntry (Add e f m).
Proof.
  intros He field. unfold Add. cbn [Failures]. unfold default at 1. cbn [from_option id].
  destruct (decide (f = field)) as [->|Hne].
  - rewrite lookup_insert_eq. intros [= E]. by destruct (default [] _).
  - rewrite lookup_insert_ne by done. apply He.
Qed.

Lemma addAll_noEmptyEntry adds e : noEmptyEntry e → noEmptyEntry (addAll e adds).
Proof.
  revert e. induction adds as [|[f m] adds IH]; intros e He; [done|].
  rewrite addAll_cons. apply IH. by apply Add_noEmptyEntry.
Qed.

End validation_facts.

(** X20.  [ValidationError] accumulates.  After any run of [Add] calls on
    a value fresh from [NewValidationError], and as well on the zero value
    whose map is nil, every field holds exactly the messages added for it,
    in the order of the calls; no field holds an empty list; and
    [HasErrors] answers true exactly when there was at least one call. *)
Theorem ValidationError_accumulates (adds : list (string * string)) (field : string) :
  (default [] (default ∅ (validation.Failures (addAll validation.NewValidationError adds))
               !! field)
   = messagesFor field adds
   ∧ noEmptyEntry (addAll validation.NewValidationError adds)
   ∧ (validation.HasErrors (addAll validation.NewValidationError adds) = true ↔ adds ≠ []))
  ∧ (default [] (default ∅ (validation.Failures
                              (addAll {| validation.Failures := None |} adds)) !! field)
     = messagesFor field adds
     ∧ noEmptyEntry (addAll {| validation.Failures := None |} adds)
     ∧ (validation.HasErrors (addAll {| validation.Failures := None |} adds) = true
        ↔ adds ≠ [])).
Proof.
  assert (Hall : ∀ e0 : validation.ValidationError,
            default ∅ (validation.Failures e0) = ∅ →
            default [] (default ∅ (validation.Failures (addAll e0 adds)) !! field)
            = messagesFor field adds
            ∧ noEmptyEntry (addAll e0 adds)
            ∧ (validation.HasErrors (addAll e0 adds) = true ↔ adds ≠ [])).
  { intros e0 He0. split; [|split].
    - rewrite validation_facts.addAll_lookup, He0. by rewrite lookup_empty.
    - apply validation_facts.addAll_noEmptyEntry. intros f. rewrite He0.
      by rewrite lookup_empty.
    - unfold validation.HasErrors. rewrite Nat.ltb_lt. split.
      + intros Hsize ->. cbn [addAll fold_left] in Hsize. rewrite He0 in Hsize.
        rewrite map_size_empty in Hsize. lia.
      + intros Hne. destruct adds as [|[f m] adds']; [done|].
        assert (Hm : default ∅ (validation.Failures (addAll e0 ((f, m) :: adds'))) ≠ ∅).
        { intros Hempty.
          pose proof (validation_facts.addAll_lookup ((f, m) :: adds') e0 f) as Hl.
          rewrite Hempty, He0, !lookup_empty in Hl. unfold messagesFor in Hl.
          cbn [List.filter fst] in Hl. rewrite String.eqb_refl in Hl. discriminate Hl. }
        apply map_size_non_empty_iff in Hm. lia. }
  split; by apply Hall.
Qed.

(** ** Signing up through the handler *)

(** X21.  [Register] over the user service, once the request has bound
    and passed validation.  Where [Create] returns without error, its
    response is there, so the handler never reads through a nil pointer, and
    the reply is a 201 that wraps that response.  Where [Create] returns
    [domain.ErrDuplicateEntry] the reply is a 409 "domain: duplicate entry";
    every other error of [Create] wraps nothing and the reply is a 500
    "Failed to register user", the cause going to the log only.  A panic of
    the store passes through. *)
Theorem Register_over_Create `{Tables} `{Texts}
    (authSvc : auth_iface.Service) (repo : domain.UserRepository) (c : handler.Context)
    (req : CreateUserRequest.t) (w wb wv : World) :
  handler.Bind c w = (Ret (req, None), wb) →
  handler.Validate c req wb = (Ret None, wv) →
  match service.Create {| service.userRepo := repo |} req wv with
  | (Ret (resp, None), w3) =>
      ∃ r : UserResponse.t,
        resp = Some r
        ∧ handler.Register (handler.NewAuthHandler authSvc (service.NewUserService repo)) c w
          = handler.JSON c 201
              {| SuccessResponse.Status := "success"; SuccessResponse.Data := Some r |}
              (snd (zap.Info "User registered successfully"
                      [zap_String "userID" (UserResponse.ID r)] w3))
  | (Ret (resp, Some e), w3) =>
      (e = errVar domain_ErrDuplicateEntry
       ∧ handler.Register (handler.NewAuthHandler authSvc (service.NewUserService repo)) c w
         = (Ret (Some (HTTPError 409 "domain: duplicate entry")),
            snd (zap.Warn "Registration attempt failed: user already exists"
                   [zap_String "email" (CreateUserRequest.Email req)] w3)))
      ∨ (wrapsNothing e
         ∧ handler.Register (handler.NewAuthHandler authSvc (service.NewUserService repo)) c w
           = (Ret (Some (HTTPError 500 "Failed to register user")),
              snd (zap.Error "Internal error during user registration"
                     [zap_Error e; zap_String "email" (CreateUserRequest.Email req)] w3)))
  | (Panic v, w3) =>
      handler.Register (handler.NewAuthHandler authSvc (service.NewUserService repo)) c w
      = (Panic v, w3)
  end.
Proof.
  intros Hbind Hval.
  pose proof (service_facts.Create_outcome {| service.userRepo := repo |} req wv) as Hout.
  assert (E : handler.Register
                (handler.NewAuthHandler authSvc (service.NewUserService repo)) c w
              = match service.Create {| service.userRepo := repo |} req wv with
                | (Ret (registerResp, err), w3) =>
                    match err with
                    | Some err =>
                        if errors.Is err domain_ErrDuplicateEntry then
                          (Ret (Some (HTTPError 409 "domain: duplicate entry")),
                           snd (zap.Warn "Registration attempt failed: user already exists"
                                  [zap_String "email" (CreateUserRequest.Email req)] w3))
                        else
                          (Ret (Some (HTTPError 500 "Failed to register user")),
                           snd (zap.Error "Internal error during user registration"
                                  [zap_Error err;
                                   zap_String "email" (CreateUserRequest.Email req)] w3))
                    | None =>
                        match registerResp with
                        | Some resp =>
                            handler.JSON c 201 (response.NewSuccessResponse (Some resp))
                              (snd (zap.Info "User registered successfully"
                                      [zap_String "userID" (UserResponse.ID resp)] w3))
                        | None =>
                            (Panic "invalid memory address or nil pointer dereference", w3)
                        end
                    end
                | (Panic v, w3) => (Panic v, w3)
                end).
  { unfold handler.Register. unfold mbind at 1, M_bind at 1. rewrite Hbind.
    unfold mbind at 1, M_bind at 1. rewrite Hval.
    unfold mbind at 1, M_bind at 1.
    cbn [handler.userService handler.NewAuthHandler service.NewUserService
         service_iface.Create].
    destruct (service.Create _ req wv) as [[[registerResp [err|]]|v] w3]; [|  |reflexivity].
    - destruct (errors.Is err domain_ErrDuplicateEntry); reflexivity.
    - destruct registerResp; reflexivity. }
  rewrite E. clear E.
  destruct (service.Create _ req wv) as [[[resp [e|]]|v] w3]; [| |reflexivity].
  - destruct Hout as [_ [->|Hw]].
    + left. split; [reflexivity|]. reflexivity.
    + right. split; [exact Hw|]. by rewrite (Hw domain_ErrDuplicateEntry).
  - destruct Hout as (r & -> & _). exists r. split; reflexivity.
Qed.

Lemma Register_over_Create_witness :
  @handler.Register sample.texts
     (handler.NewAuthHandler fixture.acceptAll
        (@service.NewUserService fixture.tables (sample.repoWith (sample.account true))))
     (sample.contextWith sample.signup) (fixture.world 0%Z)
  = (Ret (Some (HTTPError 409 "domain: duplicate entry")),
     snd (zap.Warn "Registration attempt failed: user already exists"
            [zap_String "email" "ada@example.com"]
            (snd (zap.Debug "Attempting user creation"
                    [zap_String "email" "ada@example.com"] (fixture.world 0%Z))))).
Proof.
  pose proof (Register_over_Create (H := fixture.tables) (H0 := sample.texts)
                fixture.acceptAll (sample.repoWith (sample.account true))
                (sample.contextWith sample.signup) sample.signup
                (fixture.world 0%Z) _ _ eq_refl eq_refl) as Hr.
  change (@service.Create fixture.tables
            {| service.userRepo := sample.repoWith (sample.account true) |}
            sample.signup (fixture.world 0%Z))
    with (@Ret (option UserResponse.t * option error)
            (None, Some (errVar domain_ErrDuplicateEntry)),
          snd (zap.Debug "Attempting user creation"
                 [zap_String "email" "ada@example.com"] (fixture.world 0%Z))) in Hr.
  cbv iota beta in Hr. destruct Hr as [[_ Hr]|[Hw _]]; [exact Hr|].
  specialize (Hw domain_ErrDuplicateEntry). discriminate Hw.
Defined.

(** ** response.NewValidationError *)

Module response_facts.

Lemma fold_insert_snoc `{Unicode} (errs : validator.ValidationErrors)
    (fieldErr : validator.FieldError) (m : gmap string string) :
  fold_left (fun details fieldErr =>
               <[fst (response.describe fieldErr) := snd (response.describe fieldErr)]> details)
            (errs ++ [fieldErr]) m
  = <[fst (response.describe fieldErr) := snd (response.describe fieldErr)]>
      (fold_left (fun details fieldErr =>
                    <[fst (response.describe fieldErr) := snd (response.describe fieldErr)]>
                      details) errs m).
Proof. by rewrite fold_left_app. Qed.

Lemma describedAs_snoc `{Unicode} (key : string) (errs : validator.ValidationErrors)
    (fieldErr : validator.FieldError) :
  describedAs key (errs ++ [fieldErr])
  = describedAs key errs
    ++ (if String.eqb (fst (response.describe fieldErr)) key
        then [snd (response.describe fieldErr)] else []).
Proof.
  unfold describedAs. rewrite map_app, List.filter_app, map_app. f_equal.
  cbn [map List.filter]. by destruct (String.eqb _ key).
Qed.

(** The map that the loop builds holds, under each key, the last message
    contributed for it. *)
Lemma details_lookup `{Unicode} (errs : validator.ValidationErrors) (key : string) :
  fold_left (fun details fieldErr =>
               <[fst (response.describe fieldErr) := snd (response.describe fieldErr)]> details)
            errs (∅ : gmap string string) !! key
  = last (describedAs key errs).
Proof.
  induction errs as [|fieldErr errs IH] using rev_ind.
  - cbn [fold_left]. by rewrite lookup_empty.
  - rewrite fold_insert_snoc, describedAs_snoc.
    destruct (String.eqb_spec (fst (response.describe fieldErr)) key) as [->|Hne].
    + by rewrite lookup_insert_eq, last_snoc.
    + rewrite lookup_insert_ne by done. by rewrite app_nil_r.
Qed.

End response_facts.

(** X22.  [NewValidationError] on the field errors of the validator
    answers with the status [fail], the message "Validation failed" and a
    map that holds, under the lower-cased name of each failing field and
    under no other key, the message of the last error reported for that
    name: earlier failures of a field, and of fields whose names differ in
    case only, are overwritten.  On an error of any other type the status
    is [error] and the details are the text of the error. *)
Theorem NewValidationError_keeps_last_message `{Unicode} `{Texts}
    (errs : validator.ValidationErrors) (e : error) :
  (∃ m : gmap string string,
     response.NewValidationError (inl errs)
     = {| ErrorResponse.Status := "fail"; ErrorResponse.Message := "Validation failed";
          ErrorResponse.Details := detailsMap m |}
     ∧ ∀ key : string, m !! key = last (describedAs key errs))
  ∧ response.NewValidationError (inr e)
    = {| ErrorResponse.Status := "error"; ErrorResponse.Message := "Validation failed";
         ErrorResponse.Details := detailsString (Error e) |}.
Proof.
  split; [|reflexivity].
  eexists. split; [reflexivity|]. intros key. apply response_facts.details_lookup.
Qed.

Lemma NewValidationError_keeps_last_message_witness :
  ∃ m : gmap string string,
    @response.NewValidationError fixture.unicode sample.texts (inl sample.failures)
    = {| ErrorResponse.Status := "fail"; ErrorResponse.Message := "Validation failed";
         ErrorResponse.Details := detailsMap m |}
    ∧ m !! "email" = Some "email must be a valid email address"
    ∧ m !! "password" = Some "password must be at least 8 characters long"
    ∧ m !! "Email" = None.
Proof.
  destruct (proj1 (NewValidationError_keeps_last_message (H := fixture.unicode)
                     (H0 := sample.texts) sample.failures (errNew "")))
    as (m & E & Hm).
  exists m. split; [exact E|]. rewrite !Hm.
  split; [vm_compute; reflexivity|]. split; vm_compute; reflexivity.
Defined.
